(** * Scheduling, routing and dispatch core of the social-media automation

    A shallow embedding of the Python sources under
    [social-media-automation/]:
    - [page_router.py]               (class [PageRouter]),
    - [duplicate_content_handler.py] (class [DuplicateContentHandler]),
    - [unified_queue_manager.py]     (class [UnifiedQueueManager]),
    - [social_publisher.py]          (class [SocialMediaPublisher]),
    - [smart_scheduler.py]           (class [SmartScheduler]),
    - [enhanced_scheduler.py]        ([_handle_duplicate_spreading]),
    followed by the properties the specification states about them and by
    further properties of the code.

    Conventions of the embedding.
    - Python [int] is [Z]; [str] is [string]; [Optional[T]] is [option T];
      a [dict] used as a map is a [gmap]; a [dict] whose iteration order
      matters is an association list.
    - A [datetime] is a wall-clock reading in microseconds plus an optional
      UTC offset; a [timedelta] is a number of microseconds.  Building a
      [timedelta] and adding one to a [datetime] raise [OverflowError]
      outside the ranges Python has for them.  [time.time()] is the same
      clock, read in microseconds, so the source's [3600] and [60] seconds
      appear as [seconds 3600] and [seconds 60].
    - Code that can raise lives in a state-and-exception monad [M]; a
      [try]/[except] is [try_except].
    - [logger] calls do not touch program state; they are kept only in
      [get_due_content], where a property is about them.  Writing the JSON
      files ([_save_queue], [_save_posting_history], [_save_history])
      swallows its own errors and never changes the in-memory state, so it
      is left out. *)

From Stdlib Require Import ZArith Lia Ascii String.
From stdpp Require Import base decidable option list sorting strings gmap
  functions pretty.

Local Open Scope Z_scope.

(* ===================================================================== *)
(** * Python runtime prelude *)
(* ===================================================================== *)

Module Py.

(** Exceptions, with the text [str(e)] gives. *)
Inductive exn : Type :=
  | ValueError (msg : string)
  | TypeError (msg : string)
  | RequestException (msg : string)
  | OSError (msg : string)
  | RuntimeError (msg : string)
  | OverflowError (msg : string).

Definition str_exn (e : exn) : string :=
  match e with
  | ValueError m | TypeError m | RequestException m | OSError m
  | RuntimeError m | OverflowError m => m
  end.

(** [except requests.exceptions.RequestException] catches only this class. *)
Definition is_RequestException (e : exn) : bool :=
  match e with RequestException _ => true | _ => false end.

Inductive result (A : Type) : Type :=
  | Ok (a : A)
  | Raise (e : exn).
Arguments Ok {A} a.
Arguments Raise {A} e.

(** State that survives an exception, as Python's does. *)
Definition M (S A : Type) : Type := S → result A * S.

Definition ret {S A} (a : A) : M S A := λ s, (Ok a, s).
Definition bind {S A B} (m : M S A) (k : A → M S B) : M S B :=
  λ s, match m s with
       | (Ok a, s') => k a s'
       | (Raise e, s') => (Raise e, s')
       end.
Definition raise {S A} (e : exn) : M S A := λ s, (Raise e, s).
Definition try_except {S A} (m : M S A) (h : exn → M S A) : M S A :=
  λ s, match m s with
       | (Ok a, s') => (Ok a, s')
       | (Raise e, s') => h e s'
       end.
Definition get {S} : M S S := λ s, (Ok s, s).
Definition gets {S A} (f : S → A) : M S A := λ s, (Ok (f s), s).
Definition modify {S} (f : S → S) : M S unit := λ s, (Ok tt, f s).
Definition lift_result {S A} (r : result A) : M S A := λ s, (r, s).

(** Run a computation on a component [T] of the state [S]. *)
Definition zoom {S T A} (proj : S → T) (inj : T → S → S) (m : M T A) : M S A :=
  λ s, let '(r, t') := m (proj s) in (r, inj t' s).

#[export] Instance M_ret {S} : MRet (M S) := @ret S.
#[export] Instance M_bind {S} : MBind (M S) := λ A B k m, bind m k.

(** [for x in l: acc = body acc x], threading the state. *)
Fixpoint fold_for {S A B} (l : list A) (acc : B) (body : B → A → M S B)
    : M S B :=
  match l with
  | [] => ret acc
  | x :: l' => bind (body acc x) (λ acc', fold_for l' acc' body)
  end.

(** Truthiness of an [Optional[str]]: [None] and [""] are falsy. *)
Definition truthy (o : option string) : bool :=
  match o with
  | Some s => negb (String.eqb s "")
  | None => false
  end.

(** ** [list.sort] and [sorted]

    Python's sort is stable, so its result is the insertion sort below:
    [before x y] says that [x] has to come strictly before [y]. *)
Section stable_sort.
Context {A : Type} (before : A → A → bool).

Fixpoint stable_insert (x : A) (l : list A) : list A :=
  match l with
  | [] => [x]
  | y :: l' => if before y x then y :: stable_insert x l' else x :: y :: l'
  end.

Definition stable_sort (l : list A) : list A := foldr stable_insert [] l.
End stable_sort.

(** [sorted(l, key=key, reverse=True)] on integer keys. *)
Definition sorted_reverse {A} (key : A → Z) (l : list A) : list A :=
  stable_sort (λ x y, key y <? key x) l.

(** [a < b] on tuples [(str, int)]: the first component that differs
    decides. *)
Definition tuple_ltb (a b : string * Z) : bool :=
  if decide (a.1 = b.1) then a.2 <? b.2 else String.ltb a.1 b.1.

(** [enumerate(l)]. *)
Definition enumerate {A} (l : list A) : list (Z * A) :=
  zip (Z.of_nat <$> seq 0 (length l)) l.

(** ** [datetime] and [timedelta] *)
Record datetime : Type := Datetime {
  ticks : Z;                 (* wall-clock microseconds since 0001-01-01T00:00 *)
  utcoffset : option Z       (* [None] for a naive datetime *)
}.

#[export] Instance datetime_eq_dec : EqDecision datetime.
Proof. solve_decision. Defined.

Definition timedelta : Type := Z.
Definition seconds (n : Z) : timedelta := n * 1000000.
Definition minutes (n : Z) : timedelta := seconds (n * 60).
Definition hours (n : Z) : timedelta := seconds (n * 3600).
Definition days (n : Z) : timedelta := seconds (n * 86400).

(** The datetime [delta] after [d] on the wall clock: what [d + delta]
    is when Python can represent it ([dt_plus] below has the check). *)
Definition dt_add (d : datetime) (delta : timedelta) : datetime :=
  {| ticks := ticks d + delta; utcoffset := utcoffset d |}.

(** [d.toordinal()]: the calendar day of the wall-clock reading, day 1
    being 0001-01-01. *)
Definition toordinal (d : datetime) : Z := ticks d / days 1 + 1.

(** [a <= b]: naive and aware datetimes do not compare. *)
Definition dt_le (a b : datetime) : result bool :=
  match utcoffset a, utcoffset b with
  | None, None => Ok (ticks a <=? ticks b)
  | Some oa, Some ob => Ok (ticks a - oa <=? ticks b - ob)
  | _, _ => Raise (TypeError "can't compare offset-naive and offset-aware datetimes")
  end.

(** [datetime.max], 9999-12-31T23:59:59.999999, on the wall clock;
    [datetime.min] is 0. *)
Definition max_ticks : Z := 3652059 * 86400000000 - 1.

(** [timedelta(...)] for a duration of [delta] microseconds: the
    constructor refuses more than 999999999 days either way, with
    CPython's two messages (the day count is held in a C [int]). *)
Definition timedelta_of (delta : Z) : result timedelta :=
  let d := delta / 86400000000 in
  if (-999999999 <=? d) && (d <=? 999999999) then Ok delta
  else if (-2147483648 <=? d) && (d <=? 2147483647) then
    Raise (OverflowError ("days=" +:+ pretty d
                          +:+ "; must have magnitude <= 999999999"))
  else Raise (OverflowError "Python int too large to convert to C int").

(** [d + delta]: the sum has to be a time [datetime] can hold. *)
Definition dt_plus (d : datetime) (delta : timedelta) : result datetime :=
  let sum := dt_add d delta in
  if (0 <=? ticks sum) && (ticks sum <=? max_ticks) then Ok sum
  else Raise (OverflowError "date value out of range").

(** [datetime.fromisoformat] and [datetime.isoformat] are the standard
    library's; the development is parametric in them. *)
Class IsoFormat : Type := {
  fromisoformat : string → result datetime;
  isoformat : datetime → string
}.

(** [uuid.uuid4()]: the identifiers the generator will hand out, and how
    many it has handed out so far. *)
Record Entropy : Type := {
  uuid_stream : nat → string;
  uuid_drawn : nat
}.

Definition uuid4 : M Entropy string :=
  λ e, (Ok (uuid_stream e (uuid_drawn e)),
        {| uuid_stream := uuid_stream e; uuid_drawn := S (uuid_drawn e) |}).

(** ** Further library functions *)

(** [result] as a monad of its own, for code without state. *)
#[export] Instance result_ret : MRet result := @Ok.
#[export] Instance result_bind : MBind result :=
  λ A B k r, match r with Ok a => k a | Raise e => Raise e end.

(** [for x in l: body x], threading the state. *)
Fixpoint for_each {S A} (l : list A) (body : A → M S unit) : M S unit :=
  match l with
  | [] => ret tt
  | x :: l' => bind (body x) (λ _, for_each l' body)
  end.

(** [for x in l: acc = body acc x] in code without state: the first
    exception ends the loop. *)
Fixpoint fold_result {A B} (l : list A) (acc : B) (body : B → A → result B)
    : result B :=
  match l with
  | [] => Ok acc
  | x :: l' =>
      match body acc x with
      | Ok acc' => fold_result l' acc' body
      | Raise e => Raise e
      end
  end.

(** [needle in hay] on strings. *)
Fixpoint str_in (needle hay : string) : bool :=
  String.prefix needle hay ||
  match hay with
  | EmptyString => false
  | String _ hay' => str_in needle hay'
  end.

(** [sep.join(l)] *)
Fixpoint str_join (sep : string) (l : list string) : string :=
  match l with
  | [] => ""
  | [x] => x
  | x :: l' => x +:+ sep +:+ str_join sep l'
  end.


(** [str.lower] is the standard library's; the router is parametric in
    it. *)
Class StrLower : Type := { lower : string → string }.

(** [l[i]] with Python's negative indices; [None] stands for the
    [IndexError]. *)
Definition getitem {A} (l : list A) (i : Z) : option A :=
  if 0 <=? i then l !! Z.to_nat i
  else if - Z.of_nat (length l) <=? i then l !! Z.to_nat (Z.of_nat (length l) + i)
  else None.

(** [random.choice(l)]; [draw] is what the generator yields, [None] stands
    for the [IndexError] on an empty list. *)
Definition random_choice {A} (draw : nat) (l : list A) : option A :=
  l !! (draw `mod` length l)%nat.

(** [a - b] and [a < b] on datetimes: naive and aware ones do not mix. *)
Definition dt_sub (a b : datetime) : result timedelta :=
  match utcoffset a, utcoffset b with
  | None, None => Ok (ticks a - ticks b)
  | Some oa, Some ob => Ok ((ticks a - oa) - (ticks b - ob))
  | _, _ => Raise (TypeError "can't subtract offset-naive and offset-aware datetimes")
  end.

Definition dt_lt (a b : datetime) : result bool :=
  match utcoffset a, utcoffset b with
  | None, None => Ok (ticks a <? ticks b)
  | Some oa, Some ob => Ok (ticks a - oa <? ticks b - ob)
  | _, _ => Raise (TypeError "can't compare offset-naive and offset-aware datetimes")
  end.

(** [d.replace(hour=0, minute=0, second=0, microsecond=0)] and
    [d.replace(hour=23, minute=59, second=59, microsecond=999999)]. *)
Definition day_start (d : datetime) : datetime :=
  {| ticks := ticks d / days 1 * days 1; utcoffset := utcoffset d |}.

Definition day_end (d : datetime) : datetime :=
  {| ticks := ticks d / days 1 * days 1 + days 1 - 1; utcoffset := utcoffset d |}.

(** [d.strftime(fmt)] for the one format the code uses, ['%Y-%m-%d']. *)
Class DateFormat : Type := { strftime_ymd : datetime → string }.

(** A [dict] of lists filled in a loop ([defaultdict(list)], or the
    [if key not in d: d[key] = []] idiom): keys in the order of their
    first appearance, each with its items in order. *)
Section groups.
Context {K A : Type} `{EqDecision K}.

Fixpoint group_insert (k : K) (x : A) (groups : list (K * list A))
    : list (K * list A) :=
  match groups with
  | [] => [(k, [x])]
  | (k', xs) :: rest =>
      if decide (k = k') then (k', xs ++ [x]) :: rest
      else (k', xs) :: group_insert k x rest
  end.

(** [d.get(k)] *)
Fixpoint assoc (k : K) (groups : list (K * list A)) : option (list A) :=
  match groups with
  | [] => None
  | (k', xs) :: rest => if decide (k = k') then Some xs else assoc k rest
  end.
End groups.

(** [a <= b <= c], the chained comparison: [b <= c] is only evaluated when
    [a <= b] holds. *)
Definition dt_between (a b c : datetime) : result bool :=
  lo ← dt_le a b;
  if (lo : bool) then dt_le b c else Ok false.

#[export] Instance exn_eq_dec : EqDecision exn.
Proof. solve_decision. Defined.

#[export] Instance result_eq_dec {A} `{EqDecision A} : EqDecision (result A).
Proof. solve_decision. Defined.


End Py.
Import Py.

(* ===================================================================== *)
(** * page_router.py *)
(* ===================================================================== *)

Module PageRouter.

Record PageRoute : Type := {
  page_id : string;
  page_name : string;
  reason : string;
  priority : Z
}.

#[export] Instance PageRoute_eq_dec : EqDecision PageRoute.
Proof. solve_decision. Defined.

(** One entry of [PAGES]. *)
Record PageData : Type := {
  page_data_id : string;
  page_data_name : string;
  page_data_accepts : list string
}.

(** [PAGES['cocalc']] and [PAGES['sagemath']]. *)
Definition cocalc_page : PageData :=
  {| page_data_id := "698630966948910"; page_data_name := "CoCalc";
     page_data_accepts := ["all"] |}.

Definition sagemath_page : PageData :=
  {| page_data_id := "26593144945"; page_data_name := "SageMath";
     page_data_accepts := ["sagemath"; "sagetex"; "mathematics"] |}.

Definition PAGES : list (string * PageData) :=
  [ ("cocalc", cocalc_page); ("sagemath", sagemath_page) ].

Definition SAGEMATH_KEYWORDS : list string :=
  [ "sage"; "sagetex"; "sagemath"; "symbolic"; "algebra";
    "number theory"; "combinatorics"; "topology"; "pure math";
    "abstract algebra"; "group theory"; "ring theory" ].

Definition SAGEMATH_CATEGORIES : list string :=
  [ "mathematics"; "pure-mathematics"; "algebra"; "number-theory";
    "topology"; "combinatorics"; "graph-theory"; "symbolic-computation" ].

(** The keys of a metadata dict the router reads with [.get]; [None] for
    a key the dict does not have. *)
Record Metadata : Type := {
  template_name : option string;
  category : option string;
  has_sagetex : option bool;
  description : option string;
  basename : option string;
  tags : option (list string)
}.

Definition _is_sagemath_relevant `{StrLower} (template_metadata : Metadata)
    : bool :=
  if default false (has_sagetex template_metadata) then true
  else
    let category := lower (default "" (category template_metadata)) in
    if existsb (λ cat, str_in cat category) SAGEMATH_CATEGORIES then true
    else
      let searchable_text :=
        lower (str_join " " [ default "" (template_name template_metadata);
                              default "" (description template_metadata);
                              category ]) in
      if existsb (λ keyword, str_in keyword searchable_text) SAGEMATH_KEYWORDS
      then true
      else false.

Definition _is_notebook_sagemath_relevant `{StrLower}
    (notebook_metadata : Metadata) : bool :=
  let basename := lower (default "" (basename notebook_metadata)) in
  if existsb (λ keyword, str_in keyword basename)
             ["sage"; "symbolic"; "algebra"; "math"]
  then true
  else
    let tags := default [] (tags notebook_metadata) in
    if match tags with
       | [] => false
       | _ =>
           let tag_text := lower (str_join " " tags) in
           existsb (λ keyword, str_in keyword tag_text) SAGEMATH_KEYWORDS
       end
    then true
    else
      let description := lower (default "" (description notebook_metadata)) in
      if existsb (λ keyword, str_in keyword description) SAGEMATH_KEYWORDS
      then true
      else false.

Definition route_template `{StrLower} (template_metadata : Metadata)
    : list PageRoute :=
  let routes :=
    [ {| page_id := page_data_id cocalc_page;
         page_name := page_data_name cocalc_page;
         reason := "CoCalc page receives all template content";
         priority := 10 |} ] in
  if _is_sagemath_relevant template_metadata then
    routes ++ [ {| page_id := page_data_id sagemath_page;
                   page_name := page_data_name sagemath_page;
                   reason := "Template uses SageTeX or is math-focused";
                   priority := 8 |} ]
  else routes.

Definition route_notebook `{StrLower} (notebook_metadata : Metadata)
    : list PageRoute :=
  let routes :=
    [ {| page_id := page_data_id cocalc_page;
         page_name := page_data_name cocalc_page;
         reason := "CoCalc page receives all notebook content";
         priority := 10 |} ] in
  if _is_notebook_sagemath_relevant notebook_metadata then
    routes ++ [ {| page_id := page_data_id sagemath_page;
                   page_name := page_data_name sagemath_page;
                   reason := "Notebook contains SageMath/mathematical content";
                   priority := 8 |} ]
  else routes.

Definition get_page_info (page_id : string) : option PageData :=
  snd <$> List.find (λ kv, bool_decide (page_data_id kv.2 = page_id)) PAGES.

Definition get_all_pages : list (string * PageData) := PAGES.

Definition should_spread_across_days (routes : list PageRoute) : bool :=
  bool_decide (1 < length routes)%nat.

End PageRouter.

(* ===================================================================== *)
(** * duplicate_content_handler.py *)
(* ===================================================================== *)

Module DuplicateContentHandler.
Import PageRouter.

(** One dict of [DuplicateSchedule.schedules]; the key ['is_original'] is
    only present on the multi-page path. *)
Record ScheduleEntry : Type := {
  entry_page_id : string;
  entry_page_name : string;
  scheduled_time : datetime;
  is_original : option bool
}.

Record DuplicateSchedule : Type := {
  original_time : datetime;
  schedules : list ScheduleEntry;
  duplicate_group_id : string;
  ds_min_day_gap : Z
}.

Record t : Type := { min_day_gap : Z }.

(** The body of [for i, route in enumerate(sorted_routes)], on the pair
    [(schedules, current_time)]. *)
Definition stagger_step (self : t) (n : Z)
    (acc : list ScheduleEntry * datetime) (ir : Z * PageRoute)
    : result (list ScheduleEntry * datetime) :=
  let '(schedules, current_time) := acc in
  let '(i, route) := ir in
  let schedules := schedules ++ [ {| entry_page_id := page_id route;
                                     entry_page_name := page_name route;
                                     scheduled_time := current_time;
                                     is_original := Some (i =? 0) |} ] in
  if i <? n - 1 then
    gap ← timedelta_of (days (min_day_gap self));
    current_time ← dt_plus current_time gap;
    Ok (schedules, current_time)
  else Ok (schedules, current_time).

Definition schedule_duplicate_content (self : t)
    (routes : list PageRoute) (base_time : datetime)
    : M Entropy DuplicateSchedule :=
  if Z.of_nat (length routes) <=? 1 then
    gid ← uuid4;
    mret {| original_time := base_time;
            schedules := match routes with
                         | r :: _ => [ {| entry_page_id := page_id r;
                                          entry_page_name := page_name r;
                                          scheduled_time := base_time;
                                          is_original := None |} ]
                         | [] => []
                         end;
            duplicate_group_id := gid;
            ds_min_day_gap := 0 |}
  else
    let sorted_routes := sorted_reverse priority routes in
    '(schedules, _) ←
      lift_result
        (fold_result (enumerate sorted_routes) ([], base_time)
                     (stagger_step self (Z.of_nat (length sorted_routes))));
    gid ← uuid4;
    mret {| original_time := base_time;
            schedules := schedules;
            duplicate_group_id := gid;
            ds_min_day_gap := min_day_gap self |}.







(** [for tag in tags: if tag not in hashtags: hashtags.insert(0, tag)] *)
Definition insert_missing (tags hashtags : list string) : list string :=
  foldl (λ hashtags tag,
           if bool_decide (tag ∈ hashtags) then hashtags else tag :: hashtags)
        hashtags tags.

Definition adjust_hashtags_for_page (base_hashtags : list string)
    (page_name : string) : list string :=
  let hashtags := base_hashtags in
  let hashtags :=
    if str_in "SageMath" page_name then
      let sagemath_tags :=
        ["SageMath"; "SymbolicMath"; "PureMath"; "MathematicalComputing"] in
      let hashtags := insert_missing sagemath_tags hashtags in
      let remove_tags := ["Engineering"; "Physics"; "DataScience"] in
      filter (λ tag, tag ∉ remove_tags) hashtags
    else
      let cocalc_tags :=
        ["CoCalc"; "ComputationalScience"; "ReproducibleResearch"] in
      insert_missing cocalc_tags hashtags in
  take 10 hashtags.

(** [None] stands for the [IndexError] of [variations[variation_number - 1]]. *)
Definition create_variation_text (base_content : string)
    (variation_number : Z) : option string :=
  if variation_number =? 0 then Some base_content
  else
    let variations :=
      [ "Check this out: " +:+ base_content;
        "Don't miss: " +:+ base_content;
        "Worth exploring: " +:+ base_content;
        "Take a look: " +:+ base_content ] in
    if variation_number <=? Z.of_nat (length variations)
    then getitem variations (variation_number - 1)
    else Some base_content.

(** The body of [for i in range(1, num_pages)], on [times]. *)
Definition spread_step (self : t) (start_date : datetime)
    (times : list datetime) (i : Z) : result (list datetime) :=
  delta ← timedelta_of (days (i * min_day_gap self));
  next_time ← dt_plus start_date delta;
  Ok (times ++ [next_time]).

Definition get_optimal_spread_pattern (self : t) (num_pages : Z)
    (start_date : datetime) : result (list datetime) :=
  fold_result (seqZ 1 (num_pages - 1)) [start_date]
              (spread_step self start_date).

(** [should_spread_duplicates] *)
Definition should_spread_duplicates (routes : list PageRoute) : bool :=
  1 <? Z.of_nat (length routes).

End DuplicateContentHandler.

(* ===================================================================== *)
(** * unified_queue_manager.py *)
(* ===================================================================== *)

Module UnifiedQueueManager.

(** The dataclass, as an object is once [__post_init__] has filled an
    empty [created_at]. *)
Record QueuedContent : Type := {
  content_id : string;              (* Unique identifier *)
  content_type : string;
  page_id : string;
  page_name : string;
  platform : string;
  content_text : string;
  hashtags : list string;
  link : string;
  image_path : option string;
  alt_text : option string;
  source_name : string;
  category : string;
  scheduled_time : string;          (* ISO format *)
  priority : Z;
  created_at : string;
  is_duplicate : bool;
  duplicate_group_id : option string
}.

#[export] Instance QueuedContent_eq_dec : EqDecision QueuedContent.
Proof. solve_decision. Defined.

(** [content.scheduled_time = s] *)
Definition set_scheduled_time (s : string) (c : QueuedContent) : QueuedContent :=
  {| content_id := content_id c; content_type := content_type c;
     page_id := page_id c; page_name := page_name c; platform := platform c;
     content_text := content_text c; hashtags := hashtags c; link := link c;
     image_path := image_path c; alt_text := alt_text c;
     source_name := source_name c; category := category c;
     scheduled_time := s;
     priority := priority c; created_at := created_at c;
     is_duplicate := is_duplicate c;
     duplicate_group_id := duplicate_group_id c |}.

(** One dict of [posting_history]. *)
Record HistoryEntry : Type := {
  h_content_id : string;
  h_content_type : string;
  h_source_name : string;
  h_page_id : string;
  h_page_name : string;
  h_platform : string;
  h_post_id : string;
  h_scheduled_time : string;
  h_posted_at : string;
  h_is_duplicate : bool;
  h_duplicate_group_id : option string
}.

#[export] Instance HistoryEntry_eq_dec : EqDecision HistoryEntry.
Proof. solve_decision. Defined.

(** The in-memory state of a manager.  The queue is listed by the values
    of its objects; the one method that assigns to an object in place,
    [reschedule_content], is told which entries are references to the
    object it assigns to. *)
Record t : Type := {
  queue : list QueuedContent;
  posting_history : list HistoryEntry
}.

(** What [get_due_content] reads and writes besides the manager: the clock
    behind [datetime.now()] and the log. *)
Inductive level : Type := INFO | WARNING | ERROR.

Record World : Type := {
  clock : Z;
  log : list (level * string)
}.

Definition datetime_now : M World datetime :=
  gets (λ w, {| ticks := clock w; utcoffset := None |}).

Definition logger (lv : level) (msg : string) : M World unit :=
  modify (λ w, {| clock := clock w; log := log w ++ [(lv, msg)] |}).

(** [lambda x: (x.scheduled_time, -x.priority)] *)
Definition sort_key (x : QueuedContent) : string * Z :=
  (scheduled_time x, - priority x).

(** [_sort_queue], on the list. *)
Definition sort_queue (q : list QueuedContent) : list QueuedContent :=
  stable_sort (λ x y, tuple_ltb (sort_key x) (sort_key y)) q.

Definition _sort_queue (self : t) : t :=
  {| queue := sort_queue (queue self); posting_history := posting_history self |}.

Definition add_content (content : QueuedContent) (self : t) : t :=
  _sort_queue {| queue := queue self ++ [content];
                 posting_history := posting_history self |}.

Definition add_batch (contents : list QueuedContent) (self : t) : t :=
  _sort_queue {| queue := queue self ++ contents;
                 posting_history := posting_history self |}.

Definition remove_content (cid : string) (self : t) : bool * t :=
  let original_len := length (queue self) in
  let q := filter (λ c, content_id c ≠ cid) (queue self) in
  (bool_decide (length q < original_len)%nat,
   {| queue := q; posting_history := posting_history self |}).

(** [now] is the value of [datetime.now()] inside the call. *)
Definition mark_posted `{IsoFormat} (now : datetime)
    (content : QueuedContent) (post_id : string) (self : t) : t :=
  let self := (remove_content (content_id content) self).2 in
  let history_entry :=
    {| h_content_id := content_id content;
       h_content_type := content_type content;
       h_source_name := source_name content;
       h_page_id := page_id content;
       h_page_name := page_name content;
       h_platform := platform content;
       h_post_id := post_id;
       h_scheduled_time := scheduled_time content;
       h_posted_at := isoformat now;
       h_is_duplicate := is_duplicate content;
       h_duplicate_group_id := duplicate_group_id content |} in
  {| queue := queue self;
     posting_history := posting_history self ++ [history_entry] |}.

(** The loop of [reschedule_content]: the first entry with the id is
    assigned the new time, and the loop ends; [None] when it falls
    through.  The queue holds references, so the assignment shows in every
    other entry that is the same object: [shared j] says that the entry
    [j] places after the one found is a reference to it (two references
    to one object show one record; an entry before it cannot be one, or
    the loop would have stopped there). *)
Definition assign_shared (s : string) (shared : nat → bool)
    (c : QueuedContent) (q : list QueuedContent) : list QueuedContent :=
  imap (λ j c', if shared j && bool_decide (c' = c)
                then set_scheduled_time s c' else c') q.

Fixpoint reschedule_first (cid : string) (s : string) (shared : nat → bool)
    (q : list QueuedContent) : option (list QueuedContent) :=
  match q with
  | [] => None
  | c :: q' =>
      if decide (content_id c = cid)
      then Some (set_scheduled_time s c :: assign_shared s shared c q')
      else (c ::.) <$> reschedule_first cid s shared q'
  end.

Definition reschedule_content `{IsoFormat} (cid : string) (new_time : datetime)
    (shared : nat → bool) (self : t) : bool * t :=
  match reschedule_first cid (isoformat new_time) shared (queue self) with
  | Some q => (true, _sort_queue {| queue := q;
                                    posting_history := posting_history self |})
  | None => (false, self)
  end.

(** The body of [for content in self.queue] in [get_due_content]. *)
Definition due_step `{IsoFormat} (now cutoff : datetime)
    (due : list QueuedContent) (content : QueuedContent)
    : M World (list QueuedContent) :=
  try_except
    (scheduled ← lift_result (fromisoformat (scheduled_time content));
     lo ← lift_result (dt_le now scheduled);
     if (lo : bool) then
       hi ← lift_result (dt_le scheduled cutoff);
       mret (if (hi : bool) then due ++ [content] else due)
     else mret due)
    (λ e, logger ERROR ("Error parsing scheduled time: " +:+ str_exn e);;
          mret due).

Definition get_due_content `{IsoFormat} (self : t) (within_minutes : Z)
    : M World (list QueuedContent) :=
  now ← datetime_now;
  cutoff ← lift_result (delta ← timedelta_of (minutes within_minutes);
                        dt_plus now delta);
  due ← fold_for (queue self) [] (due_step now cutoff);
  logger INFO ("Found " +:+ pretty (length due) +:+ " content items due within "
               +:+ pretty within_minutes +:+ " minutes");;
  mret due.

(** [start <= scheduled <= end] on the parsed scheduled time, the body of
    the [try] blocks of the range queries. *)
Definition scheduled_between `{IsoFormat} (start end_ : datetime)
    (content : QueuedContent) : result bool :=
  scheduled ← fromisoformat (scheduled_time content);
  dt_between start scheduled end_.

(** The bare [except: continue] drops whatever the [try] block raises. *)
Definition get_content_by_date_range `{IsoFormat} (start end_ : datetime)
    (self : t) : list QueuedContent :=
  foldl (λ in_range content,
           match scheduled_between start end_ content with
           | Ok true => in_range ++ [content]
           | Ok false => in_range
           | Raise _ => in_range
           end)
        [] (queue self).

Definition get_content_by_page (pid : string) (self : t) : list QueuedContent :=
  filter (λ c, page_id c = pid) (queue self).


(** The [dict] is kept with its keys in insertion order. *)
Definition get_daily_schedule `{IsoFormat} (date : datetime) (self : t)
    : list (string * list QueuedContent) :=
  let start := day_start date in
  let end_ := day_end date in
  let day_content := get_content_by_date_range start end_ self in
  foldl (λ by_page content, group_insert (page_id content) content by_page)
        [] day_content.

(** The three loops of [validate_no_same_day_duplicates] for one group:
    the dates that parse, the items per date, the warnings. *)
Definition group_dates `{IsoFormat} `{DateFormat}
    (group_contents : list QueuedContent) : list (string * QueuedContent) :=
  foldl (λ dates content,
           match fromisoformat (scheduled_time content) with
           | Ok scheduled => dates ++ [(strftime_ymd scheduled, content)]
           | Raise _ => dates
           end)
        [] group_contents.

Definition date_counts (dates : list (string * QueuedContent))
    : list (string * list QueuedContent) :=
  foldl (λ counts dc, group_insert dc.1 dc.2 counts) [] dates.

Definition day_warnings (counts : list (string * list QueuedContent))
    : list string :=
  foldl (λ warnings dcs,
           match dcs.2 with
           | c0 :: _ :: _ =>
               warnings ++ [ "WARNING: Duplicate content '" +:+ source_name c0
                             +:+ "' scheduled multiple times on " +:+ dcs.1 ]
           | _ => warnings
           end)
        [] counts.

Definition validate_no_same_day_duplicates `{IsoFormat} `{DateFormat}
    (self : t) : list string :=
  let duplicate_groups :=
    foldl (λ groups content,
             if is_duplicate content && truthy (duplicate_group_id content)
             then group_insert (default "" (duplicate_group_id content))
                               content groups
             else groups)
          [] (queue self) in
  foldl (λ warnings group,
           warnings ++ day_warnings (date_counts (group_dates group.2)))
        [] duplicate_groups.




(** The mutating operations of the class, for statements about sequences
    of calls. *)
Inductive op : Type :=
  | AddContent (content : QueuedContent)
  | AddBatch (contents : list QueuedContent)
  | RescheduleContent (cid : string) (new_time : datetime)
                      (shared : nat → bool)
  | RemoveContent (cid : string)
  | MarkPosted (now : datetime) (content : QueuedContent) (post_id : string).

Definition apply_op `{IsoFormat} (o : op) (self : t) : t :=
  match o with
  | AddContent c => add_content c self
  | AddBatch cs => add_batch cs self
  | RescheduleContent cid new_time shared =>
      (reschedule_content cid new_time shared self).2
  | RemoveContent cid => (remove_content cid self).2
  | MarkPosted now c post_id => mark_posted now c post_id self
  end.

Definition run_ops `{IsoFormat} (ops : list op) (self : t) : t :=
  foldl (λ s o, apply_op o s) self ops.

(** A manager constructed with no queue file and no history file. *)
Definition fresh : t := {| queue := []; posting_history := [] |}.

End UnifiedQueueManager.

(* ===================================================================== *)
(** * social_publisher.py *)
(* ===================================================================== *)

Module SocialMediaPublisher.

Record PublishResult : Type := {
  success : bool;
  platform : string;
  post_id : option string;
  error_message : option string;
  timestamp : string;
  template_name : string
}.

(** One entry of [rate_limits]. *)
Record RateBudget : Type := {
  remaining : Z;
  reset_time : Z
}.

(** One dict of [publishing_history]. *)
Record PublishRecord : Type := {
  r_platform : string;
  r_template_name : string;
  r_post_id : string;
  r_page_id : option string;
  r_timestamp : string
}.

(** ** The outside world: the Graph API, the clock and the file system *)

Inductive request : Type :=
  | GetPageToken (page_id : string) (access_token : option string)
  | PostFeed (page_id message link access_token : string)
  | PostPhoto (page_id message image_path access_token : string)
  | PostThreads (text : string) (image_url : option string)
                (access_token : option string)
  | PostThreadsPublish (container_id : string) (access_token : option string).

(** The part of a JSON answer the code looks at: [data['id']],
    [data['access_token']] and [data['error']['message']]. *)
Record json : Type := {
  json_id : option string;
  json_access_token : option string;
  json_error_message : option string
}.

(** What one [requests] call does: it hands back a body, or the call (or
    [raise_for_status], or [.json()]) raises. *)
Inductive response : Type :=
  | Answer (data : json)
  | Fails (e : exn).

Inductive event : Type :=
  | Sleep (delta : timedelta)
  | Http (r : request).

Record World : Type := {
  clock : Z;                        (* [time.time()] and [datetime.now()] *)
  responses : list response;        (* what the coming HTTP calls will get *)
  trace : list event;               (* what has been done so far *)
  path_exists : string → result bool;
                                    (* [Path(p).exists()], which can raise *)
  can_open : string → bool          (* whether [open(p, 'rb')] succeeds *)
}.

Record t : Type := {
  fb_page_id : option string;
  fb_page_token : option string;
  fb_page_id_cocalc : option string;
  fb_page_id_sagemath : option string;
  page_access_tokens : gmap string string;
  ig_account_id : option string;
  ig_access_token : option string;
  rate_limits : gmap string RateBudget;
  publishing_history : list PublishRecord;
  world : World
}.

Definition set_world (f : World → World) (self : t) : t :=
  {| fb_page_id := fb_page_id self; fb_page_token := fb_page_token self;
     fb_page_id_cocalc := fb_page_id_cocalc self;
     fb_page_id_sagemath := fb_page_id_sagemath self;
     page_access_tokens := page_access_tokens self;
     ig_account_id := ig_account_id self;
     ig_access_token := ig_access_token self;
     rate_limits := rate_limits self;
     publishing_history := publishing_history self;
     world := f (world self) |}.

Definition set_rate_limits (f : gmap string RateBudget → gmap string RateBudget)
    (self : t) : t :=
  {| fb_page_id := fb_page_id self; fb_page_token := fb_page_token self;
     fb_page_id_cocalc := fb_page_id_cocalc self;
     fb_page_id_sagemath := fb_page_id_sagemath self;
     page_access_tokens := page_access_tokens self;
     ig_account_id := ig_account_id self;
     ig_access_token := ig_access_token self;
     rate_limits := f (rate_limits self);
     publishing_history := publishing_history self;
     world := world self |}.

Definition set_page_access_tokens (f : gmap string string → gmap string string)
    (self : t) : t :=
  {| fb_page_id := fb_page_id self; fb_page_token := fb_page_token self;
     fb_page_id_cocalc := fb_page_id_cocalc self;
     fb_page_id_sagemath := fb_page_id_sagemath self;
     page_access_tokens := f (page_access_tokens self);
     ig_account_id := ig_account_id self;
     ig_access_token := ig_access_token self;
     rate_limits := rate_limits self;
     publishing_history := publishing_history self;
     world := world self |}.

Definition set_publishing_history (f : list PublishRecord → list PublishRecord)
    (self : t) : t :=
  {| fb_page_id := fb_page_id self; fb_page_token := fb_page_token self;
     fb_page_id_cocalc := fb_page_id_cocalc self;
     fb_page_id_sagemath := fb_page_id_sagemath self;
     page_access_tokens := page_access_tokens self;
     ig_account_id := ig_account_id self;
     ig_access_token := ig_access_token self;
     rate_limits := rate_limits self;
     publishing_history := f (publishing_history self);
     world := world self |}.

(** [time.time()] *)
Definition time_time : M t Z := gets (λ self, clock (world self)).

(** [datetime.now()] *)
Definition datetime_now : M t datetime :=
  gets (λ self, {| ticks := clock (world self); utcoffset := None |}).

(** [time.sleep(delta)] *)
Definition time_sleep (delta : timedelta) : M t unit :=
  modify (set_world (λ w,
    {| clock := clock w + delta; responses := responses w;
       trace := trace w ++ [Sleep delta];
       path_exists := path_exists w; can_open := can_open w |})).

(** One HTTP exchange: the request is recorded, the next scripted response
    is consumed; with nothing left to answer the connection fails. *)
Definition http (r : request) : M t json :=
  λ self,
    let w := world self in
    let record rs :=
      set_world (λ _, {| clock := clock w; responses := rs;
                         trace := trace w ++ [Http r];
                         path_exists := path_exists w;
                         can_open := can_open w |}) self in
    match responses w with
    | Answer data :: rs => (Ok data, record rs)
    | Fails e :: rs => (Raise e, record rs)
    | [] => (Raise (RequestException "connection error"), record [])
    end.

(** [a or b] on optional strings. *)
Definition py_or (a b : option string) : option string :=
  if truthy a then a else b.

(** How an optional string prints inside an f-string. *)
Definition str_opt (o : option string) : string := default "None" o.

(** The fixed allowance per platform: the dict literal of
    [_check_rate_limit] with its [.get(platform, 100)]. *)
Definition capacity (platform : string) : Z :=
  default 100
    (({[ "facebook" := 200; "instagram" := 50; "threads" := 100 ]}
        : gmap string Z) !! platform).

(** [rate_limits] as [__init__] sets it up at clock reading [now]. *)
Definition initial_rate_limits (now : Z) : gmap string RateBudget :=
  {[ "facebook" := {| remaining := 200; reset_time := now |};
     "instagram" := {| remaining := 50; reset_time := now |};
     "threads" := {| remaining := 100; reset_time := now |} ]}.

Definition _check_rate_limit (platform : string) : M t bool :=
  self ← get;
  match rate_limits self !! platform with
  | None => mret true
  | Some limits =>
      now ← time_time;
      limits ←
        (if reset_time limits <? now then
           now' ← time_time;
           mret {| remaining := capacity platform;
                   reset_time := now' + seconds 3600 |}
         else mret limits);
      if 0 <? remaining limits then
        modify (set_rate_limits
                  <[platform := {| remaining := remaining limits - 1;
                                   reset_time := reset_time limits |}]>);;
        mret true
      else
        modify (set_rate_limits <[platform := limits]>);;
        mret false
  end.

Definition _get_page_access_token (page_id : string) : M t (option string) :=
  self ← get;
  match page_access_tokens self !! page_id with
  | Some token => mret (Some token)
  | None =>
      try_except
        (data ← http (GetPageToken page_id (fb_page_token self));
         match json_access_token data with
         | Some page_token =>
             modify (set_page_access_tokens <[page_id := page_token]>);;
             mret (Some page_token)
         | None => mret None
         end)
        (λ _, mret None)
  end.

(** The dicts [{'success': True, 'post_id': ..}] and
    [{'success': False, 'error': ..}]. *)
Inductive post_outcome : Type :=
  | Posted (post_id : string)
  | NotPosted (error : string).

Definition outcome_of_json (data : json) : post_outcome :=
  match json_id data with
  | Some i => Posted i
  | None => NotPosted (default "Unknown error" (json_error_message data))
  end.

Definition _post_facebook_text (message link : string)
    (page_id : option string) : M t post_outcome :=
  self ← get;
  let target_page_id := str_opt (py_or page_id (fb_page_id self)) in
  page_token ← _get_page_access_token target_page_id;
  if negb (truthy page_token) then
    mret (NotPosted "Failed to get page access token")
  else
    try_except
      (data ← http (PostFeed target_page_id message link (str_opt page_token));
       mret (outcome_of_json data))
      (λ e, if is_RequestException e then mret (NotPosted (str_exn e))
            else raise e).

Definition _post_facebook_photo (message image_path : string)
    (page_id : option string) : M t post_outcome :=
  self ← get;
  let target_page_id := str_opt (py_or page_id (fb_page_id self)) in
  page_token ← _get_page_access_token target_page_id;
  if negb (truthy page_token) then
    mret (NotPosted "Failed to get page access token")
  else
    try_except
      (if can_open (world self) image_path then
         data ← http (PostPhoto target_page_id message image_path
                                (str_opt page_token));
         mret (outcome_of_json data)
       else raise (OSError "No such file or directory"))
      (λ e, mret (NotPosted (str_exn e))).

Definition _record_publish `{IsoFormat} (platform template_name post_id : string)
    (page_id : option string) : M t unit :=
  self ← get;
  now ← datetime_now;
  modify (set_publishing_history (λ h, h ++
    [ {| r_platform := platform; r_template_name := template_name;
         r_post_id := post_id;
         r_page_id := py_or page_id (fb_page_id self);
         r_timestamp := isoformat now |} ])).

(** [PublishResult(success=False, ...)] stamped with the current time. *)
Definition failure `{IsoFormat} (platform : string) (msg : string)
    (template_name : string) : M t PublishResult :=
  now ← datetime_now;
  mret {| success := false; platform := platform; post_id := None;
          error_message := Some msg; timestamp := isoformat now;
          template_name := template_name |}.

Definition succeeded `{IsoFormat} (platform : string) (post_id : string)
    (template_name : string) : M t PublishResult :=
  now ← datetime_now;
  mret {| success := true; platform := platform; post_id := Some post_id;
          error_message := None; timestamp := isoformat now;
          template_name := template_name |}.

(** [image_path and Path(image_path).exists()]: the file system is only
    asked about a path that is not empty, and what it raises (an [OSError]
    such as a refused permission) goes to the caller. *)
Definition image_present (image_path : option string) : M t bool :=
  if truthy image_path then
    self ← get;
    lift_result (path_exists (world self) (str_opt image_path))
  else mret false.

(** The three lines under [# Check rate limits], the same in every
    [publish_to_*]: a refused check only delays the caller. *)
Definition throttle (platform : string) : M t unit :=
  within ← _check_rate_limit platform;
  if negb within then time_sleep (seconds 60) else mret tt.

(** The [try] block of [publish_to_facebook] with its handler. *)
Definition facebook_attempt `{IsoFormat} (content link : string)
    (image_path : option string) (template_name : string)
    (target_page_id : option string) : M t PublishResult :=
  try_except
    (with_photo ← image_present image_path;
     result ← (if (with_photo : bool)
               then _post_facebook_photo content (str_opt image_path)
                                         target_page_id
               else _post_facebook_text content link target_page_id);
     match result with
     | Posted post_id =>
         _record_publish "facebook" template_name post_id target_page_id;;
         succeeded "facebook" post_id template_name
     | NotPosted error => failure "facebook" error template_name
     end)
    (λ e, failure "facebook" (str_exn e) template_name).

Definition publish_to_facebook `{IsoFormat} (content link : string)
    (image_path : option string) (template_name : string)
    (page_id : option string) : M t PublishResult :=
  self ← get;
  let target_page_id := py_or page_id (fb_page_id self) in
  if negb (truthy target_page_id) || negb (truthy (fb_page_token self)) then
    failure "facebook" "Missing credentials" template_name
  else
    throttle "facebook";;
    facebook_attempt content link image_path template_name target_page_id.

(** The [try] block of [publish_to_threads] with its two handlers, which
    build the same result. *)
Definition threads_attempt `{IsoFormat} (content link : string)
    (image_path : option string) (template_name : string) : M t PublishResult :=
  try_except
    (self ← get;
     with_image ← image_present image_path;
     let image_url := if (with_image : bool) then Some link else None in
     data ← http (PostThreads content image_url (fb_page_token self));
     match json_id data with
     | Some container_id =>
         publish_data ← http (PostThreadsPublish container_id
                                                 (fb_page_token self));
         match json_id publish_data with
         | Some post_id =>
             _record_publish "threads" template_name post_id None;;
             succeeded "threads" post_id template_name
         | None =>
             failure "threads" "Failed to publish container" template_name
         end
     | None => failure "threads" "Failed to publish container" template_name
     end)
    (λ e, failure "threads" (str_exn e) template_name).

Definition publish_to_threads `{IsoFormat} (content link : string)
    (image_path : option string) (template_name : string) : M t PublishResult :=
  self ← get;
  if negb (truthy (fb_page_token self)) then
    failure "threads" "Missing credentials" template_name
  else
    throttle "threads";;
    threads_attempt content link image_path template_name.

Definition publish_to_instagram `{IsoFormat} (content : string)
    (image_path : option string) (template_name : string) : M t PublishResult :=
  self ← get;
  if negb (truthy (ig_account_id self)) || negb (truthy (ig_access_token self))
  then failure "instagram" "Missing credentials" template_name
  else
    with_image ← image_present image_path;
    if negb with_image
    then failure "instagram" "Image required for Instagram" template_name
    else
      throttle "instagram";;
      try_except
        (failure "instagram" "Instagram publishing requires image hosting setup"
                 template_name)
        (λ e, failure "instagram" (str_exn e) template_name).

(** [now] is read once; the bare [except: continue] covers the parse and
    the comparison [record_time > cutoff]. *)
Definition get_recently_published `{IsoFormat} (platform : option string)
    (n_days : Z) : M t (list PublishRecord) :=
  now ← datetime_now;
  cutoff ← lift_result (delta ← timedelta_of (days n_days);
                        dt_plus now (- delta));
  self ← get;
  mret (foldl (λ recent record,
                 match (record_time ← fromisoformat (r_timestamp record);
                        dt_lt cutoff record_time) with
                 | Ok true =>
                     if match platform with
                        | None => true
                        | Some p => bool_decide (r_platform record = p)
                        end
                     then recent ++ [record] else recent
                 | Ok false => recent
                 | Raise _ => recent
                 end)
              [] (publishing_history self)).

End SocialMediaPublisher.

(* ===================================================================== *)
(** * smart_scheduler.py *)
(* ===================================================================== *)

Module SmartScheduler.

(** [template_scanner.TemplateMetadata] *)
Record TemplateMetadata : Type := {
  category : string;
  template_name : string;
  tex_file : string;
  pdf_file : option string;
  plot_files : list string;
  title : string;
  author : string;
  abstract : string;
  packages : list string;
  github_url : string;
  cocalc_url : string;
  has_pythontex : bool;
  has_sagetex : bool;
  has_knitr : bool;
  file_size : Z;
  last_modified : string;
  complexity_score : Z
}.

#[export] Instance TemplateMetadata_eq_dec : EqDecision TemplateMetadata.
Proof. solve_decision. Defined.

Record QueuedPost : Type := {
  template : TemplateMetadata;
  platform : string;
  content : string;
  hashtags : list string;
  link : string;
  image_path : option string;
  alt_text : option string;
  scheduled_time : string;
  priority : Z;
  created_at : string
}.

#[export] Instance QueuedPost_eq_dec : EqDecision QueuedPost.
Proof. solve_decision. Defined.

(** [post.scheduled_time = s] *)
Definition set_scheduled_time (s : string) (p : QueuedPost) : QueuedPost :=
  {| template := template p; platform := platform p; content := content p;
     hashtags := hashtags p; link := link p; image_path := image_path p;
     alt_text := alt_text p; scheduled_time := s; priority := priority p;
     created_at := created_at p |}.

(** The three methods of the publisher object the scheduler calls; the
    Facebook one is called without [page_id]. *)
Class Publisher (P : Type) : Type := {
  publish_to_facebook :
    string → string → option string → string
    → M P SocialMediaPublisher.PublishResult;
  publish_to_threads :
    string → string → option string → string
    → M P SocialMediaPublisher.PublishResult;
  publish_to_instagram :
    string → option string → string → M P SocialMediaPublisher.PublishResult
}.

(** [SocialMediaPublisher] as the scheduler's publisher. *)
Definition social_media_publisher `{IsoFormat}
    : Publisher SocialMediaPublisher.t :=
  {| publish_to_facebook content link image_path template_name :=
       SocialMediaPublisher.publish_to_facebook
         content link image_path template_name None;
     publish_to_threads := SocialMediaPublisher.publish_to_threads;
     publish_to_instagram := SocialMediaPublisher.publish_to_instagram |}.

(** A reference to a [QueuedPost] object.  The queue and the list
    [get_posts_due] returns hold references to the same objects, which
    [_reschedule_post] mutates in place. *)
Abbreviation loc := nat.

Record t (P : Type) : Type := {
  queue : list loc;
  heap : loc → QueuedPost;                         (* the object behind each reference *)
  recent_templates : gmap string (list string);
  templates : list (string * list TemplateMetadata);  (* [scanner.templates] *)
  clock : Z;                                       (* [datetime.now()] *)
  publisher : P
}.
Arguments queue {P} _.
Arguments heap {P} _.
Arguments recent_templates {P} _.
Arguments templates {P} _.
Arguments clock {P} _.
Arguments publisher {P} _.

Section scheduler.
Context {P : Type} `{!Publisher P} `{!IsoFormat}.

Definition set_queue (f : list loc → list loc) (self : t P) : t P :=
  {| queue := f (queue self); heap := heap self;
     recent_templates := recent_templates self;
     templates := templates self; clock := clock self;
     publisher := publisher self |}.

Definition set_heap (f : (loc → QueuedPost) → (loc → QueuedPost))
    (self : t P) : t P :=
  {| queue := queue self; heap := f (heap self);
     recent_templates := recent_templates self;
     templates := templates self; clock := clock self;
     publisher := publisher self |}.

Definition set_recent_templates
    (f : gmap string (list string) → gmap string (list string))
    (self : t P) : t P :=
  {| queue := queue self; heap := heap self;
     recent_templates := f (recent_templates self);
     templates := templates self; clock := clock self;
     publisher := publisher self |}.

Definition set_publisher (p : P) (self : t P) : t P :=
  {| queue := queue self; heap := heap self;
     recent_templates := recent_templates self;
     templates := templates self; clock := clock self;
     publisher := p |}.

(** A call on [self.publisher]. *)
Definition on_publisher {A} (m : M P A) : M (t P) A :=
  zoom publisher set_publisher m.






(** [random.choice(l) if l else None]; [draw] is what the generator
    yields. *)
Definition random_choice {A} (draw : nat) (l : list A) : option A :=
  l !! (draw `mod` length l)%nat.




Definition _reschedule_post (post : loc) : M (t P) unit :=
  try_except
    (p ← gets (λ self, heap self post);
     old_time ← lift_result (fromisoformat (scheduled_time p));
     new_time ← lift_result (delta ← timedelta_of (hours 1);
                             dt_plus old_time delta);
     modify (set_heap
               <[post := set_scheduled_time (isoformat new_time) p]>))
    (λ _, mret tt).

(** The tail of [publish_post] once a [PublishResult] is there. *)
Definition after_publish (post : loc)
    (result : SocialMediaPublisher.PublishResult) : M (t P) bool :=
  if SocialMediaPublisher.success result then
    self ← get;
    modify (set_queue (filter (λ p, heap self p ≠ heap self post)));;
    mret true
  else
    _reschedule_post post;;
    mret false.

Definition publish_post (post : loc) : M (t P) bool :=
  try_except
    (p ← gets (λ self, heap self post);
     if decide (platform p = "facebook") then
       result ← on_publisher
         (publish_to_facebook (content p) (link p) (image_path p)
                              (template_name (template p)));
       after_publish post result
     else if decide (platform p = "threads") then
       result ← on_publisher
         (publish_to_threads (content p) (link p) (image_path p)
                             (template_name (template p)));
       after_publish post result
     else if decide (platform p = "instagram") then
       if negb (truthy (image_path p)) then mret false
       else
         result ← on_publisher
           (publish_to_instagram (content p) (image_path p)
                                 (template_name (template p)));
         after_publish post result
     else mret false)
    (λ _, _reschedule_post post;; mret false).

(** The body of the loop of [get_posts_due]; the bare [except] skips the
    post. *)
Definition posts_due_step (now cutoff : datetime)
    (due_posts : list loc) (post : loc) : M (t P) (list loc) :=
  try_except
    (p ← gets (λ self, heap self post);
     scheduled ← lift_result (fromisoformat (scheduled_time p));
     lo ← lift_result (dt_le now scheduled);
     if (lo : bool) then
       hi ← lift_result (dt_le scheduled cutoff);
       mret (if (hi : bool) then due_posts ++ [post] else due_posts)
     else mret due_posts)
    (λ _, mret due_posts).

Definition get_posts_due (within_minutes : Z) : M (t P) (list loc) :=
  self ← get;
  let now := {| ticks := clock self; utcoffset := None |} in
  cutoff ← lift_result (delta ← timedelta_of (minutes within_minutes);
                        dt_plus now delta);
  fold_for (queue self) [] (posts_due_step now cutoff).

(** [lambda x: (x.scheduled_time, -x.priority)] *)
Definition sort_key (x : QueuedPost) : string * Z :=
  (scheduled_time x, - priority x).

(** The posts are objects the caller has built: references into the
    heap. *)
Definition add_to_queue (posts : list loc) : M (t P) unit :=
  modify (set_queue (λ q, q ++ posts));;
  self ← get;
  modify (set_queue
            (stable_sort (λ x y, tuple_ltb (sort_key (heap self x))
                                           (sort_key (heap self y))))).

(** [check_and_publish], the closure [run_scheduler_loop] hands to
    [schedule]: the list of due posts is built first, then gone through. *)
Definition check_and_publish : M (t P) unit :=
  due_posts ← get_posts_due 1;
  for_each due_posts (λ post, publish_post post;; mret tt).

End scheduler.

Definition _calculate_priority (template : TemplateMetadata)
    (platform : string) : Z :=
  let priority := 5 in
  let priority :=
    if 4 <=? complexity_score template then priority + 2
    else if 3 <=? complexity_score template then priority + 1
    else priority in
  let priority :=
    if bool_decide (plot_files template ≠ [])
       && (0 <? Z.of_nat (length (plot_files template)))
    then priority + 1 else priority in
  let priority :=
    if has_pythontex template || has_sagetex template then priority + 1
    else priority in
  let priority :=
    if bool_decide (platform = "instagram")
       && bool_decide (plot_files template ≠ [])
    then priority + 1 else priority in
  Z.min priority 10.

(** One turn of the loop of [_load_recent_templates] on
    [self.recent_templates]. *)
Definition remember_template (platform template_name : string)
    (recent : gmap string (list string)) : gmap string (list string) :=
  let recent :=
    match recent !! platform with
    | None => <[platform := []]> recent
    | Some _ => recent
    end in
  let names := default [] (recent !! platform) in
  if bool_decide (template_name ∈ names) then recent
  else <[platform := names ++ [template_name]]> recent.

(** [_load_recent_templates], on the publisher the scheduler is built
    with. *)
Definition _load_recent_templates `{IsoFormat}
    : M (t SocialMediaPublisher.t) unit :=
  history ← on_publisher
    (SocialMediaPublisher.get_recently_published None 60);
  for_each history
    (λ record,
       let platform := SocialMediaPublisher.r_platform record in
       let template_name := SocialMediaPublisher.r_template_name record in
       if negb (String.eqb platform "") && negb (String.eqb template_name "")
       then modify (set_recent_templates
                      (remember_template platform template_name))
       else mret tt).

End SmartScheduler.

(* ===================================================================== *)
(** * enhanced_scheduler.py: spreading duplicates *)
(* ===================================================================== *)

Module EnhancedScheduler.
Import UnifiedQueueManager.

(** The part of the scheduler [_handle_duplicate_spreading] reads. *)
Record t : Type := { duplicate_handler : DuplicateContentHandler.t }.

(** The first loop: the dict of groups, keys in the order of their first
    item, and the items that belong to no group. *)
Definition split_duplicates (content_items : list QueuedContent)
    : list (string * list QueuedContent) * list QueuedContent :=
  foldl (λ acc item,
           let '(duplicate_groups, non_duplicates) := acc in
           if is_duplicate item && truthy (duplicate_group_id item)
           then (group_insert (default "" (duplicate_group_id item)) item
                              duplicate_groups,
                 non_duplicates)
           else (duplicate_groups, non_duplicates ++ [item]))
        ([], []) content_items.

(** [for i in range(1, len(group_items))], from some [i] on: [prev] is
    [group_items[i-1]] as the turn before left it, [rest] is
    [group_items[i:]].  Nothing catches what [fromisoformat], the
    subtraction or the addition raise. *)
Fixpoint spread_from `{IsoFormat} (min_gap : timedelta) (prev : QueuedContent)
    (rest : list QueuedContent) : result (list QueuedContent) :=
  match rest with
  | [] => Ok []
  | curr :: rest =>
      prev_time ← fromisoformat (scheduled_time prev);
      curr_time ← fromisoformat (scheduled_time curr);
      delta ← dt_sub curr_time prev_time;
      curr ← (if delta <? min_gap then
                new_time ← dt_plus prev_time min_gap;
                Ok (set_scheduled_time (isoformat new_time) curr)
              else Ok curr);
      rest ← spread_from min_gap curr rest;
      Ok (curr :: rest)
  end.

(** The body of [for group_id, group_items in duplicate_groups.items()]
    up to the [extend]. *)
Definition spread_group `{IsoFormat} (self : t)
    (group_items : list QueuedContent) : result (list QueuedContent) :=
  let group_items :=
    stable_sort (λ x y, String.ltb (scheduled_time x) (scheduled_time y))
                group_items in
  min_gap ← timedelta_of (days (DuplicateContentHandler.min_day_gap
                                  (duplicate_handler self)));
  match group_items with
  | [] => Ok []
  | first :: rest =>
      rest ← spread_from min_gap first rest;
      Ok (first :: rest)
  end.

Definition _handle_duplicate_spreading `{IsoFormat} (self : t)
    (content_items : list QueuedContent) : result (list QueuedContent) :=
  let '(duplicate_groups, non_duplicates) := split_duplicates content_items in
  let adjusted_items := non_duplicates in
  groups ← mapM (λ group, spread_group self group.2) duplicate_groups;
  Ok (adjusted_items ++ concat groups).

End EnhancedScheduler.

(* ===================================================================== *)
(** * A codec for the strings [isoformat()] writes

    [YYYY-MM-DDTHH:MM:SS] and [YYYY-MM-DDTHH:MM:SS.ffffff] for naive
    datetimes, with the calendar arithmetic of CPython's [datetime.py]
    ([_ymd2ord], [_ord2ymd]).  The standard library reads more strings than
    these; the instance serves to run the definitions on concrete queues. *)
(* ===================================================================== *)

Module Iso8601.

Definition is_leap (year : Z) : bool :=
  (year mod 4 =? 0) && (negb (year mod 100 =? 0) || (year mod 400 =? 0)).

Definition days_in_month (year month : Z) : Z :=
  if (month =? 2) && is_leap year then 29
  else nth (Z.to_nat month) [0; 31; 28; 31; 30; 31; 30; 31; 31; 30; 31; 30; 31] 0.

Definition days_before_month (year month : Z) : Z :=
  nth (Z.to_nat month) [0; 0; 31; 59; 90; 120; 151; 181; 212; 243; 273; 304; 334] 0
  + (if (2 <? month) && is_leap year then 1 else 0).

Definition days_before_year (year : Z) : Z :=
  let y := year - 1 in y * 365 + y / 4 - y / 100 + y / 400.

Definition ymd2ord (year month day : Z) : Z :=
  days_before_year year + days_before_month year month + day.

Definition ord2ymd (n : Z) : Z * Z * Z :=
  let n := n - 1 in
  let n400 := n / 146097 in let n := n mod 146097 in
  let year := n400 * 400 + 1 in
  let n100 := n / 36524 in let n := n mod 36524 in
  let n4 := n / 1461 in let n := n mod 1461 in
  let n1 := n / 365 in let n := n mod 365 in
  let year := year + n100 * 100 + n4 * 4 + n1 in
  if (n1 =? 4) || (n100 =? 4) then (year - 1, 12, 31)
  else
    let leapyear := (n1 =? 3) && (negb (n4 =? 24) || (n100 =? 3)) in
    let before m :=
      nth (Z.to_nat m) [0; 0; 31; 59; 90; 120; 151; 181; 212; 243; 273; 304; 334] 0
      + (if (2 <? m) && leapyear then 1 else 0) in
    let month := (n + 50) / 32 in
    let month := if n <? before month then month - 1 else month in
    (year, month, n - before month + 1).

Definition digit (c : ascii) : option Z :=
  let n := Z.of_N (Ascii.N_of_ascii c) in
  if (48 <=? n) && (n <=? 57) then Some (n - 48) else None.

Fixpoint take_digits (k : nat) (acc : Z) (s : string) : option (Z * string) :=
  match k with
  | O => Some (acc, s)
  | S k' =>
      match s with
      | String c s' => d ← digit c; take_digits k' (acc * 10 + d) s'
      | EmptyString => None
      end
  end.

Definition expect (c : ascii) (s : string) : option string :=
  match s with
  | String c' s' => if decide (c = c') then Some s' else None
  | EmptyString => None
  end.

Definition parse_fraction (s : string) : option Z :=
  match s with
  | EmptyString => Some 0
  | _ => s ← expect "." s; '(us, s) ← take_digits 6 0 s;
         if decide (s = "") then Some us else None
  end.

Definition parse (s : string) : option datetime :=
  '(year, s) ← take_digits 4 0 s; s ← expect "-" s;
  '(month, s) ← take_digits 2 0 s; s ← expect "-" s;
  '(day, s) ← take_digits 2 0 s; s ← expect "T" s;
  '(hour, s) ← take_digits 2 0 s; s ← expect ":" s;
  '(minute, s) ← take_digits 2 0 s; s ← expect ":" s;
  '(second, s) ← take_digits 2 0 s;
  us ← parse_fraction s;
  if (1 <=? year) && (1 <=? month) && (month <=? 12) && (1 <=? day)
     && (day <=? days_in_month year month)
     && (hour <? 24) && (minute <? 60) && (second <? 60)
  then Some {| ticks := seconds (((ymd2ord year month day - 1) * 24 + hour) * 3600
                                 + minute * 60 + second) + us;
               utcoffset := None |}
  else None.

(** [n] in decimal, padded with zeros to [width] digits. *)
Definition pad (width : nat) (n : Z) : string :=
  let s := pretty (Z.to_N n) in
  String.app (string_of_list_ascii
                (replicate (width - String.length s) "0"%char)) s.

Definition print (d : datetime) : string :=
  let us := ticks d mod 1000000 in
  let secs := ticks d / 1000000 in
  let '(year, month, day) := ord2ymd (secs / 86400 + 1) in
  let sod := secs mod 86400 in
  pad 4 year +:+ "-" +:+ pad 2 month +:+ "-" +:+ pad 2 day +:+ "T"
  +:+ pad 2 (sod / 3600) +:+ ":" +:+ pad 2 (sod mod 3600 / 60) +:+ ":"
  +:+ pad 2 (sod mod 60)
  +:+ (if us =? 0 then "" else "." +:+ pad 6 us).

Definition codec : IsoFormat :=
  {| fromisoformat s :=
       match parse s with
       | Some d => Ok d
       | None => Raise (ValueError ("Invalid isoformat string: " +:+ s))
       end;
     isoformat := print |}.

End Iso8601.

(* ===================================================================== *)
(** * Vocabulary of the properties *)
(* ===================================================================== *)

(** [x] may stand before [y] in a list sorted with [before]. *)
Definition may_precede {A} (before : A → A → bool) (x y : A) : Prop :=
  before y x = false.

(** The entry [schedule_duplicate_content] appends at index [i] for
    [route]. *)
Definition staggered_entry (self : DuplicateContentHandler.t)
    (base_time : datetime) (i : nat) (route : PageRouter.PageRoute)
    : DuplicateContentHandler.ScheduleEntry :=
  {| DuplicateContentHandler.entry_page_id := PageRouter.page_id route;
     DuplicateContentHandler.entry_page_name := PageRouter.page_name route;
     DuplicateContentHandler.scheduled_time :=
       dt_add base_time
              (days (Z.of_nat i * DuplicateContentHandler.min_day_gap self));
     DuplicateContentHandler.is_original := Some (Z.of_nat i =? 0) |}.

(** The order in which [UnifiedQueueManager] keeps its queue: scheduled
    times do not decrease (as the ISO strings they are, compared the way
    Python compares [str]), and entries with one scheduled time come by
    non-increasing priority. *)
Definition queue_order (x y : UnifiedQueueManager.QueuedContent) : Prop :=
  String.le (UnifiedQueueManager.scheduled_time x)
            (UnifiedQueueManager.scheduled_time y)
  ∧ (UnifiedQueueManager.scheduled_time x = UnifiedQueueManager.scheduled_time y
     → (UnifiedQueueManager.priority y ≤ UnifiedQueueManager.priority x)%Z).

Definition queue_sorted (q : list UnifiedQueueManager.QueuedContent) : Prop :=
  StronglySorted queue_order q.

(** [content] is due at clock reading [now] within [w] minutes: its
    scheduled time parses, to a naive datetime like [datetime.now()], and
    lies in [[now, now + w]]. *)
Definition is_due `{IsoFormat} (now w : Z)
    (content : UnifiedQueueManager.QueuedContent) : Prop :=
  match fromisoformat (UnifiedQueueManager.scheduled_time content) with
  | Ok {| ticks := tk; utcoffset := None |} =>
      (now ≤ tk ∧ tk ≤ now + minutes w)%Z
  | _ => False
  end.

#[export] Instance is_due_dec `{IsoFormat} now w content :
  Decision (is_due now w content).
Proof.
  unfold is_due.
  destruct (fromisoformat _) as [[tk [o|]]|e]; apply _.
Defined.

(** The exception [get_due_content] meets on [content], if any: the one
    [fromisoformat] raises, or the [TypeError] of comparing the naive
    [datetime.now()] with an aware datetime. *)
Definition due_error `{IsoFormat}
    (content : UnifiedQueueManager.QueuedContent) : option exn :=
  match fromisoformat (UnifiedQueueManager.scheduled_time content) with
  | Raise e => Some e
  | Ok {| ticks := _; utcoffset := Some _ |} =>
      Some (TypeError "can't compare offset-naive and offset-aware datetimes")
  | Ok _ => None
  end.

Definition due_error_log `{IsoFormat}
    (content : UnifiedQueueManager.QueuedContent)
    : option (UnifiedQueueManager.level * string) :=
  e ← due_error content;
  Some (UnifiedQueueManager.ERROR,
        "Error parsing scheduled time: " +:+ str_exn e).

(** The day [validate_no_same_day_duplicates] files [content] under: the
    ['%Y-%m-%d'] rendering of its scheduled time, if that parses. *)
Definition scheduled_day `{IsoFormat} `{DateFormat}
    (content : UnifiedQueueManager.QueuedContent) : option string :=
  match fromisoformat (UnifiedQueueManager.scheduled_time content) with
  | Ok scheduled => Some (strftime_ymd scheduled)
  | Raise _ => None
  end.

(** The queued items flagged as duplicates that carry the group id [g]
    and are filed under [day]. *)
Definition same_day_members `{IsoFormat} `{DateFormat} (g day : string)
    (self : UnifiedQueueManager.t) : list UnifiedQueueManager.QueuedContent :=
  filter (λ c, UnifiedQueueManager.is_duplicate c = true
               ∧ UnifiedQueueManager.duplicate_group_id c = Some g
               ∧ g ≠ ""
               ∧ scheduled_day c = Some day)
         (UnifiedQueueManager.queue self).


(** [item] belongs to a duplicate group, as [_handle_duplicate_spreading]
    tests it. *)
Definition in_duplicate_group (item : UnifiedQueueManager.QueuedContent)
    : Prop :=
  UnifiedQueueManager.is_duplicate item
  && truthy (UnifiedQueueManager.duplicate_group_id item) = true.




(** [d + timedelta(...)] for a duration of [delta] microseconds is
    defined: the duration is one a [timedelta] holds and the sum a time a
    [datetime] holds.  Otherwise Python raises [OverflowError]. *)
Definition can_add (d : datetime) (delta : Z) : Prop :=
  (-999999999 ≤ delta / 86400000000 ≤ 999999999)%Z
  ∧ (0 ≤ ticks d + delta ≤ max_ticks)%Z.

#[export] Instance can_add_dec d delta : Decision (can_add d delta).
Proof. unfold can_add. apply _. Defined.

(** [d - timedelta(...)] for a duration of [delta] microseconds is
    defined, in the same way. *)
Definition can_sub (d : datetime) (delta : Z) : Prop :=
  (-999999999 ≤ delta / 86400000000 ≤ 999999999)%Z
  ∧ (0 ≤ ticks d - delta ≤ max_ticks)%Z.

#[export] Instance can_sub_dec d delta : Decision (can_sub d delta).
Proof. unfold can_sub. apply _. Defined.

(** The call raised [OverflowError]. *)
Definition overflows {A} (r : result A) : Prop :=
  ∃ msg, r = Raise (OverflowError msg).

(** Staggering [n] pages from [base_time] stays within what Python can
    represent: each of the [n - 1] times the loop of
    [schedule_duplicate_content] adds the gap to the time of the page
    before, the sum is defined. *)
Definition staggering_fits (self : DuplicateContentHandler.t)
    (base_time : datetime) (n : nat) : Prop :=
  Forall (λ k : nat,
            can_add (dt_add base_time
                       (days (Z.of_nat k
                              * DuplicateContentHandler.min_day_gap self)))
                    (days (DuplicateContentHandler.min_day_gap self)))
         (seq 0 (n - 1)).

#[export] Instance staggering_fits_dec self base_time n :
  Decision (staggering_fits self base_time n).
Proof. unfold staggering_fits. apply _. Defined.

(** The content ids in the queue and in the posting history. *)
Definition queue_ids (self : UnifiedQueueManager.t) : list string :=
  UnifiedQueueManager.content_id <$> UnifiedQueueManager.queue self.

Definition history_ids (self : UnifiedQueueManager.t) : list string :=
  UnifiedQueueManager.h_content_id <$> UnifiedQueueManager.posting_history self.

(** No two queue entries share a content id. *)
Definition unique_ids (self : UnifiedQueueManager.t) : Prop :=
  NoDup (queue_ids self).

(** No content id is both queued and recorded as posted. *)
Definition exclusive (self : UnifiedQueueManager.t) : Prop :=
  ∀ cid, cid ∈ queue_ids self → cid ∉ history_ids self.

(** ** Rate limiter: calls at given clock readings *)

Definition set_clock (now : Z) (self : SocialMediaPublisher.t)
    : SocialMediaPublisher.t :=
  SocialMediaPublisher.set_world
    (λ w, {| SocialMediaPublisher.clock := now;
             SocialMediaPublisher.responses := SocialMediaPublisher.responses w;
             SocialMediaPublisher.trace := SocialMediaPublisher.trace w;
             SocialMediaPublisher.path_exists := SocialMediaPublisher.path_exists w;
             SocialMediaPublisher.can_open := SocialMediaPublisher.can_open w |})
    self.

(** [_check_rate_limit(platform)] called when the clock reads [now]. *)
Definition check_at (platform : string) (now : Z)
    : M SocialMediaPublisher.t bool :=
  modify (set_clock now);; SocialMediaPublisher._check_rate_limit platform.

(** One call per clock reading, in order. *)
Fixpoint check_all (platform : string) (times : list Z)
    : M SocialMediaPublisher.t (list bool) :=
  match times with
  | [] => mret []
  | now :: times =>
      within ← check_at platform now;
      rest ← check_all platform times;
      mret (within :: rest)
  end.

(** What [n] calls return on an allowance of [r]: the first [r] pass, the
    others are refused. *)
Definition allowance_results (r : Z) (n : nat) : list bool :=
  replicate (n `min` Z.to_nat r) true ++ replicate (n - Z.to_nat r) false.

(** The budget a call of [_check_rate_limit] sees once the window test is
    done, and the budget it leaves. *)
Definition refreshed (platform : string) (now : Z)
    (b : SocialMediaPublisher.RateBudget) : SocialMediaPublisher.RateBudget :=
  if (SocialMediaPublisher.reset_time b <? now)%Z
  then {| SocialMediaPublisher.remaining := SocialMediaPublisher.capacity platform;
          SocialMediaPublisher.reset_time := (now + seconds 3600)%Z |}
  else b.

Definition consumed (b : SocialMediaPublisher.RateBudget)
    : SocialMediaPublisher.RateBudget :=
  if (0 <? SocialMediaPublisher.remaining b)%Z
  then {| SocialMediaPublisher.remaining := (SocialMediaPublisher.remaining b - 1)%Z;
          SocialMediaPublisher.reset_time := SocialMediaPublisher.reset_time b |}
  else b.

(** The budget of [platform] is used up and its window still open. *)
Definition exhausted (platform : string) (self : SocialMediaPublisher.t)
    : Prop :=
  ∃ b, SocialMediaPublisher.rate_limits self !! platform = Some b
       ∧ (SocialMediaPublisher.remaining b ≤ 0)%Z
       ∧ (SocialMediaPublisher.clock (SocialMediaPublisher.world self)
          ≤ SocialMediaPublisher.reset_time b)%Z.

(** [self'] has the rate budgets, the clock and the Facebook credentials
    of [self]: what a publish attempt leaves alone. *)
Definition same_budget (self self' : SocialMediaPublisher.t) : Prop :=
  SocialMediaPublisher.rate_limits self' = SocialMediaPublisher.rate_limits self
  ∧ SocialMediaPublisher.clock (SocialMediaPublisher.world self')
    = SocialMediaPublisher.clock (SocialMediaPublisher.world self)
  ∧ SocialMediaPublisher.fb_page_id self' = SocialMediaPublisher.fb_page_id self
  ∧ SocialMediaPublisher.fb_page_token self'
    = SocialMediaPublisher.fb_page_token self.

Definition keeps_budget {A} (m : M SocialMediaPublisher.t A) : Prop :=
  ∀ self, same_budget self (m self).2.

(** The publisher with one request of [platform] taken off its budget. *)
Definition spent_one (platform : string) (self : SocialMediaPublisher.t)
    : SocialMediaPublisher.t :=
  SocialMediaPublisher.set_rate_limits
    (λ limits,
       match limits !! platform with
       | Some b =>
           <[platform := {| SocialMediaPublisher.remaining :=
                              (SocialMediaPublisher.remaining b - 1)%Z;
                            SocialMediaPublisher.reset_time :=
                              SocialMediaPublisher.reset_time b |}]> limits
       | None => limits
       end)
    self.

(** The publisher after the 60 seconds [throttle] makes it wait. *)
Definition delayed (self : SocialMediaPublisher.t) : SocialMediaPublisher.t :=
  (SocialMediaPublisher.time_sleep (seconds 60) self).2.

(** [n] publish attempts in a row on a Facebook allowance of [r]: while
    the allowance lasts an attempt takes one request off it, afterwards an
    attempt is only preceded by the 60 seconds wait. *)
Fixpoint attempts_on_allowance {A} (r n : nat)
    (attempt : M SocialMediaPublisher.t A) : M SocialMediaPublisher.t (list A) :=
  match n with
  | O => mret []
  | S n' =>
      modify (match r with
              | O => delayed
              | S _ => spent_one "facebook"
              end);;
      a ← attempt;
      rest ← attempts_on_allowance (pred r) n' attempt;
      mret (a :: rest)
  end.

(** [n] calls in a row. *)
Fixpoint repeat_call {S A} (n : nat) (m : M S A) : M S (list A) :=
  match n with
  | O => mret []
  | S n' => a ← m; rest ← repeat_call n' m; mret (a :: rest)
  end.

(** Why [publish_to_instagram] fails: the message of the result it
    returns, or the exception that looking for the image file raises. *)
Definition instagram_failure (self : SocialMediaPublisher.t)
    (image_path : option string) : result string :=
  if negb (truthy (SocialMediaPublisher.ig_account_id self))
     || negb (truthy (SocialMediaPublisher.ig_access_token self))
  then Ok "Missing credentials"
  else if negb (truthy image_path)
  then Ok "Image required for Instagram"
  else
    match SocialMediaPublisher.path_exists (SocialMediaPublisher.world self)
                                           (SocialMediaPublisher.str_opt image_path) with
    | Ok false => Ok "Image required for Instagram"
    | Ok true => Ok "Instagram publishing requires image hosting setup"
    | Raise e => Raise e
    end.

(** [self'] has the publishing history of [self], and its rate budgets,
    clock and Facebook credentials: what talking to the Graph API leaves
    alone. *)
Definition same_history (self self' : SocialMediaPublisher.t) : Prop :=
  SocialMediaPublisher.publishing_history self'
  = SocialMediaPublisher.publishing_history self
  ∧ same_budget self self'.

(** Whatever [m] returns or raises, the state it leaves is related to the
    one it started from. *)
Definition preserves {S A} (R : S → S → Prop) (m : M S A) : Prop :=
  ∀ s, R s (m s).2.

(** Every tracked budget lies between zero and the platform's allowance. *)
Definition budget_ok (self : SocialMediaPublisher.t) : Prop :=
  ∀ platform b,
    SocialMediaPublisher.rate_limits self !! platform = Some b →
    (0 ≤ SocialMediaPublisher.remaining b
     ≤ SocialMediaPublisher.capacity platform)%Z.

(** What a [publish_to_*] call that took the publisher from [self] to
    [self'] reports in [r]: the platform, the template and the time of the
    report; a result with a post id is a success and has appended exactly
    one history record, for that platform, template, id and [page]; a
    result without is a failure, carries a message and has left the
    history as it was. *)
Definition consistent_outcome `{IsoFormat} (platform template_name : string)
    (page : option string) (self self' : SocialMediaPublisher.t)
    (r : SocialMediaPublisher.PublishResult) : Prop :=
  SocialMediaPublisher.platform r = platform
  ∧ SocialMediaPublisher.template_name r = template_name
  ∧ SocialMediaPublisher.timestamp r
    = isoformat {| ticks := SocialMediaPublisher.clock
                              (SocialMediaPublisher.world self');
                   utcoffset := None |}
  ∧ match SocialMediaPublisher.post_id r with
    | Some pid =>
        SocialMediaPublisher.success r = true
        ∧ SocialMediaPublisher.error_message r = None
        ∧ ∃ record,
            SocialMediaPublisher.publishing_history self'
            = SocialMediaPublisher.publishing_history self ++ [record]
            ∧ SocialMediaPublisher.r_platform record = platform
            ∧ SocialMediaPublisher.r_template_name record = template_name
            ∧ SocialMediaPublisher.r_post_id record = pid
            ∧ SocialMediaPublisher.r_page_id record = page
    | None =>
        SocialMediaPublisher.success r = false
        ∧ is_Some (SocialMediaPublisher.error_message r)
        ∧ SocialMediaPublisher.publishing_history self'
          = SocialMediaPublisher.publishing_history self
    end.

(** [record] is younger than [n_days] at clock reading [now], as
    [get_recently_published] tests it: its timestamp parses, to a naive
    datetime, later than [now - n_days]. *)
Definition is_recent `{IsoFormat} (now n_days : Z)
    (record : SocialMediaPublisher.PublishRecord) : Prop :=
  match fromisoformat (SocialMediaPublisher.r_timestamp record) with
  | Ok {| ticks := tk; utcoffset := None |} => (now - days n_days < tk)%Z
  | _ => False
  end.

#[export] Instance is_recent_dec `{IsoFormat} now n_days record :
  Decision (is_recent now n_days record).
Proof.
  unfold is_recent.
  destruct (fromisoformat _) as [[tk [o|]]|e]; apply _.
Defined.

(** ** The dispatcher *)

(** The call [publish_post] makes on its publisher for post [p]. *)
Definition publisher_call {P} `{!SmartScheduler.Publisher P}
    (p : SmartScheduler.QueuedPost) : M P SocialMediaPublisher.PublishResult :=
  if decide (SmartScheduler.platform p = "facebook") then
    SmartScheduler.publish_to_facebook
      (SmartScheduler.content p) (SmartScheduler.link p)
      (SmartScheduler.image_path p)
      (SmartScheduler.template_name (SmartScheduler.template p))
  else if decide (SmartScheduler.platform p = "threads") then
    SmartScheduler.publish_to_threads
      (SmartScheduler.content p) (SmartScheduler.link p)
      (SmartScheduler.image_path p)
      (SmartScheduler.template_name (SmartScheduler.template p))
  else
    SmartScheduler.publish_to_instagram
      (SmartScheduler.content p) (SmartScheduler.image_path p)
      (SmartScheduler.template_name (SmartScheduler.template p)).

(** [publish_post] gets as far as calling the publisher for [p]. *)
Definition publishable (p : SmartScheduler.QueuedPost) : Prop :=
  SmartScheduler.platform p = "facebook"
  ∨ SmartScheduler.platform p = "threads"
  ∨ (SmartScheduler.platform p = "instagram"
     ∧ truthy (SmartScheduler.image_path p) = true).

(** The publish failed: the result reports failure, or the call raised. *)
Definition publish_failed
    (outcome : result SocialMediaPublisher.PublishResult) : Prop :=
  match outcome with
  | Ok r => SocialMediaPublisher.success r = false
  | Raise _ => True
  end.

(** The post [p] is due at clock reading [now] within [w] minutes, as
    [get_posts_due] tests it: its scheduled time parses, to a naive
    datetime in [[now, now + w]]. *)
Definition post_due `{IsoFormat} (now w : Z) (p : SmartScheduler.QueuedPost)
    : Prop :=
  match fromisoformat (SmartScheduler.scheduled_time p) with
  | Ok {| ticks := tk; utcoffset := None |} =>
      (now ≤ tk ∧ tk ≤ now + minutes w)%Z
  | _ => False
  end.

#[export] Instance post_due_dec `{IsoFormat} now w p :
  Decision (post_due now w p).
Proof.
  unfold post_due.
  destruct (fromisoformat _) as [[tk [o|]]|e]; apply _.
Defined.

(** The order [add_to_queue] sorts by, on the objects behind the
    references. *)
Definition post_order (x y : SmartScheduler.QueuedPost) : Prop :=
  String.le (SmartScheduler.scheduled_time x) (SmartScheduler.scheduled_time y)
  ∧ (SmartScheduler.scheduled_time x = SmartScheduler.scheduled_time y
     → (SmartScheduler.priority y ≤ SmartScheduler.priority x)%Z).

(** [p'] is [p] but for its scheduled time. *)
Definition same_but_scheduled_time (p p' : SmartScheduler.QueuedPost) : Prop :=
  SmartScheduler.template p' = SmartScheduler.template p
  ∧ SmartScheduler.platform p' = SmartScheduler.platform p
  ∧ SmartScheduler.content p' = SmartScheduler.content p
  ∧ SmartScheduler.hashtags p' = SmartScheduler.hashtags p
  ∧ SmartScheduler.link p' = SmartScheduler.link p
  ∧ SmartScheduler.image_path p' = SmartScheduler.image_path p
  ∧ SmartScheduler.alt_text p' = SmartScheduler.alt_text p
  ∧ SmartScheduler.priority p' = SmartScheduler.priority p
  ∧ SmartScheduler.created_at p' = SmartScheduler.created_at p.

(** What dispatching the posts [touched] may change of a scheduler: posts
    leave the queue, none enters it and the order stays; no post outside
    [touched] changes, and a post in [touched] changes at most its
    scheduled time; the publisher is not constrained. *)
Definition dispatched {P} (touched : list SmartScheduler.loc)
    (self self' : SmartScheduler.t P) : Prop :=
  SmartScheduler.queue self' `sublist_of` SmartScheduler.queue self
  ∧ SmartScheduler.recent_templates self' = SmartScheduler.recent_templates self
  ∧ SmartScheduler.templates self' = SmartScheduler.templates self
  ∧ (∀ l, l ∉ touched → SmartScheduler.heap self' l = SmartScheduler.heap self l)
  ∧ (∀ l, same_but_scheduled_time (SmartScheduler.heap self l)
                                  (SmartScheduler.heap self' l)).

(** The scheduler when its clock reads [now]. *)
Definition scheduler_at {P} (now : Z) (self : SmartScheduler.t P)
    : SmartScheduler.t P :=
  {| SmartScheduler.queue := SmartScheduler.queue self;
     SmartScheduler.heap := SmartScheduler.heap self;
     SmartScheduler.recent_templates := SmartScheduler.recent_templates self;
     SmartScheduler.templates := SmartScheduler.templates self;
     SmartScheduler.clock := now;
     SmartScheduler.publisher := SmartScheduler.publisher self |}.

(** ** Concrete data to run the definitions on *)

Module Demo.

Definition content (cid text time : string) (prio : Z)
    : UnifiedQueueManager.QueuedContent :=
  {| UnifiedQueueManager.content_id := cid;
     UnifiedQueueManager.content_type := "template";
     UnifiedQueueManager.page_id := "698630966948910";
     UnifiedQueueManager.page_name := "CoCalc";
     UnifiedQueueManager.platform := "facebook";
     UnifiedQueueManager.content_text := text;
     UnifiedQueueManager.hashtags := ["LaTeX"];
     UnifiedQueueManager.link := "https://cocalc.com";
     UnifiedQueueManager.image_path := None;
     UnifiedQueueManager.alt_text := None;
     UnifiedQueueManager.source_name := "demo";
     UnifiedQueueManager.category := "mathematics";
     UnifiedQueueManager.scheduled_time := time;
     UnifiedQueueManager.priority := prio;
     UnifiedQueueManager.created_at := "2025-01-01T00:00:00";
     UnifiedQueueManager.is_duplicate := false;
     UnifiedQueueManager.duplicate_group_id := None |}.

(** The same item as a member of the duplicate group [g]. *)
Definition duplicate (g : string) (c : UnifiedQueueManager.QueuedContent)
    : UnifiedQueueManager.QueuedContent :=
  {| UnifiedQueueManager.content_id := UnifiedQueueManager.content_id c;
     UnifiedQueueManager.content_type := UnifiedQueueManager.content_type c;
     UnifiedQueueManager.page_id := UnifiedQueueManager.page_id c;
     UnifiedQueueManager.page_name := UnifiedQueueManager.page_name c;
     UnifiedQueueManager.platform := UnifiedQueueManager.platform c;
     UnifiedQueueManager.content_text := UnifiedQueueManager.content_text c;
     UnifiedQueueManager.hashtags := UnifiedQueueManager.hashtags c;
     UnifiedQueueManager.link := UnifiedQueueManager.link c;
     UnifiedQueueManager.image_path := UnifiedQueueManager.image_path c;
     UnifiedQueueManager.alt_text := UnifiedQueueManager.alt_text c;
     UnifiedQueueManager.source_name := UnifiedQueueManager.source_name c;
     UnifiedQueueManager.category := UnifiedQueueManager.category c;
     UnifiedQueueManager.scheduled_time :=
       UnifiedQueueManager.scheduled_time c;
     UnifiedQueueManager.priority := UnifiedQueueManager.priority c;
     UnifiedQueueManager.created_at := UnifiedQueueManager.created_at c;
     UnifiedQueueManager.is_duplicate := true;
     UnifiedQueueManager.duplicate_group_id := Some g |}.

Definition item_a := content "a" "first text" "2025-01-01T10:00:00" 5.
Definition item_a' := content "a" "second text" "2025-01-01T12:00:00" 5.
Definition item_b := content "b" "other text" "2025-01-01T11:00:00" 7.

(** 2025-01-01T09:00:00 *)
Definition nine_o_clock : datetime :=
  {| ticks := seconds (((Iso8601.ymd2ord 2025 1 1 - 1) * 24 + 9) * 3600);
     utcoffset := None |}.

(** 9999-12-31T09:00:00, on the last day a [datetime] holds. *)
Definition last_day : datetime :=
  {| ticks := seconds (((Iso8601.ymd2ord 9999 12 31 - 1) * 24 + 9) * 3600);
     utcoffset := None |}.

(** The two routes of the handler's own test. *)
Definition routes : list PageRouter.PageRoute :=
  [ {| PageRouter.page_id := "26593144945"; PageRouter.page_name := "SageMath";
       PageRouter.reason := "Math content"; PageRouter.priority := 8 |};
    {| PageRouter.page_id := "698630966948910"; PageRouter.page_name := "CoCalc";
       PageRouter.reason := "All content"; PageRouter.priority := 10 |} ].

Definition entropy : Entropy :=
  {| uuid_stream n := "uuid-" +:+ pretty n; uuid_drawn := 0 |}.

(** A publisher with Facebook credentials, three requests left in a window
    that stays open, and a Graph API that answers every request: first the
    page token, then one post id per post. *)
Definition answer_id (i : string) : SocialMediaPublisher.response :=
  SocialMediaPublisher.Answer
    {| SocialMediaPublisher.json_id := Some i;
       SocialMediaPublisher.json_access_token := None;
       SocialMediaPublisher.json_error_message := None |}.

Definition answer_token (tok : string) : SocialMediaPublisher.response :=
  SocialMediaPublisher.Answer
    {| SocialMediaPublisher.json_id := None;
       SocialMediaPublisher.json_access_token := Some tok;
       SocialMediaPublisher.json_error_message := None |}.

Definition publisher : SocialMediaPublisher.t :=
  {| SocialMediaPublisher.fb_page_id := Some "698630966948910";
     SocialMediaPublisher.fb_page_token := Some "user-token";
     SocialMediaPublisher.fb_page_id_cocalc := Some "698630966948910";
     SocialMediaPublisher.fb_page_id_sagemath := None;
     SocialMediaPublisher.page_access_tokens := ∅;
     SocialMediaPublisher.ig_account_id := Some "ig-account";
     SocialMediaPublisher.ig_access_token := Some "user-token";
     SocialMediaPublisher.rate_limits :=
       {[ "facebook" := {| SocialMediaPublisher.remaining := 3;
                           SocialMediaPublisher.reset_time := seconds 3600 |};
          "instagram" := {| SocialMediaPublisher.remaining := 50;
                            SocialMediaPublisher.reset_time := seconds 3600 |};
          "threads" := {| SocialMediaPublisher.remaining := 100;
                          SocialMediaPublisher.reset_time := seconds 3600 |} ]};
     SocialMediaPublisher.publishing_history := [];
     SocialMediaPublisher.world :=
       {| SocialMediaPublisher.clock := 0;
          SocialMediaPublisher.responses :=
            [answer_token "page-token"; answer_id "post-1"; answer_id "post-2";
             answer_id "post-3"; answer_id "post-4"];
          SocialMediaPublisher.trace := [];
          SocialMediaPublisher.path_exists := λ _, Ok false;
          SocialMediaPublisher.can_open := λ _, false |} |}.

(** The same publisher just after [__init__] ran at clock reading 0. *)
Definition new_publisher : SocialMediaPublisher.t :=
  SocialMediaPublisher.set_rate_limits
    (λ _, SocialMediaPublisher.initial_rate_limits 0) publisher.

(** The same publisher with the Facebook budget used up. *)
Definition spent_publisher : SocialMediaPublisher.t :=
  SocialMediaPublisher.set_rate_limits
    <["facebook" := {| SocialMediaPublisher.remaining := 0;
                       SocialMediaPublisher.reset_time := seconds 3600 |}]>
    publisher.

(** A scheduler with a Facebook post and an Instagram post queued, on a
    publisher that reaches nobody. *)
Definition template (name category : string) : SmartScheduler.TemplateMetadata :=
  {| SmartScheduler.category := category;
     SmartScheduler.template_name := name;
     SmartScheduler.tex_file := name +:+ ".tex";
     SmartScheduler.pdf_file := None;
     SmartScheduler.plot_files := [];
     SmartScheduler.title := name;
     SmartScheduler.author := "";
     SmartScheduler.abstract := "";
     SmartScheduler.packages := [];
     SmartScheduler.github_url := "";
     SmartScheduler.cocalc_url := "";
     SmartScheduler.has_pythontex := false;
     SmartScheduler.has_sagetex := true;
     SmartScheduler.has_knitr := false;
     SmartScheduler.file_size := 1024;
     SmartScheduler.last_modified := "2025-01-01T00:00:00";
     SmartScheduler.complexity_score := 3 |}.

Definition post (platform time : string) (image : option string)
    : SmartScheduler.QueuedPost :=
  {| SmartScheduler.template := template "algebra" "mathematics";
     SmartScheduler.platform := platform;
     SmartScheduler.content := "text";
     SmartScheduler.hashtags := ["LaTeX"];
     SmartScheduler.link := "https://cocalc.com";
     SmartScheduler.image_path := image;
     SmartScheduler.alt_text := None;
     SmartScheduler.scheduled_time := time;
     SmartScheduler.priority := 6;
     SmartScheduler.created_at := "2025-01-01T00:00:00" |}.

Definition offline_publisher : SocialMediaPublisher.t :=
  SocialMediaPublisher.set_world
    (λ w, {| SocialMediaPublisher.clock := SocialMediaPublisher.clock w;
             SocialMediaPublisher.responses := [];
             SocialMediaPublisher.trace := [];
             SocialMediaPublisher.path_exists := λ _, Ok true;
             SocialMediaPublisher.can_open := λ _, true |})
    publisher.

Definition scheduler_on (pub : SocialMediaPublisher.t)
    : SmartScheduler.t SocialMediaPublisher.t :=
  {| SmartScheduler.queue := [0; 1]%nat;
     SmartScheduler.heap l :=
       if (l =? 0)%nat then post "facebook" "2025-01-01T10:00:00" None
       else post "instagram" "2025-12-31T23:30:00" (Some "plot.png");
     SmartScheduler.recent_templates := {[ "facebook" := ["algebra"] ]};
     SmartScheduler.templates :=
       [ ("mathematics", [template "algebra" "mathematics";
                          template "calculus" "mathematics"]);
         ("physics", [template "optics" "physics"]) ];
     SmartScheduler.clock := ticks nine_o_clock;
     SmartScheduler.publisher := pub |}.

Definition scheduler : SmartScheduler.t SocialMediaPublisher.t :=
  scheduler_on offline_publisher.

(** 2025-12-31T23:29:30, half a minute before the Instagram post of
    [scheduler] is due. *)
Definition new_years_eve : datetime :=
  {| ticks := seconds (((Iso8601.ymd2ord 2025 12 31 - 1) * 24 + 23) * 3600
                       + 29 * 60 + 30);
     utcoffset := None |}.

(** A scheduler at 2025-01-01T09:00:00 whose one post, for Instagram and
    without an image, is due half a minute later. *)
Definition instagram_scheduler : SmartScheduler.t SocialMediaPublisher.t :=
  {| SmartScheduler.queue := [0%nat];
     SmartScheduler.heap _ := post "instagram" "2025-01-01T09:00:30" None;
     SmartScheduler.recent_templates := ∅;
     SmartScheduler.templates := [];
     SmartScheduler.clock := ticks nine_o_clock;
     SmartScheduler.publisher := offline_publisher |}.

(** A scheduler at 9999-12-31T23:29:30 whose one post, for Facebook, is
    due half a minute later, on a publisher that reaches nobody. *)
Definition last_hour_scheduler : SmartScheduler.t SocialMediaPublisher.t :=
  {| SmartScheduler.queue := [0%nat];
     SmartScheduler.heap _ := post "facebook" "9999-12-31T23:30:00" None;
     SmartScheduler.recent_templates := ∅;
     SmartScheduler.templates := [];
     SmartScheduler.clock :=
       seconds (((Iso8601.ymd2ord 9999 12 31 - 1) * 24 + 23) * 3600
                + 29 * 60 + 30);
     SmartScheduler.publisher := offline_publisher |}.

(** A publisher that may not look at its image files. *)
Definition denied_publisher : SocialMediaPublisher.t :=
  SocialMediaPublisher.set_world
    (λ w, {| SocialMediaPublisher.clock := SocialMediaPublisher.clock w;
             SocialMediaPublisher.responses := [];
             SocialMediaPublisher.trace := [];
             SocialMediaPublisher.path_exists p :=
               Raise (OSError ("[Errno 13] Permission denied: '"
                               +:+ p +:+ "'"));
             SocialMediaPublisher.can_open := λ _, false |})
    publisher.

End Demo.

(* ===================================================================== *)
(** * Properties *)
(* ===================================================================== *)

(** ** The codec on sample dates *)

Example iso_parse_print :
  Iso8601.print (dt_add (default (Datetime 0 None)
                           (Iso8601.parse "2024-02-28T23:30:00")) (hours 1))
  = "2024-02-29T00:30:00".
Proof. vm_compute. reflexivity. Qed.

Example iso_round_trip :
  Forall (λ s, (Iso8601.print <$> Iso8601.parse s) = Some s)
         ["0001-01-01T00:00:00"; "1999-12-31T23:59:59"; "2000-02-29T12:00:00";
          "2025-01-01T09:00:00.000500"; "9999-12-31T23:59:59.999999"].
Proof. repeat constructor. Qed.

Example iso_rejects :
  Forall (λ s, Iso8601.parse s = None)
         ["tomorrow"; "2025-02-29T00:00:00"; "2025-01-01T24:00:00";
          "2025-13-01T00:00:00"; ""].
Proof. repeat constructor. Qed.

(** ** The monad *)

Lemma bind_unfold {S A B} (m : M S A) (k : A → M S B) s :
  (m ≫= k) s = match m s with
               | (Ok a, s') => k a s'
               | (Raise e, s') => (Raise e, s')
               end.
Proof. done. Qed.

Lemma bind_get {S B} (k : S → M S B) s : (get ≫= k) s = k s s.
Proof. done. Qed.

Lemma bind_gets {S A B} (f : S → A) (k : A → M S B) s :
  (gets f ≫= k) s = k (f s) s.
Proof. done. Qed.

Lemma bind_modify {S B} (f : S → S) (k : unit → M S B) s :
  (modify f ≫= k) s = k tt (f s).
Proof. done. Qed.


(** ** Stable sorting *)

Lemma StronglySorted_weaken {A} (R R' : relation A) l :
  (∀ x y, R x y → R' x y) → StronglySorted R l → StronglySorted R' l.
Proof.
  intros HR. induction 1 as [|x l Hl IH Hx]; constructor; [done|].
  eapply Forall_impl; [exact Hx|]. auto.
Qed.

Section stable_sort_facts.
Context {A : Type} (before : A → A → bool).

Hypothesis before_asym : ∀ x y, before x y = true → before y x = false.
Hypothesis may_precede_trans : Transitive (may_precede before).

Lemma stable_insert_perm x l : stable_insert before x l ≡ₚ x :: l.
Proof using Type.
  induction l as [|y l IH]; simpl; [done|].
  destruct (before y x); [|done].
  rewrite IH. apply Permutation_swap.
Qed.

Lemma stable_sort_perm l : stable_sort before l ≡ₚ l.
Proof using Type.
  induction l as [|x l IH]; simpl; [done|].
  rewrite stable_insert_perm. by f_equiv.
Qed.

Lemma stable_insert_sorted x l :
  StronglySorted (may_precede before) l →
  StronglySorted (may_precede before) (stable_insert before x l).
Proof using before_asym may_precede_trans.
  induction 1 as [|y l Hl IH Hy]; simpl.
  - repeat constructor.
  - destruct (before y x) eqn:Hyx.
    + constructor; [done|].
      rewrite stable_insert_perm. constructor; [|done].
      by apply before_asym.
    + constructor; [by constructor|].
      constructor; [done|].
      eapply Forall_impl; [exact Hy|].
      intros z Hz. by etrans.
Qed.

Lemma stable_sort_sorted l : StronglySorted (may_precede before) (stable_sort before l).
Proof using before_asym may_precede_trans.
  induction l as [|x l IH]; simpl; [constructor|].
  by apply stable_insert_sorted.
Qed.

(** A list that is already in order is left as it is. *)
Lemma stable_sort_id l :
  StronglySorted (may_precede before) l → stable_sort before l = l.
Proof using Type.
  induction 1 as [|x l Hl IH Hx]; simpl; [done|].
  rewrite IH. destruct l as [|y l]; simpl; [done|].
  apply Forall_cons_1 in Hx as [Hxy _]. unfold may_precede in Hxy.
  by rewrite Hxy.
Qed.
End stable_sort_facts.

(** ** duplicate_content_handler.py *)

Section duplicate_content_handler.
Import PageRouter DuplicateContentHandler.

Lemma dt_add_days_succ base_time (k g : Z) :
  dt_add (dt_add base_time (days (k * g))) (days g)
  = dt_add base_time (days ((k + 1) * g)).
Proof. unfold dt_add, days, seconds. simpl. f_equal. lia. Qed.

Lemma timedelta_of_in_range delta :
  -999999999 ≤ delta / 86400000000 ≤ 999999999 →
  timedelta_of delta = Ok delta.
Proof.
  intros [? ?]. unfold timedelta_of. cbv zeta.
  destruct (Z.leb_spec (-999999999) (delta / 86400000000)); [|lia].
  destruct (Z.leb_spec (delta / 86400000000) 999999999); [|lia].
  done.
Qed.

Lemma timedelta_of_out_of_range delta :
  ¬ (-999999999 ≤ delta / 86400000000 ≤ 999999999) →
  overflows (timedelta_of delta).
Proof.
  intros Hno. unfold timedelta_of, overflows. cbv zeta.
  destruct (Z.leb_spec (-999999999) (delta / 86400000000));
    [destruct (Z.leb_spec (delta / 86400000000) 999999999); [lia|]|];
    cbn [andb]; destruct (_ && _); by eexists.
Qed.

Lemma dt_plus_in_range d delta :
  0 ≤ ticks d + delta ≤ max_ticks → dt_plus d delta = Ok (dt_add d delta).
Proof.
  intros [? ?]. unfold dt_plus. cbn [ticks dt_add].
  destruct (Z.leb_spec 0 (ticks d + delta)); [|lia].
  destruct (Z.leb_spec (ticks d + delta) max_ticks); [|lia].
  done.
Qed.

Lemma dt_plus_out_of_range d delta :
  ¬ (0 ≤ ticks d + delta ≤ max_ticks) → overflows (dt_plus d delta).
Proof.
  intros Hno. unfold dt_plus, overflows. cbn [ticks dt_add].
  destruct (Z.leb_spec 0 (ticks d + delta)); [|by eexists].
  destruct (Z.leb_spec (ticks d + delta) max_ticks); [|by eexists].
  lia.
Qed.

Lemma checked_add_can_add {B} d delta (k : datetime → result B) :
  can_add d delta →
  (td ← timedelta_of delta; sum ← dt_plus d td; k sum) = k (dt_add d delta).
Proof.
  intros [Htd Hsum].
  rewrite (timedelta_of_in_range _ Htd). cbn [mbind result_bind].
  rewrite (dt_plus_in_range _ _ Hsum). done.
Qed.

Lemma checked_add_overflows {B} d delta (k : datetime → result B) :
  ¬ can_add d delta →
  overflows (td ← timedelta_of delta; sum ← dt_plus d td; k sum).
Proof.
  intros Hno.
  destruct (decide (-999999999 ≤ delta / 86400000000 ≤ 999999999))
    as [Htd|Htd].
  - rewrite (timedelta_of_in_range _ Htd). cbn [mbind result_bind].
    destruct (dt_plus_out_of_range d delta) as [msg ->].
    { unfold can_add in Hno. tauto. }
    by exists msg.
  - destruct (timedelta_of_out_of_range _ Htd) as [msg ->]. by exists msg.
Qed.

Lemma checked_sum_can_add d delta :
  can_add d delta →
  (td ← timedelta_of delta; dt_plus d td) = Ok (dt_add d delta).
Proof.
  intros [Htd Hsum].
  rewrite (timedelta_of_in_range _ Htd). cbn [mbind result_bind].
  by apply dt_plus_in_range.
Qed.

Lemma checked_sum_overflows d delta :
  ¬ can_add d delta → overflows (td ← timedelta_of delta; dt_plus d td).
Proof.
  intros Hno.
  destruct (decide (-999999999 ≤ delta / 86400000000 ≤ 999999999))
    as [Htd|Htd].
  - rewrite (timedelta_of_in_range _ Htd). cbn [mbind result_bind].
    apply dt_plus_out_of_range. unfold can_add in Hno. tauto.
  - destruct (timedelta_of_out_of_range _ Htd) as [msg ->]. by exists msg.
Qed.

Lemma fold_stagger_step self base_time n rs : ∀ k acc ct,
  (k + length rs)%nat = n →
  (rs ≠ [] → ct = dt_add base_time (days (Z.of_nat k * min_day_gap self))) →
  let fits :=
    Forall (λ j : nat,
              can_add (dt_add base_time (days (Z.of_nat j * min_day_gap self)))
                      (days (min_day_gap self)))
           (seq k (length rs - 1)) in
  let run :=
    fold_result (zip (Z.of_nat <$> seq k (length rs)) rs) (acc, ct)
                (stagger_step self (Z.of_nat n)) in
  (fits →
   ∃ ct', run = Ok (acc ++ imap (λ i, staggered_entry self base_time (k + i)) rs,
                    ct'))
  ∧ (¬ fits → overflows run).
Proof.
  induction rs as [|r rs IH]; intros k acc ct Hn Hct fits run.
  { split.
    - intros _. exists ct. subst run. simpl. by rewrite app_nil_r.
    - intros []. subst fits. simpl. constructor. }
  assert (Hentry :
    {| entry_page_id := page_id r; entry_page_name := page_name r;
       scheduled_time := ct; is_original := Some (Z.of_nat k =? 0) |}
    = staggered_entry self base_time (k + 0) r).
  { unfold staggered_entry. rewrite Nat.add_0_r, Hct by done. done. }
  assert (Himap :
    (acc ++ [staggered_entry self base_time (k + 0) r])
      ++ imap (λ i, staggered_entry self base_time (S k + i)) rs
    = acc ++ imap (λ i, staggered_entry self base_time (k + i)) (r :: rs)).
  { rewrite <- app_assoc. simpl. do 2 f_equal.
    apply imap_ext. intros i x _. simpl. f_equal. lia. }
  simpl in Hn.
  destruct rs as [|r' rs].
  - subst run fits. cbn [length seq fmap list_fmap zip zip_with fold_result
                         stagger_step].
    destruct (Z.ltb_spec (Z.of_nat k) (Z.of_nat n - 1)); [simpl in Hn; lia|].
    split.
    + intros _. exists ct. rewrite Hentry. done.
    + intros []. simpl. constructor.
  - assert (Hseq : seq k (length (r :: r' :: rs) - 1)
                   = k :: seq (S k) (length (r' :: rs) - 1)).
    { simpl. by rewrite Nat.sub_0_r. }
    assert (Hrun : run
      = (td ← timedelta_of (days (min_day_gap self));
         sum ← dt_plus ct td;
         fold_result (zip (Z.of_nat <$> seq (S k) (length (r' :: rs)))
                          (r' :: rs))
                     (acc ++ [staggered_entry self base_time (k + 0) r], sum)
                     (stagger_step self (Z.of_nat n)))).
    { subst run. rewrite <- Hentry.
      change (seq k (length (r :: r' :: rs)))
        with (k :: seq (S k) (length (r' :: rs))).
      cbn [fmap list_fmap zip zip_with fold_result stagger_step].
      destruct (Z.ltb_spec (Z.of_nat k) (Z.of_nat n - 1));
        [|simpl in Hn; lia].
      destruct (timedelta_of _) as [td|]; [|done].
      cbn [mbind result_bind].
      destruct (dt_plus ct td); done. }
    subst fits. rewrite Hseq, Forall_cons, Hrun.
    rewrite <- Hct by done.
    destruct (decide (can_add ct (days (min_day_gap self)))) as [Hadd|Hadd].
    + rewrite checked_add_can_add by done.
      destruct (IH (S k) (acc ++ [staggered_entry self base_time (k + 0) r])
                   (dt_add ct (days (min_day_gap self)))) as [IHok IHno].
      { lia. }
      { intros _. rewrite Hct by done. rewrite dt_add_days_succ.
        do 2 f_equal. lia. }
      split.
      * intros [_ Hfits]. destruct (IHok Hfits) as [ct' ->].
        exists ct'. by rewrite Himap.
      * intros Hno. apply IHno. tauto.
    + split; [tauto|]. intros _. by apply checked_add_overflows.
Qed.

Lemma priority_before_asym (x y : PageRoute) :
  (priority y <? priority x) = true → (priority x <? priority y) = false.
Proof. intros ?%Z.ltb_lt. apply Z.ltb_ge. lia. Qed.

Lemma priority_may_precede_trans :
  Transitive (may_precede (λ x y : PageRoute, priority y <? priority x)).
Proof.
  intros x y z. unfold may_precede. rewrite !Z.ltb_ge. lia.
Qed.

Lemma sorted_reverse_priority routes :
  sorted_reverse priority routes ≡ₚ routes ∧
  StronglySorted (λ a b, priority b ≤ priority a)
                 (sorted_reverse priority routes).
Proof.
  split; [apply stable_sort_perm|].
  eapply StronglySorted_weaken;
    [|apply stable_sort_sorted;
      [apply priority_before_asym|apply priority_may_precede_trans]].
  intros x y. unfold may_precede. rewrite Z.ltb_ge. lia.
Qed.

Lemma toordinal_dt_add_days d k :
  toordinal (dt_add d (days k)) = toordinal d + k.
Proof.
  unfold toordinal, dt_add, days, seconds. simpl.
  replace (ticks d + k * 86400 * 1000000)
    with (ticks d + k * (1 * 86400 * 1000000)) by lia.
  rewrite Z.div_add by lia. lia.
Qed.

Lemma fold_stagger_enumerate self base_time routes :
  let run :=
    fold_result (enumerate routes) ([], base_time)
                (stagger_step self (Z.of_nat (length routes))) in
  (staggering_fits self base_time (length routes) →
   ∃ ct', run = Ok (imap (staggered_entry self base_time) routes, ct'))
  ∧ (¬ staggering_fits self base_time (length routes) → overflows run).
Proof.
  apply (fold_stagger_step self base_time (length routes) routes 0 []
           base_time); [done|].
  intros _. unfold dt_add, days, seconds. destruct base_time; simpl.
  f_equal. lia.
Qed.

(** C1: for more than one route, when every staggered time is one Python
    can represent, the schedule lists the routes by descending priority,
    the entry at index [i] is at [base_time + i * min_day_gap] days, the
    whole schedule carries the one identifier freshly drawn from [uuid4]
    in this call, and any two entries are at least [min_day_gap] calendar
    days apart; when some staggered time cannot be represented the call
    raises [OverflowError] and draws no identifier. *)
Theorem schedule_duplicate_content_staggered
    (self : DuplicateContentHandler.t) (routes : list PageRoute)
    (base_time : datetime) (e : Entropy) :
  (1 < length routes)%nat →
  let sorted_routes := sorted_reverse priority routes in
  (staggering_fits self base_time (length routes) →
   ∃ ds,
     schedule_duplicate_content self routes base_time e
     = (Ok ds, {| uuid_stream := uuid_stream e;
                  uuid_drawn := S (uuid_drawn e) |})
     ∧ sorted_routes ≡ₚ routes
     ∧ StronglySorted (λ a b, priority b ≤ priority a) sorted_routes
     ∧ schedules ds = imap (staggered_entry self base_time) sorted_routes
     ∧ duplicate_group_id ds = uuid_stream e (uuid_drawn e)
     ∧ ds_min_day_gap ds = min_day_gap self
     ∧ ∀ i j ei ej,
         i ≠ j →
         schedules ds !! i = Some ei → schedules ds !! j = Some ej →
         min_day_gap self
         ≤ Z.abs (toordinal (scheduled_time ei) - toordinal (scheduled_time ej)))
  ∧ (¬ staggering_fits self base_time (length routes) →
     ∃ r, schedule_duplicate_content self routes base_time e = (r, e)
          ∧ overflows r).
Proof.
  intros Hlen sorted_routes.
  destruct (sorted_reverse_priority routes) as [Hperm Hsorted].
  destruct (fold_stagger_enumerate self base_time sorted_routes)
    as [Hok Hno].
  assert (Hl : length routes = length sorted_routes).
  { subst sorted_routes. by rewrite Hperm. }
  unfold schedule_duplicate_content.
  destruct (Z.leb_spec (Z.of_nat (length routes)) 1) as [|_]; [lia|].
  fold sorted_routes. rewrite Hl, bind_unfold. unfold lift_result.
  split.
  - intros Hfits. destruct (Hok Hfits) as [ct' ->].
    eexists. split; [reflexivity|]. simpl.
    do 5 (split; [done|]).
    intros i j ei ej Hij.
    rewrite !list_lookup_imap.
    intros (ri & _ & ->)%fmap_Some (rj & _ & ->)%fmap_Some. simpl.
    rewrite !toordinal_dt_add_days. nia.
  - intros Hfits. destruct (Hno Hfits) as [msg ->].
    eexists. split; [reflexivity|]. by exists msg.
Qed.

Lemma schedule_duplicate_content_staggered_witness :
  ∃ ds,
    schedule_duplicate_content {| min_day_gap := 2 |} Demo.routes
                               Demo.nine_o_clock Demo.entropy
    = (Ok ds, {| uuid_stream := uuid_stream Demo.entropy; uuid_drawn := 1 |})
    ∧ entry_page_name <$> schedules ds = ["CoCalc"; "SageMath"]
    ∧ (toordinal ∘ scheduled_time) <$> schedules ds
      = [Iso8601.ymd2ord 2025 1 1; Iso8601.ymd2ord 2025 1 3]
    ∧ duplicate_group_id ds = "uuid-0".
Proof.
  destruct (schedule_duplicate_content_staggered
              {| min_day_gap := 2 |} Demo.routes Demo.nine_o_clock
              Demo.entropy) as [Hfits _].
  { simpl. lia. }
  destruct Hfits as (ds & Hrun & _ & _ & Hs & Hid & _).
  { apply (@bool_decide_eq_true_1 _ (staggering_fits_dec _ _ _)).
    vm_compute. reflexivity. }
  exists ds. rewrite Hs, Hid. split; [exact Hrun|].
  split; [|split]; vm_compute; reflexivity.
Defined.
End duplicate_content_handler.

(** Two routes from 9999-12-31T09:00 with a gap of two days: the second
    page would be due in the year 10000, and the call raises. *)
Lemma schedule_duplicate_content_overflows :
  (1 < length Demo.routes)%nat
  ∧ DuplicateContentHandler.schedule_duplicate_content
      {| DuplicateContentHandler.min_day_gap := 2 |} Demo.routes
      Demo.last_day Demo.entropy
    = (Raise (OverflowError "date value out of range"), Demo.entropy).
Proof. split; [simpl; lia|vm_compute; reflexivity]. Qed.

(** ** unified_queue_manager.py *)

Section unified_queue_manager.
Import UnifiedQueueManager.
Context `{!IsoFormat}.

Lemma string_ltb_false s1 s2 : String.ltb s1 s2 = false → String.le s2 s1.
Proof.
  unfold String.le, String.ltb, String.leb.
  rewrite (String.compare_antisym s1 s2).
  by destruct (s2 ?= s1)%string.
Qed.

Lemma string_ltb_true s1 s2 : String.ltb s1 s2 = true → String.le s1 s2.
Proof.
  unfold String.le, String.ltb, String.leb.
  by destruct (s1 ?= s2)%string.
Qed.

(** [not (b < a)] on the sort keys, spelled out. *)
Lemma tuple_ltb_false (a b : string * Z) :
  tuple_ltb b a = false → String.le a.1 b.1 ∧ (a.1 = b.1 → a.2 ≤ b.2).
Proof.
  unfold tuple_ltb. destruct (decide (b.1 = a.1)) as [Heq|Hne].
  - intros ?%Z.ltb_ge. rewrite Heq. split; [done|]. lia.
  - intros Hlt%string_ltb_false. split; [done|]. congruence.
Qed.

Lemma tuple_ltb_false_intro (a b : string * Z) :
  String.le a.1 b.1 → (a.1 = b.1 → a.2 ≤ b.2) → tuple_ltb b a = false.
Proof.
  intros Hle Hp. unfold tuple_ltb.
  destruct (decide (b.1 = a.1)) as [Heq|Hne].
  - apply Z.ltb_ge. auto.
  - destruct (String.ltb b.1 a.1) eqn:Hlt; [|done].
    apply string_ltb_true in Hlt. destruct Hne. by apply (anti_symm String.le).
Qed.

Lemma tuple_ltb_asym (a b : string * Z) :
  tuple_ltb a b = true → tuple_ltb b a = false.
Proof.
  intros Hab. apply tuple_ltb_false_intro.
  - unfold tuple_ltb in Hab. destruct (decide (a.1 = b.1)) as [->|]; [done|].
    by apply string_ltb_true.
  - intros Heq. unfold tuple_ltb in Hab. rewrite decide_True in Hab by done.
    apply Z.ltb_lt in Hab. lia.
Qed.

Lemma tuple_may_precede_trans : Transitive (may_precede tuple_ltb).
Proof.
  intros a b c [Hab1 Hab2]%tuple_ltb_false [Hbc1 Hbc2]%tuple_ltb_false.
  apply tuple_ltb_false_intro; [by etrans|].
  intros Heq. rewrite <- Heq in Hbc1.
  assert (a.1 = b.1) by by apply (anti_symm String.le).
  assert (b.1 = c.1) by congruence.
  etrans; eauto.
Qed.

Lemma sort_queue_perm q : sort_queue q ≡ₚ q.
Proof. apply stable_sort_perm. Qed.

Lemma sort_queue_sorted q : queue_sorted (sort_queue q).
Proof.
  unfold queue_sorted, sort_queue.
  eapply StronglySorted_weaken; [|apply stable_sort_sorted].
  - intros x y [H1 H2]%tuple_ltb_false. simpl in *. split; [done|].
    intros Heq. specialize (H2 Heq). lia.
  - intros x y. apply tuple_ltb_asym.
  - intros x y z. apply tuple_may_precede_trans.
Qed.

Lemma queue_sorted_filter (P : QueuedContent → Prop) `{∀ c, Decision (P c)} q :
  queue_sorted q → queue_sorted (filter P q).
Proof.
  induction 1 as [|c q Hq IH Hc]; [constructor|].
  rewrite filter_cons. destruct (decide (P c)); [|done].
  constructor; [done|].
  apply Forall_forall. intros y [_ Hy]%list_elem_of_filter.
  by eapply Forall_forall in Hc.
Qed.

Lemma apply_op_sorted o self :
  queue_sorted (queue self) → queue_sorted (queue (apply_op o self)).
Proof.
  intros Hs. destruct o as [c|cs|cid new_time shared|cid|now c post_id]; simpl.
  - apply sort_queue_sorted.
  - apply sort_queue_sorted.
  - unfold reschedule_content.
    destruct (reschedule_first _ _ _ _); simpl; [apply sort_queue_sorted|done].
  - by apply queue_sorted_filter.
  - by apply queue_sorted_filter.
Qed.

Lemma run_ops_sorted ops : ∀ self,
  queue_sorted (queue self) → queue_sorted (queue (run_ops ops self)).
Proof.
  unfold run_ops.
  induction ops as [|o ops IH]; intros self Hs; simpl; [done|].
  by apply IH, apply_op_sorted.
Qed.

(** C2: whatever sequence of [add_content], [add_batch],
    [reschedule_content], [remove_content] (and [mark_posted]) calls a
    manager has gone through, its queue lists the items by non-decreasing
    scheduled time, and items with one scheduled time by non-increasing
    priority. *)
Theorem queue_sorted_after_any_operations (ops : list op) :
  queue_sorted (queue (run_ops ops fresh)).
Proof. apply run_ops_sorted. constructor. Qed.

(** One turn of the loop of [get_due_content]: a due item is appended,
    any other is skipped, and an item the [try] block raises on leaves
    one ERROR record. *)
Lemma due_step_spec (w : Z) (world : World) due content :
  let now := {| ticks := clock world; utcoffset := None |} in
  due_step now (dt_add now (minutes w)) due content world
  = (Ok (if decide (is_due (clock world) w content)
         then due ++ [content] else due),
     {| clock := clock world;
        log := log world ++ option_list (due_error_log content) |}).
Proof.
  destruct world as [clk lg]. simpl.
  assert (Hdue : is_due clk w content ↔
            ∃ tk, fromisoformat (scheduled_time content)
                  = Ok {| ticks := tk; utcoffset := None |}
                  ∧ clk ≤ tk ≤ clk + minutes w).
  { unfold is_due. destruct (fromisoformat _) as [[tk [o|]]|e].
    - split; [done|]. by intros (? & [=] & _).
    - split; [eauto|]. by intros (? & [= <-] & ?).
    - split; [done|]. by intros (? & [=] & _). }
  unfold due_step, try_except, due_error_log, due_error, logger,
    modify, lift_result, dt_le, dt_add, mbind, M_bind, bind, mret, M_ret, ret.
  simpl.
  destruct (decide (is_due clk w content)) as [Hd|Hd]; rewrite Hdue in Hd.
  - destruct Hd as (tk & -> & Htk). simpl.
    destruct (Z.leb_spec clk tk); [|lia]. simpl.
    destruct (Z.leb_spec tk (clk + minutes w)); [|lia].
    by rewrite app_nil_r.
  - destruct (fromisoformat (scheduled_time content)) as [[tk [o|]]|e];
      simpl; [done| |done].
    destruct (Z.leb_spec clk tk); simpl; [|by rewrite app_nil_r].
    destruct (Z.leb_spec tk (clk + minutes w)); simpl;
      [|by rewrite app_nil_r].
    destruct Hd. eauto.
Qed.

Lemma due_loop_spec (w : Z) (q : list QueuedContent) : ∀ due world,
  let now := {| ticks := clock world; utcoffset := None |} in
  fold_for q due (due_step now (dt_add now (minutes w))) world
  = (Ok (due ++ filter (is_due (clock world) w) q),
     {| clock := clock world;
        log := log world ++ omap due_error_log q |}).
Proof.
  induction q as [|c q IH]; intros due world; simpl.
  { rewrite !app_nil_r. by destruct world. }
  unfold bind. rewrite due_step_spec.
  specialize (IH (if decide (is_due (clock world) w c)
                  then due ++ [c] else due)
                 {| clock := clock world;
                    log := log world ++ option_list (due_error_log c) |}).
  simpl in IH. rewrite IH. rewrite filter_cons.
  f_equal.
  - f_equal. destruct (decide (is_due (clock world) w c)); [|done].
    by rewrite <- app_assoc.
  - f_equal. rewrite <- app_assoc. f_equal.
    by destruct (due_error_log c).
Qed.

(** C3: when [now + w] is a time Python can represent,
    [get_due_content(w)] returns normally, whatever the queue holds, with
    exactly the queued items, in queue order, whose scheduled time parses
    and lies in [[now, now + w]]; every item it cannot read is skipped,
    leaving one ERROR record in the log.  When [now + w] cannot be
    represented the call raises [OverflowError] before it looks at the
    queue. *)
Theorem get_due_content_window (self : t) (w : Z) (world : World) :
  let now := {| ticks := clock world; utcoffset := None |} in
  let due := filter (is_due (clock world) w) (queue self) in
  (can_add now (minutes w) →
   get_due_content self w world
   = (Ok due,
      {| clock := clock world;
         log := log world ++ omap due_error_log (queue self)
                ++ [(INFO, "Found " +:+ pretty (length due)
                           +:+ " content items due within "
                           +:+ pretty w +:+ " minutes")] |}))
  ∧ (¬ can_add now (minutes w) →
     ∃ msg, get_due_content self w world = (Raise (OverflowError msg), world))
  ∧ (∀ content, content ∈ due ↔
       content ∈ queue self ∧
       ∃ tk, fromisoformat (scheduled_time content)
             = Ok {| ticks := tk; utcoffset := None |}
             ∧ clock world ≤ tk ≤ clock world + minutes w)
  ∧ (∀ content e, content ∈ queue self →
       fromisoformat (scheduled_time content) = Raise e →
       (content ∉ due) ∧
       ((ERROR, "Error parsing scheduled time: " +:+ str_exn e)
          ∈ omap due_error_log (queue self))).
Proof.
  intros now due. split; [|split; [|split]].
  - intros Hadd.
    unfold get_due_content, datetime_now. rewrite bind_gets.
    fold now. rewrite bind_unfold. unfold lift_result.
    rewrite (checked_sum_can_add now (minutes w) Hadd).
    rewrite bind_unfold.
    pose proof (due_loop_spec w (queue self) [] world) as Hloop.
    simpl in Hloop. fold now in Hloop. rewrite Hloop. fold due.
    unfold logger, modify.
    unfold mbind, M_bind, bind, mret, M_ret, ret. simpl.
    by rewrite <- app_assoc.
  - intros Hadd.
    unfold get_due_content, datetime_now. rewrite bind_gets.
    fold now. rewrite bind_unfold. unfold lift_result.
    destruct (checked_sum_overflows now (minutes w) Hadd) as [msg ->].
    by exists msg.
  - intros content. unfold due. rewrite list_elem_of_filter.
    unfold is_due. split.
    + intros [Hdue Hin]. split; [done|].
      destruct (fromisoformat _) as [[tk [o|]]|e]; try done. eauto.
    + intros [Hin (tk & -> & Htk)]. done.
  - intros content e Hin Hparse. split.
    + unfold due. rewrite list_elem_of_filter. unfold is_due.
      rewrite Hparse. tauto.
    + apply list_elem_of_omap. exists content. split; [done|].
      unfold due_error_log, due_error. by rewrite Hparse.
Qed.

(** *** Content ids *)

Lemma queue_ids_sort q : content_id <$> sort_queue q ≡ₚ content_id <$> q.
Proof. by rewrite sort_queue_perm. Qed.

Lemma assign_shared_ids s shared c q :
  content_id <$> assign_shared s shared c q = content_id <$> q.
Proof.
  unfold assign_shared. revert shared.
  induction q as [|c' q IH]; intros shared; [done|].
  cbn [imap fmap list_fmap]. f_equal; [by destruct (_ && _)|].
  apply IH.
Qed.

Lemma reschedule_first_ids cid s shared q q' :
  reschedule_first cid s shared q = Some q' →
  content_id <$> q' = content_id <$> q.
Proof.
  revert q'. induction q as [|c q IH]; intros q'; simpl; [done|].
  destruct (decide (content_id c = cid)).
  - intros [= <-]. cbn [fmap list_fmap]. f_equal. apply assign_shared_ids.
  - destruct (reschedule_first cid s shared q) as [q0|]; simpl; [|done].
    intros [= <-]. simpl. f_equal. by apply IH.
Qed.

Lemma filter_ids_NoDup (P : QueuedContent → Prop) `{∀ c, Decision (P c)} q :
  NoDup (content_id <$> q) → NoDup (content_id <$> filter P q).
Proof.
  intros Hq. eapply sublist_NoDup; [exact Hq|].
  apply fmap_sublist, sublist_filter.
Qed.

Lemma remove_content_queue cid self :
  queue (remove_content cid self).2
  = filter (λ c, content_id c ≠ cid) (queue self).
Proof. done. Qed.

Lemma removed_id_not_queued cid self :
  cid ∉ queue_ids (remove_content cid self).2.
Proof.
  unfold queue_ids. rewrite remove_content_queue.
  intros (c & -> & [Hne _]%list_elem_of_filter)%list_elem_of_fmap. done.
Qed.

Lemma remove_content_ids_subseteq cid self x :
  x ∈ queue_ids (remove_content cid self).2 → x ∈ queue_ids self.
Proof.
  unfold queue_ids. rewrite remove_content_queue.
  intros (c & -> & [_ Hin]%list_elem_of_filter)%list_elem_of_fmap.
  apply list_elem_of_fmap. eauto.
Qed.

(** C8, as the code has it: [add_content] keeps the content ids of the
    queue pairwise different when the id of the new item is not queued
    yet, [add_batch] when the ids of the batch differ from each other
    and from the queued ones; removing, rescheduling and marking as
    posted always keep them so. *)
Theorem unique_ids_preserved (self : t) :
  unique_ids self →
  (∀ content, content_id content ∉ queue_ids self →
     unique_ids (add_content content self))
  ∧ (∀ contents, NoDup (content_id <$> contents) →
       (∀ c, c ∈ contents → content_id c ∉ queue_ids self) →
       unique_ids (add_batch contents self))
  ∧ (∀ cid, unique_ids (remove_content cid self).2)
  ∧ (∀ cid new_time shared,
       unique_ids (reschedule_content cid new_time shared self).2)
  ∧ (∀ now content post_id, unique_ids (mark_posted now content post_id self)).
Proof.
  unfold unique_ids, queue_ids. intros Hu. repeat split.
  - intros content Hnew. unfold add_content, _sort_queue. simpl.
    rewrite queue_ids_sort, fmap_app. apply NoDup_app. split; [done|].
    split; [|apply NoDup_singleton].
    intros x Hx ->%list_elem_of_singleton. done.
  - intros contents Hnd Hnew. unfold add_batch, _sort_queue. simpl.
    rewrite queue_ids_sort, fmap_app. apply NoDup_app. split; [done|].
    split; [|done].
    intros x Hx (c & -> & Hc)%list_elem_of_fmap. by eapply Hnew.
  - intros cid. by apply filter_ids_NoDup.
  - intros cid new_time shared. unfold reschedule_content.
    destruct (reschedule_first _ _ _ _) as [q|] eqn:Hq; simpl; [|done].
    rewrite queue_ids_sort. by rewrite (reschedule_first_ids _ _ _ _ _ Hq).
  - intros now content post_id. by apply filter_ids_NoDup.
Qed.

(** C7, as the code has it: [mark_posted] removes every queue entry with
    the item's content id and appends exactly one history record for it;
    afterwards that id is no longer queued, and if no content id was both
    queued and in the history before the call, none is after it.  No
    other operation touches the posting history. *)
Theorem mark_posted_exclusive (now : datetime) (item : QueuedContent)
    (post_id : string) (self : t) :
  let self' := mark_posted now item post_id self in
  queue self' = filter (λ c, content_id c ≠ content_id item) (queue self)
  ∧ (∃ entry, posting_history self' = posting_history self ++ [entry]
              ∧ h_content_id entry = content_id item
              ∧ h_post_id entry = post_id)
  ∧ (content_id item ∉ queue_ids self')
  ∧ (exclusive self → exclusive self')
  ∧ (∀ o, posting_history (apply_op o self) ≠ posting_history self →
          ∃ now' item' post_id', o = MarkPosted now' item' post_id').
Proof.
  intros self'. split; [done|]. split; [eexists; done|].
  split; [apply removed_id_not_queued|]. split.
  - intros Hex cid Hq. unfold history_ids. simpl. rewrite fmap_app. simpl.
    rewrite elem_of_app, list_elem_of_singleton.
    intros [Hh| ->].
    + apply (Hex cid); [|exact Hh].
      apply (remove_content_ids_subseteq (content_id item)). exact Hq.
    + by apply (removed_id_not_queued (content_id item) self).
  - intros [c|cs|cid new_time shared|cid|now' item' post_id'] Hne;
      simpl in Hne; try done; [|eauto].
    unfold reschedule_content in Hne.
    by destruct (reschedule_first _ _ _ _).
Qed.
End unified_queue_manager.

(** C3 as stated fails: five thousand million minutes after 2025-01-01
    is past the year 9999, and the call raises instead of returning. *)
Lemma get_due_content_overflows :
  @UnifiedQueueManager.get_due_content Iso8601.codec
    {| UnifiedQueueManager.queue := [Demo.item_a];
       UnifiedQueueManager.posting_history := [] |}
    5000000000
    {| UnifiedQueueManager.clock := ticks Demo.nine_o_clock;
       UnifiedQueueManager.log := [] |}
  = (Raise (OverflowError "date value out of range"),
     {| UnifiedQueueManager.clock := ticks Demo.nine_o_clock;
        UnifiedQueueManager.log := [] |}).
Proof. vm_compute. reflexivity. Qed.

(** C8 as stated fails: two different items with one content id can be
    added, so the queue of a reachable state holds the id twice. *)
Lemma add_content_repeats_id :
  let self := @UnifiedQueueManager.run_ops Iso8601.codec
                [UnifiedQueueManager.AddContent Demo.item_a;
                 UnifiedQueueManager.AddContent Demo.item_a']
                UnifiedQueueManager.fresh in
  UnifiedQueueManager.queue self = [Demo.item_a; Demo.item_a']
  ∧ Demo.item_a ≠ Demo.item_a'
  ∧ ¬ unique_ids self.
Proof.
  intros self. split; [by vm_compute|]. split; [done|].
  unfold unique_ids, queue_ids. vm_compute.
  intros [Hin _]%NoDup_cons. apply Hin. constructor.
Qed.

Lemma unique_ids_preserved_witness :
  unique_ids (UnifiedQueueManager.add_content Demo.item_b
               (UnifiedQueueManager.add_content Demo.item_a
                  UnifiedQueueManager.fresh)).
Proof.
  refine (proj1 (unique_ids_preserved (H := Iso8601.codec)
                   (UnifiedQueueManager.add_content Demo.item_a
                      UnifiedQueueManager.fresh) _) Demo.item_b _).
  - vm_compute. apply NoDup_singleton.
  - vm_compute. intros [=]%list_elem_of_singleton.
Defined.

(** C7 as stated fails: an item that was posted and is queued again stays
    in both the queue and the history when another item is marked as
    posted. *)
Lemma mark_posted_not_exclusive :
  let self := @UnifiedQueueManager.run_ops Iso8601.codec
                [UnifiedQueueManager.AddContent Demo.item_a;
                 UnifiedQueueManager.MarkPosted Demo.nine_o_clock Demo.item_a "p1";
                 UnifiedQueueManager.AddContent Demo.item_a;
                 UnifiedQueueManager.AddContent Demo.item_b;
                 UnifiedQueueManager.MarkPosted Demo.nine_o_clock Demo.item_b "p2"]
                UnifiedQueueManager.fresh in
  queue_ids self = ["a"] ∧ history_ids self = ["a"; "b"] ∧ ¬ exclusive self.
Proof.
  intros self. split; [by vm_compute|]. split; [by vm_compute|].
  intros Hex. apply (Hex "a"); vm_compute; constructor.
Qed.

Lemma mark_posted_exclusive_witness :
  let self := UnifiedQueueManager.add_content Demo.item_b
                (UnifiedQueueManager.add_content Demo.item_a
                   UnifiedQueueManager.fresh) in
  exclusive (@UnifiedQueueManager.mark_posted Iso8601.codec
               Demo.nine_o_clock Demo.item_a "p1" self).
Proof.
  intros self.
  refine (proj1 (proj2 (proj2 (proj2 (mark_posted_exclusive (H := Iso8601.codec)
            Demo.nine_o_clock Demo.item_a "p1" self)))) _).
  intros cid _. vm_compute. apply not_elem_of_nil.
Defined.

(** ** social_publisher.py *)

Section social_media_publisher.
Import SocialMediaPublisher.

Lemma capacity_pos platform : 0 < capacity platform.
Proof.
  unfold capacity.
  destruct (_ !! platform) as [c|] eqn:Hc; simpl; [|lia].
  apply lookup_insert_Some in Hc as [[_ <-]|[_ Hc]]; [lia|].
  apply lookup_insert_Some in Hc as [[_ <-]|[_ Hc]]; [lia|].
  apply lookup_singleton_Some in Hc as [_ <-]. lia.
Qed.

Lemma check_rate_limit_spec platform self b :
  rate_limits self !! platform = Some b →
  let b' := refreshed platform (clock (world self)) b in
  _check_rate_limit platform self
  = (Ok (0 <? remaining b'),
     set_rate_limits <[platform := consumed b']> self).
Proof.
  intros Hb b'. subst b'. unfold refreshed, consumed.
  unfold _check_rate_limit, time_time, get, gets, modify,
    mbind, M_bind, bind, mret, M_ret, ret.
  simpl. rewrite Hb. simpl.
  destruct (reset_time b <? clock (world self)); simpl.
  - destruct (0 <? capacity platform); done.
  - destruct (0 <? remaining b); done.
Qed.

Lemma check_rate_limit_unlimited platform self :
  rate_limits self !! platform = None →
  _check_rate_limit platform self = (Ok true, self).
Proof.
  intros Hb.
  unfold _check_rate_limit, get, mbind, M_bind, bind, mret, M_ret, ret.
  by rewrite Hb.
Qed.

Lemma allowance_results_pass r n :
  0 < r → true :: allowance_results (r - 1) n = allowance_results r (S n).
Proof.
  intros Hr. unfold allowance_results.
  replace (Z.to_nat r) with (S (Z.to_nat (r - 1))) by lia. done.
Qed.

Lemma allowance_results_refuse n :
  false :: allowance_results 0 n = allowance_results 0 (S n).
Proof.
  unfold allowance_results. simpl. by rewrite Nat.min_0_r, Nat.sub_0_r.
Qed.

(** While the window is open the allowance only goes down, and at zero
    it stays. *)
Lemma check_all_open_window platform times : ∀ self b,
  rate_limits self !! platform = Some b →
  0 ≤ remaining b →
  Forall (λ now, now ≤ reset_time b) times →
  ∃ self',
    check_all platform times self
    = (Ok (allowance_results (remaining b) (length times)), self')
    ∧ rate_limits self'
      = <[platform := {| remaining :=
                           Z.max 0 (remaining b - Z.of_nat (length times));
                         reset_time := reset_time b |}]> (rate_limits self).
Proof.
  induction times as [|now times IH]; intros self b Hb Hr Hopen.
  { exists self. split; [done|]. simpl.
    rewrite Z.sub_0_r, Z.max_r by done. rewrite insert_id; [done|].
    by destruct b. }
  apply Forall_cons_1 in Hopen as [Hnow Hopen]. simpl in Hnow.
  simpl. unfold check_at.
  unfold mbind at 1, M_bind at 1, bind at 1.
  unfold mbind at 1, M_bind at 1, bind at 1. simpl.
  rewrite (check_rate_limit_spec platform (set_clock now self) b Hb). simpl.
  unfold refreshed. destruct (Z.ltb_spec (reset_time b) now); [lia|].
  unfold consumed.
  destruct (Z.ltb_spec 0 (remaining b)) as [Hpos|Hzero].
  - edestruct (IH (set_rate_limits
                     <[platform := {| remaining := remaining b - 1;
                                      reset_time := reset_time b |}]>
                     (set_clock now self))
                  {| remaining := remaining b - 1;
                     reset_time := reset_time b |})
      as (self' & Hrun & Hlimits); simpl.
    { apply lookup_insert_eq. } { lia. } { done. }
    exists self'. unfold mbind, M_bind, bind in *. rewrite Hrun. simpl.
    split.
    + unfold mret, M_ret, ret. by rewrite allowance_results_pass.
    + rewrite Hlimits. simpl. rewrite insert_insert_eq.
      do 3 f_equal. lia.
  - assert (remaining b = 0) as Hr0 by lia.
    edestruct (IH (set_rate_limits <[platform := b]> (set_clock now self)) b)
      as (self' & Hrun & Hlimits); simpl.
    { apply lookup_insert_eq. } { lia. } { done. }
    exists self'. unfold mbind, M_bind, bind in *. rewrite Hrun. simpl.
    rewrite Hr0 in *. split.
    + unfold mret, M_ret, ret. by rewrite allowance_results_refuse.
    + rewrite Hlimits. simpl. rewrite insert_insert_eq.
      rewrite !Z.max_l by lia. done.
Qed.

(** C5: the first call after the clock has passed [reset_time] refills
    the allowance to the platform's fixed capacity [C] and opens a window
    of one hour; that call and the next [C - 1] calls inside the window
    pass, and every further call up to the new [reset_time] is refused
    and leaves the count at 0. *)
Theorem rate_limit_window (platform : string) (self : t) (b : RateBudget)
    (now : Z) (times : list Z) :
  rate_limits self !! platform = Some b →
  reset_time b < now →
  Forall (λ now', now' ≤ now + seconds 3600) times →
  ∃ self',
    check_all platform (now :: times) self
    = (Ok (allowance_results (capacity platform) (S (length times))), self')
    ∧ rate_limits self'
      = <[platform :=
            {| remaining :=
                 Z.max 0 (capacity platform - Z.of_nat (S (length times)));
               reset_time := now + seconds 3600 |}]> (rate_limits self).
Proof.
  intros Hb Hpassed Hopen.
  pose proof (capacity_pos platform) as Hcap.
  simpl. unfold check_at.
  unfold mbind at 1, M_bind at 1, bind at 1.
  unfold mbind at 1, M_bind at 1, bind at 1. simpl.
  rewrite (check_rate_limit_spec platform (set_clock now self) b Hb). simpl.
  unfold refreshed. destruct (Z.ltb_spec (reset_time b) now); [|lia].
  unfold consumed. simpl.
  destruct (Z.ltb_spec 0 (capacity platform)); [|lia].
  edestruct (check_all_open_window platform times
               (set_rate_limits
                  <[platform := {| remaining := capacity platform - 1;
                                   reset_time := now + seconds 3600 |}]>
                  (set_clock now self))
               {| remaining := capacity platform - 1;
                  reset_time := now + seconds 3600 |})
    as (self' & Hrun & Hlimits); simpl.
  { apply lookup_insert_eq. } { lia. } { done. }
  exists self'. unfold mbind, M_bind, bind in *. rewrite Hrun. simpl.
  split.
  - unfold mret, M_ret, ret. by rewrite allowance_results_pass.
  - rewrite Hlimits. simpl. rewrite insert_insert_eq. do 3 f_equal. lia.
Qed.

(** *** Throttling *)

Lemma set_rate_limits_id platform self b :
  rate_limits self !! platform = Some b →
  set_rate_limits <[platform := b]> self = self.
Proof.
  intros Hb. destruct self. unfold set_rate_limits. simpl in *.
  by rewrite insert_id.
Qed.

Lemma check_rate_limit_exhausted platform self :
  exhausted platform self →
  _check_rate_limit platform self = (Ok false, self).
Proof.
  intros (b & Hb & Hr & Hopen).
  rewrite (check_rate_limit_spec platform self b Hb).
  unfold refreshed. destruct (Z.ltb_spec (reset_time b) (clock (world self)));
    [lia|].
  unfold consumed. destruct (Z.ltb_spec 0 (remaining b)); [lia|].
  by rewrite set_rate_limits_id.
Qed.

Lemma throttle_exhausted platform self :
  exhausted platform self → throttle platform self = (Ok tt, delayed self).
Proof.
  intros Hex. unfold throttle, mbind, M_bind, bind.
  by rewrite check_rate_limit_exhausted.
Qed.

(** [throttle] always returns, and makes no request. *)
Lemma throttle_returns platform self :
  ∃ self', throttle platform self = (Ok tt, self')
           ∧ responses (world self') = responses (world self).
Proof.
  unfold throttle, mbind, M_bind, bind.
  destruct (rate_limits self !! platform) as [b|] eqn:Hb.
  - rewrite (check_rate_limit_spec platform self b Hb).
    destruct (0 <? remaining _); simpl; eauto.
  - rewrite check_rate_limit_unlimited by done. simpl. eauto.
Qed.

(** *** What a publish attempt leaves alone *)

Lemma same_budget_refl self : same_budget self self.
Proof. by repeat split. Qed.

Lemma same_budget_trans s1 s2 s3 :
  same_budget s1 s2 → same_budget s2 s3 → same_budget s1 s3.
Proof.
  intros (? & ? & ? & ?) (? & ? & ? & ?). repeat split; congruence.
Qed.

Lemma keeps_budget_ret {A} (a : A) : keeps_budget (ret a).
Proof. intros self. apply same_budget_refl. Qed.

Lemma keeps_budget_raise {A} e : keeps_budget (raise (A := A) e).
Proof. intros self. apply same_budget_refl. Qed.

Lemma keeps_budget_get : keeps_budget get.
Proof. intros self. apply same_budget_refl. Qed.

Lemma keeps_budget_gets {A} (f : t → A) : keeps_budget (gets f).
Proof. intros self. apply same_budget_refl. Qed.

Lemma keeps_budget_lift_result {A} (r : result A) :
  keeps_budget (lift_result r).
Proof. intros self. apply same_budget_refl. Qed.

Lemma keeps_budget_bind {A B} (m : M t A) (k : A → M t B) :
  keeps_budget m → (∀ a, keeps_budget (k a)) → keeps_budget (bind m k).
Proof.
  intros Hm Hk self. specialize (Hm self). unfold bind.
  destruct (m self) as [[a|e] s1]; simpl in *; [|done].
  eapply same_budget_trans; [exact Hm|apply Hk].
Qed.

Lemma keeps_budget_try_except {A} (m : M t A) (h : exn → M t A) :
  keeps_budget m → (∀ e, keeps_budget (h e)) → keeps_budget (try_except m h).
Proof.
  intros Hm Hh self. specialize (Hm self). unfold try_except.
  destruct (m self) as [[a|e] s1]; simpl in *; [done|].
  eapply same_budget_trans; [exact Hm|apply Hh].
Qed.

Lemma keeps_budget_http r : keeps_budget (http r).
Proof.
  intros self. unfold http.
  destruct (responses (world self)) as [|[data|e] rs]; by repeat split.
Qed.

Lemma keeps_budget_tokens f : keeps_budget (modify (set_page_access_tokens f)).
Proof. intros self. by repeat split. Qed.

Lemma keeps_budget_history f : keeps_budget (modify (set_publishing_history f)).
Proof. intros self. by repeat split. Qed.

(** Takes a goal [keeps_budget m] apart along the structure of [m]. *)
Ltac keeps_budget :=
  repeat first
    [ apply keeps_budget_ret | apply keeps_budget_raise
    | apply keeps_budget_get | apply keeps_budget_gets
    | apply keeps_budget_lift_result
    | apply keeps_budget_http | apply keeps_budget_tokens
    | apply keeps_budget_history
    | apply keeps_budget_bind; [|intros ?]
    | apply keeps_budget_try_except; [|intros ?]
    | match goal with
      | |- keeps_budget (if ?b then _ else _) => destruct b
      | |- keeps_budget (match ?x with _ => _ end) => destruct x
      end ].

Lemma keeps_budget_image_present image_path :
  keeps_budget (image_present image_path).
Proof. unfold image_present. keeps_budget. Qed.

(** Looking for the image never changes the publisher. *)
Lemma image_present_state image_path self :
  ∃ r, image_present image_path self = (r, self).
Proof.
  unfold image_present. destruct (truthy image_path); [|by eexists].
  rewrite bind_get. by eexists.
Qed.

Lemma keeps_budget_get_page_access_token page_id :
  keeps_budget (_get_page_access_token page_id).
Proof. unfold _get_page_access_token. keeps_budget. Qed.

Lemma keeps_budget_post_facebook_text message link page_id :
  keeps_budget (_post_facebook_text message link page_id).
Proof. unfold _post_facebook_text. keeps_budget. Qed.

Lemma keeps_budget_post_facebook_photo message image_path page_id :
  keeps_budget (_post_facebook_photo message image_path page_id).
Proof. unfold _post_facebook_photo. keeps_budget. Qed.

Context `{!IsoFormat}.

Lemma keeps_budget_facebook_attempt content link image_path template_name
    target_page_id :
  keeps_budget (facebook_attempt content link image_path template_name
                                 target_page_id).
Proof.
  unfold facebook_attempt, _record_publish, succeeded, failure, datetime_now,
    image_present.
  keeps_budget.
Qed.

(** The attempt itself never raises: its handler turns every exception
    into a failure result. *)
Lemma facebook_attempt_returns content link image_path template_name
    target_page_id self :
  ∃ r self', facebook_attempt content link image_path template_name
                              target_page_id self = (Ok r, self').
Proof.
  unfold facebook_attempt, try_except.
  match goal with
  | |- context [ (?m ≫= ?k) self ] => destruct ((m ≫= k) self) as [[r|e] s1]
  end; [eauto|].
  unfold failure, datetime_now. rewrite bind_gets. eauto.
Qed.

(** With budget left in an open window the attempt is made at once, on
    the publisher with one request taken off. *)
Lemma publish_to_facebook_within_budget self b content link image_path
    template_name page_id :
  truthy (fb_page_token self) = true →
  truthy (py_or page_id (fb_page_id self)) = true →
  rate_limits self !! "facebook" = Some b →
  0 < remaining b →
  clock (world self) ≤ reset_time b →
  publish_to_facebook content link image_path template_name page_id self
  = facebook_attempt content link image_path template_name
                     (py_or page_id (fb_page_id self))
                     (spent_one "facebook" self).
Proof.
  intros Htoken Hpage Hb Hr Hopen.
  unfold publish_to_facebook. rewrite bind_get, Hpage, Htoken. simpl.
  unfold throttle, mbind, M_bind, bind.
  rewrite (check_rate_limit_spec "facebook" self b Hb).
  unfold refreshed. destruct (Z.ltb_spec (reset_time b) (clock (world self)));
    [lia|].
  unfold consumed. destruct (Z.ltb_spec 0 (remaining b)); [|lia]. simpl.
  unfold spent_one, set_rate_limits. by rewrite Hb.
Qed.

(** Whatever the budget says, the attempt is made. *)
Lemma publish_to_facebook_attempts self b content link image_path
    template_name page_id :
  truthy (fb_page_token self) = true →
  truthy (py_or page_id (fb_page_id self)) = true →
  rate_limits self !! "facebook" = Some b →
  clock (world self) ≤ reset_time b →
  publish_to_facebook content link image_path template_name page_id self
  = facebook_attempt content link image_path template_name
                     (py_or page_id (fb_page_id self))
                     (if 0 <? remaining b then spent_one "facebook" self
                      else delayed self).
Proof.
  intros Htoken Hpage Hb Hopen.
  destruct (Z.ltb_spec 0 (remaining b)) as [Hr|Hr].
  - by eapply publish_to_facebook_within_budget.
  - unfold publish_to_facebook. rewrite bind_get, Hpage, Htoken. simpl.
    unfold mbind, M_bind, bind. rewrite throttle_exhausted; [done|].
    exists b. auto.
Qed.

Lemma repeat_publish_to_facebook content link image_path template_name
    page_id (n : nat) : ∀ self b,
  truthy (fb_page_token self) = true →
  truthy (py_or page_id (fb_page_id self)) = true →
  rate_limits self !! "facebook" = Some b →
  0 ≤ remaining b →
  clock (world self) + seconds (60 * Z.of_nat n) ≤ reset_time b →
  repeat_call n
    (publish_to_facebook content link image_path template_name page_id) self
  = attempts_on_allowance (Z.to_nat (remaining b)) n
      (facebook_attempt content link image_path template_name
                        (py_or page_id (fb_page_id self)))
      self.
Proof.
  induction n as [|n IH]; intros self b Htoken Hpage Hb Hr Hopen; [done|].
  simpl. rewrite bind_modify.
  rewrite (bind_unfold (publish_to_facebook _ _ _ _ _)).
  rewrite (bind_unfold (facebook_attempt _ _ _ _ _)).
  rewrite (publish_to_facebook_attempts self b)
    by (done || (unfold seconds in *; lia)).
  set (s0 := if 0 <? remaining b then spent_one "facebook" self
             else delayed self).
  assert (Hs0 : s0 = match Z.to_nat (remaining b) with
                     | O => delayed
                     | S _ => spent_one "facebook"
                     end self).
  { subst s0. destruct (Z.ltb_spec 0 (remaining b)).
    - by destruct (Z.to_nat (remaining b)) eqn:?; [lia|].
    - by replace (remaining b) with 0 by lia. }
  rewrite <- Hs0.
  destruct (facebook_attempt_returns content link image_path template_name
              (py_or page_id (fb_page_id self)) s0) as (r1 & s1 & Hattempt).
  pose proof (keeps_budget_facebook_attempt content link image_path
                template_name (py_or page_id (fb_page_id self)) s0) as Hkeep.
  rewrite Hattempt in Hkeep |- *. simpl in Hkeep.
  destruct Hkeep as (Hlimits & Hclock & Hid & Htok).
  assert (Hids : fb_page_id s0 = fb_page_id self
                 ∧ fb_page_token s0 = fb_page_token self).
  { subst s0. by destruct (0 <? remaining b). }
  destruct Hids as [Hid0 Htok0].
  assert (Hb1 : ∃ b1, rate_limits s1 !! "facebook" = Some b1
                      ∧ Z.to_nat (remaining b1) = pred (Z.to_nat (remaining b))
                      ∧ 0 ≤ remaining b1
                      ∧ clock (world s1) + seconds (60 * Z.of_nat n)
                        ≤ reset_time b1).
  { rewrite Hlimits, Hclock. subst s0.
    destruct (Z.ltb_spec 0 (remaining b)).
    - exists {| remaining := remaining b - 1; reset_time := reset_time b |}.
      unfold spent_one, set_rate_limits. simpl. rewrite Hb.
      split; [apply lookup_insert_eq|]. simpl. unfold seconds in *.
      repeat split; lia.
    - exists b. unfold delayed, seconds in *. simpl. repeat split; [done|lia..]. }
  destruct Hb1 as (b1 & Hb1 & Hpred & Hr1 & Hopen1).
  rewrite (bind_unfold (repeat_call _ _)).
  rewrite (bind_unfold (attempts_on_allowance _ _ _)).
  rewrite (IH s1 b1); [|congruence| |done..].
  - rewrite Hpred, Hid. by rewrite Hid0.
  - rewrite Hid, Hid0. done.
Qed.

(** C4, as the code has it: with the budget of a platform used up inside
    the window, [_check_rate_limit] returns [False] and leaves the budget
    as it is, and the publish attempt is delayed by a fixed 60 seconds
    and then carried out all the same: it is exactly the attempt made
    with budget, started from the publisher as it is after the wait.  So
    [n] attempts in a row inside a window with [r] requests left are all
    carried out, the first [r] at once and each later one after its
    wait. *)
Theorem exhausted_budget_delays_publish (self : t)
    (content link : string) (image_path : option string)
    (template_name : string) (page_id : option string) :
  truthy (fb_page_token self) = true →
  (exhausted "facebook" self →
     truthy (py_or page_id (fb_page_id self)) = true →
     _check_rate_limit "facebook" self = (Ok false, self)
     ∧ publish_to_facebook content link image_path template_name page_id self
       = facebook_attempt content link image_path template_name
                          (py_or page_id (fb_page_id self)) (delayed self))
  ∧ (exhausted "threads" self →
     _check_rate_limit "threads" self = (Ok false, self)
     ∧ publish_to_threads content link image_path template_name self
       = threads_attempt content link image_path template_name
                         (delayed self))
  ∧ (∀ (b : RateBudget) (n : nat),
       truthy (py_or page_id (fb_page_id self)) = true →
       rate_limits self !! "facebook" = Some b →
       0 ≤ remaining b →
       clock (world self) + seconds (60 * Z.of_nat n) ≤ reset_time b →
       repeat_call n
         (publish_to_facebook content link image_path template_name page_id)
         self
       = attempts_on_allowance (Z.to_nat (remaining b)) n
           (facebook_attempt content link image_path template_name
                             (py_or page_id (fb_page_id self)))
           self).
Proof.
  intros Htoken. split; [|split].
  - intros Hex Hpage. split; [by apply check_rate_limit_exhausted|].
    unfold publish_to_facebook. rewrite bind_get, Hpage, Htoken. simpl.
    unfold mbind, M_bind, bind. by rewrite throttle_exhausted.
  - intros Hex. split; [by apply check_rate_limit_exhausted|].
    unfold publish_to_threads. rewrite bind_get, Htoken. simpl.
    unfold mbind, M_bind, bind. by rewrite throttle_exhausted.
  - intros b n Hpage Hb Hr Hopen. by apply repeat_publish_to_facebook.
Qed.

(** *** Instagram *)

Lemma publish_to_instagram_fails (content : string)
    (image_path : option string) (template_name : string) (self : t) :
  match instagram_failure self image_path with
  | Ok msg =>
      ∃ r self',
        publish_to_instagram content image_path template_name self
        = (Ok r, self')
        ∧ success r = false
        ∧ post_id r = None
        ∧ platform r = "instagram"
        ∧ error_message r = Some msg
        ∧ responses (world self') = responses (world self)
  | Raise e =>
      publish_to_instagram content image_path template_name self
      = (Raise e, self)
  end.
Proof.
  unfold publish_to_instagram, instagram_failure. rewrite bind_get.
  destruct (negb (truthy (ig_account_id self))
            || negb (truthy (ig_access_token self))).
  { do 2 eexists. split; [reflexivity|]. done. }
  rewrite bind_unfold. unfold image_present.
  destruct (truthy image_path); cbn [negb].
  2:{ do 2 eexists. split; [reflexivity|]. done. }
  rewrite bind_get. unfold lift_result.
  destruct (path_exists (world self) (str_opt image_path)) as [[|]|e];
    cbn [negb]; [| |done].
  - destruct (throttle_returns "instagram" self) as (self' & Hth & Hresp).
    unfold mbind, M_bind, bind. rewrite Hth.
    do 2 eexists. split; [reflexivity|]. done.
  - do 2 eexists. split; [reflexivity|]. done.
Qed.
End social_media_publisher.

(** C4 as stated fails: with three requests left in the window, the fourth
    of four publish attempts in a row waits 60 seconds and is then
    published like the first three. *)
Lemma fourth_attempt_is_published :
  let '(results, self') :=
    repeat_call 4
      (@SocialMediaPublisher.publish_to_facebook Iso8601.codec
         "text" "https://cocalc.com" None "demo" None)
      Demo.publisher in
  (∃ rs, results = Ok rs
         ∧ SocialMediaPublisher.success <$> rs = [true; true; true; true]
         ∧ SocialMediaPublisher.post_id <$> rs
           = [Some "post-1"; Some "post-2"; Some "post-3"; Some "post-4"])
  ∧ SocialMediaPublisher.trace (SocialMediaPublisher.world self')
    = [ SocialMediaPublisher.Http
          (SocialMediaPublisher.GetPageToken "698630966948910"
                                             (Some "user-token")) ;
        SocialMediaPublisher.Http
          (SocialMediaPublisher.PostFeed "698630966948910" "text"
                                         "https://cocalc.com" "page-token") ;
        SocialMediaPublisher.Http
          (SocialMediaPublisher.PostFeed "698630966948910" "text"
                                         "https://cocalc.com" "page-token") ;
        SocialMediaPublisher.Http
          (SocialMediaPublisher.PostFeed "698630966948910" "text"
                                         "https://cocalc.com" "page-token") ;
        SocialMediaPublisher.Sleep (seconds 60) ;
        SocialMediaPublisher.Http
          (SocialMediaPublisher.PostFeed "698630966948910" "text"
                                         "https://cocalc.com" "page-token") ].
Proof. vm_compute. split; [eexists; split; [reflexivity|]|]; done. Qed.

(** ** smart_scheduler.py *)

Section smart_scheduler.
Import SmartScheduler.
Context {P : Type} `{!Publisher P} `{!IsoFormat}.

(** *** Template selection *)





(** *** Publishing and rescheduling *)

Lemma reschedule_post_parsed post (self : t P) old :
  fromisoformat (scheduled_time (heap self post)) = Ok old →
  can_add old (hours 1) →
  _reschedule_post post self
  = (Ok tt,
     set_heap <[post := set_scheduled_time (isoformat (dt_add old (hours 1)))
                                           (heap self post)]> self).
Proof.
  intros Hold Hadd.
  unfold _reschedule_post, try_except. rewrite bind_gets, bind_unfold.
  unfold lift_result at 1. rewrite Hold, bind_unfold. unfold lift_result.
  by rewrite (checked_sum_can_add _ _ Hadd).
Qed.

Lemma reschedule_post_overflow post (self : t P) old :
  fromisoformat (scheduled_time (heap self post)) = Ok old →
  ¬ can_add old (hours 1) →
  _reschedule_post post self = (Ok tt, self).
Proof.
  intros Hold Hadd.
  unfold _reschedule_post, try_except. rewrite bind_gets, bind_unfold.
  unfold lift_result at 1. rewrite Hold, bind_unfold. unfold lift_result.
  by destruct (checked_sum_overflows _ _ Hadd) as [msg ->].
Qed.

Lemma reschedule_post_unparsed post (self : t P) e :
  fromisoformat (scheduled_time (heap self post)) = Raise e →
  _reschedule_post post self = (Ok tt, self).
Proof.
  intros Hold.
  unfold _reschedule_post, try_except, gets, lift_result, modify,
    mbind, M_bind, bind.
  by rewrite Hold.
Qed.

(** [_reschedule_post] always returns: it has moved the post by one hour,
    or, when its [try] block raised, done nothing. *)
Lemma reschedule_post_cases post (self : t P) :
  ∃ self',
    _reschedule_post post self = (Ok tt, self')
    ∧ (self' = self
       ∨ ∃ old, fromisoformat (scheduled_time (heap self post)) = Ok old
                ∧ can_add old (hours 1)
                ∧ self' = set_heap
                            <[post := set_scheduled_time
                                        (isoformat (dt_add old (hours 1)))
                                        (heap self post)]> self).
Proof.
  destruct (fromisoformat (scheduled_time (heap self post)))
    as [old|e] eqn:Hparse.
  - destruct (decide (can_add old (hours 1))) as [Hadd|Hadd].
    + rewrite (reschedule_post_parsed _ _ _ Hparse Hadd).
      eexists. split; [reflexivity|]. right. by exists old.
    + rewrite (reschedule_post_overflow _ _ _ Hparse Hadd). eauto.
  - rewrite (reschedule_post_unparsed _ _ _ Hparse). eauto.
Qed.

(** [publish_post] in terms of the publisher's answer. *)
Lemma publish_post_publishable post (self : t P) outcome pub' :
  publishable (heap self post) →
  publisher_call (heap self post) (publisher self) = (outcome, pub') →
  publish_post post self
  = match outcome with
    | Ok r =>
        if SocialMediaPublisher.success r then
          (Ok true,
           set_queue (filter (λ p, heap self p ≠ heap self post))
                     (set_publisher pub' self))
        else
          (let '(_, self') := _reschedule_post post (set_publisher pub' self)
           in (Ok false, self'))
    | Raise _ =>
        (let '(_, self') := _reschedule_post post (set_publisher pub' self)
         in (Ok false, self'))
    end.
Proof.
  assert (Hres : ∀ s : t P, ∃ s', _reschedule_post post s = (Ok tt, s')).
  { intros s. destruct (reschedule_post_cases post s) as (s' & -> & _).
    eauto. }
  intros Hp Hcall. unfold publisher_call in Hcall.
  unfold publish_post, try_except, gets.
  unfold mbind at 1, M_bind at 1, bind at 1.
  assert (Hfinish : ∀ m : M P SocialMediaPublisher.PublishResult,
    m (publisher self) = (outcome, pub') →
    match (on_publisher m ≫= after_publish post) self with
    | (Ok a, s') => (Ok a, s')
    | (Raise _, s') => (_reschedule_post post ≫= λ _, mret false) s'
    end
    = match outcome with
      | Ok r =>
          if SocialMediaPublisher.success r then
            (Ok true,
             set_queue (filter (λ p, heap self p ≠ heap self post))
                       (set_publisher pub' self))
          else
            (let '(_, self') :=
               _reschedule_post post (set_publisher pub' self)
             in (Ok false, self'))
      | Raise _ =>
          (let '(_, self') := _reschedule_post post (set_publisher pub' self)
           in (Ok false, self'))
      end).
  { intros m Hm. unfold on_publisher, zoom, mbind, M_bind, bind.
    rewrite Hm. destruct outcome as [r|e].
    - unfold after_publish. destruct (SocialMediaPublisher.success r).
      + done.
      + unfold mbind, M_bind, bind.
        destruct (Hres (set_publisher pub' self)) as [s' ->]. done.
    - destruct (Hres (set_publisher pub' self)) as [s' ->]. done. }
  destruct (decide (platform (heap self post) = "facebook")) as [Hfb|Hfb].
  { by apply Hfinish. }
  destruct (decide (platform (heap self post) = "threads")) as [Hth|Hth].
  { by apply Hfinish. }
  destruct Hp as [?|[?|[Hig Himg]]]; [done..|].
  rewrite decide_True by done. rewrite Himg. simpl.
  by apply Hfinish.
Qed.

(** C6: when the publish for a post whose scheduled time parses fails,
    by a result that reports failure or by an exception, the post stays
    in the queue; when the old time plus one hour is a time Python can
    represent, the scheduled time becomes exactly that, and nothing else
    about the post, nor any other post, changes; when it is not, the
    [OverflowError] is swallowed and no post changes at all.  When the
    publish succeeds the post is taken out of the queue. *)
Theorem publish_post_reschedules_or_removes (post : loc) (self : t P)
    (outcome : result SocialMediaPublisher.PublishResult) (pub' : P) :
  publishable (heap self post) →
  publisher_call (heap self post) (publisher self) = (outcome, pub') →
  (publish_failed outcome →
   ∀ old, fromisoformat (scheduled_time (heap self post)) = Ok old →
     (can_add old (hours 1) →
      ∃ self',
        publish_post post self = (Ok false, self')
        ∧ queue self' = queue self
        ∧ scheduled_time (heap self' post)
          = isoformat (dt_add old (hours 1))
        ∧ same_but_scheduled_time (heap self post) (heap self' post)
        ∧ (∀ other, other ≠ post → heap self' other = heap self other))
     ∧ (¬ can_add old (hours 1) →
        publish_post post self = (Ok false, set_publisher pub' self)))
  ∧ (¬ publish_failed outcome →
     ∃ self',
       publish_post post self = (Ok true, self')
       ∧ queue self' = filter (λ p, heap self p ≠ heap self post) (queue self)
       ∧ (post ∉ queue self')
       ∧ heap self' = heap self).
Proof.
  intros Hp Hcall.
  rewrite (publish_post_publishable post self outcome pub' Hp Hcall).
  split.
  - intros Hfail old Hold. split.
    + intros Hadd.
      assert (Hre : _reschedule_post post (set_publisher pub' self)
                    = (Ok tt,
                       set_heap <[post := set_scheduled_time
                                            (isoformat (dt_add old (hours 1)))
                                            (heap self post)]>
                                (set_publisher pub' self))).
      { exact (reschedule_post_parsed post (set_publisher pub' self) old
                 Hold Hadd). }
      eexists. split.
      { destruct outcome as [r|e]; simpl in Hfail.
        - rewrite Hfail, Hre. reflexivity.
        - rewrite Hre. reflexivity. }
      simpl. rewrite fn_lookup_insert. repeat split; try done.
      intros other Hne. by rewrite fn_lookup_insert_ne.
    + intros Hadd.
      assert (Hre : _reschedule_post post (set_publisher pub' self)
                    = (Ok tt, set_publisher pub' self)).
      { exact (reschedule_post_overflow post (set_publisher pub' self) old
                 Hold Hadd). }
      destruct outcome as [r|e]; simpl in Hfail.
      * by rewrite Hfail, Hre.
      * by rewrite Hre.
  - intros Hok. destruct outcome as [r|e]; simpl in Hok; [|done].
    destruct (SocialMediaPublisher.success r); [|done].
    eexists. split; [reflexivity|]. simpl. split; [done|]. split; [|done].
    intros [Hne _]%list_elem_of_filter. done.
Qed.

Lemma same_but_scheduled_time_refl p : same_but_scheduled_time p p.
Proof. by repeat split. Qed.

(** [_reschedule_post] always returns; it leaves the queue alone and
    changes at most the scheduled time of the post. *)
Lemma reschedule_post_frame post (self : t P) :
  ∃ self',
    _reschedule_post post self = (Ok tt, self')
    ∧ queue self' = queue self
    ∧ publisher self' = publisher self
    ∧ same_but_scheduled_time (heap self post) (heap self' post)
    ∧ (∀ old, fromisoformat (scheduled_time (heap self post)) = Ok old →
         if decide (can_add old (hours 1))
         then scheduled_time (heap self' post)
              = isoformat (dt_add old (hours 1))
         else heap self' = heap self).
Proof.
  destruct (reschedule_post_cases post self)
    as (self' & Hrun & [->|(old & Hparse & Hadd & ->)]).
  - exists self. split; [done|]. do 2 (split; [done|]).
    split; [apply same_but_scheduled_time_refl|].
    intros old Hold. case_decide as Hadd; [|done].
    rewrite (reschedule_post_parsed _ _ _ Hold Hadd) in Hrun.
    injection Hrun as Hself. rewrite <- Hself at 1. simpl.
    by rewrite fn_lookup_insert.
  - eexists. split; [exact Hrun|]. simpl. rewrite fn_lookup_insert.
    do 2 (split; [done|]). split; [by repeat split|].
    intros old' Hold'. assert (old' = old) as -> by congruence.
    by rewrite decide_True.
Qed.

Lemma publish_post_no_image post (self : t P) :
  platform (heap self post) = "instagram" →
  truthy (image_path (heap self post)) = false →
  publish_post post self = (Ok false, self).
Proof.
  intros Hig Himg. unfold publish_post, try_except.
  rewrite bind_gets, Hig, Himg. simpl. done.
Qed.

(** *** The dispatch loop *)

Lemma posts_due_step_spec (w : Z) due post (self : t P) :
  let now := {| ticks := clock self; utcoffset := None |} in
  posts_due_step now (dt_add now (minutes w)) due post self
  = (Ok (if decide (post_due (clock self) w (heap self post))
         then due ++ [post] else due),
     self).
Proof.
  simpl.
  assert (Hdue : post_due (clock self) w (heap self post) ↔
            ∃ tk, fromisoformat (scheduled_time (heap self post))
                  = Ok {| ticks := tk; utcoffset := None |}
                  ∧ clock self ≤ tk ≤ clock self + minutes w).
  { unfold post_due. destruct (fromisoformat _) as [[tk [o|]]|e].
    - split; [done|]. by intros (? & [=] & _).
    - split; [eauto|]. by intros (? & [= <-] & ?).
    - split; [done|]. by intros (? & [=] & _). }
  unfold posts_due_step, try_except. rewrite bind_gets.
  unfold lift_result, dt_le, dt_add, mbind, M_bind, bind, mret, M_ret, ret.
  simpl.
  destruct (decide (post_due _ w _)) as [Hd|Hd]; rewrite Hdue in Hd.
  - destruct Hd as (tk & -> & Htk). simpl.
    destruct (Z.leb_spec (clock self) tk); [|lia]. simpl.
    by destruct (Z.leb_spec tk (clock self + minutes w)); [|lia].
  - destruct (fromisoformat (scheduled_time (heap self post)))
      as [[tk [o|]]|e]; simpl; [done| |done].
    destruct (Z.leb_spec (clock self) tk); simpl; [|done].
    destruct (Z.leb_spec tk (clock self + minutes w)); simpl; [|done].
    destruct Hd. eauto.
Qed.

Lemma posts_due_loop (w : Z) (self : t P) : ∀ q due,
  fold_for q due
    (posts_due_step {| ticks := clock self; utcoffset := None |}
       (dt_add {| ticks := clock self; utcoffset := None |} (minutes w)))
    self
  = (Ok (due ++ filter (λ post, post_due (clock self) w (heap self post)) q),
     self).
Proof.
  induction q as [|post q IH]; intros due; simpl.
  { by rewrite app_nil_r. }
  unfold bind. rewrite posts_due_step_spec, IH, filter_cons.
  destruct (decide (post_due _ w _)); [|done].
  by rewrite <- app_assoc.
Qed.

Lemma get_posts_due_filter (w : Z) (self : t P) :
  can_add {| ticks := clock self; utcoffset := None |} (minutes w) →
  get_posts_due w self
  = (Ok (filter (λ post, post_due (clock self) w (heap self post))
                (queue self)),
     self).
Proof.
  intros Hadd. unfold get_posts_due. rewrite bind_get. cbv zeta.
  rewrite bind_unfold. unfold lift_result.
  rewrite (checked_sum_can_add _ _ Hadd). apply posts_due_loop.
Qed.

Lemma get_posts_due_overflows (w : Z) (self : t P) :
  ¬ can_add {| ticks := clock self; utcoffset := None |} (minutes w) →
  ∃ msg, get_posts_due w self = (Raise (OverflowError msg), self).
Proof.
  intros Hadd. unfold get_posts_due. rewrite bind_get. cbv zeta.
  rewrite bind_unfold. unfold lift_result.
  destruct (checked_sum_overflows _ _ Hadd) as [msg ->]. by exists msg.
Qed.

Lemma same_but_scheduled_time_trans p1 p2 p3 :
  same_but_scheduled_time p1 p2 → same_but_scheduled_time p2 p3 →
  same_but_scheduled_time p1 p3.
Proof.
  unfold same_but_scheduled_time. intros ? ?. destruct_and?.
  repeat split; congruence.
Qed.

Lemma dispatched_refl touched (self : t P) : dispatched touched self self.
Proof.
  do 4 (split; [done|]). intros l. apply same_but_scheduled_time_refl.
Qed.

Lemma dispatched_publisher touched pub' (self self' : t P) :
  dispatched touched (set_publisher pub' self) self' →
  dispatched touched self self'.
Proof. done. Qed.

Lemma dispatched_cons post touched (s1 s2 s3 : t P) :
  dispatched [post] s1 s2 → dispatched touched s2 s3 →
  dispatched (post :: touched) s1 s3.
Proof.
  intros (Hq1 & Hr1 & Ht1 & Hh1 & Hs1) (Hq2 & Hr2 & Ht2 & Hh2 & Hs2).
  split; [by etrans|]. split; [congruence|]. split; [congruence|]. split.
  - intros l [Hne Hl]%not_elem_of_cons. rewrite Hh2 by done.
    apply Hh1. by intros ->%list_elem_of_singleton.
  - intros l. eapply same_but_scheduled_time_trans; [apply Hs1|apply Hs2].
Qed.

Lemma reschedule_post_dispatched post (self : t P) :
  ∃ self', _reschedule_post post self = (Ok tt, self')
           ∧ dispatched [post] self self'
           ∧ queue self' = queue self.
Proof.
  destruct (reschedule_post_cases post self)
    as (self' & Hrun & [->|(old & Hparse & Hadd & ->)]).
  - exists self. split; [done|]. split; [apply dispatched_refl|done].
  - eexists. split; [exact Hrun|]. split; [|done].
    do 3 (split; [done|]). simpl. split.
    + intros l Hl. rewrite fn_lookup_insert_ne; [done|].
      intros <-. apply Hl. by left.
    + intros l. destruct (decide (l = post)) as [->|Hne].
      * rewrite fn_lookup_insert. by repeat split.
      * rewrite fn_lookup_insert_ne by done. by repeat split.
Qed.

Lemma publish_post_dispatched post (self : t P) :
  ∃ ok self', publish_post post self = (Ok ok, self')
              ∧ dispatched [post] self self'
              ∧ (ok = false → queue self' = queue self)
              ∧ (ok = true →
                 queue self'
                 = filter (λ p, heap self p ≠ heap self post) (queue self)).
Proof.
  assert (Hfinish : ∀ m : M P SocialMediaPublisher.PublishResult,
    ∃ ok self',
      match (on_publisher m ≫= after_publish post) self with
      | (Ok a, s') => (Ok a, s')
      | (Raise _, s') => (_reschedule_post post ≫= λ _, mret false) s'
      end = (Ok ok, self')
      ∧ dispatched [post] self self'
      ∧ (ok = false → queue self' = queue self)
      ∧ (ok = true →
         queue self'
         = filter (λ p, heap self p ≠ heap self post) (queue self))).
  { intros m. unfold on_publisher, zoom, mbind, M_bind, bind.
    destruct (m (publisher self)) as [[r|e] pub'].
    - unfold after_publish. destruct (SocialMediaPublisher.success r).
      + eexists _, _. split; [done|]. split; [|done].
        split; [apply sublist_filter|]. do 3 (split; [done|]).
        intros l. apply same_but_scheduled_time_refl.
      + unfold mbind, M_bind, bind.
        destruct (reschedule_post_dispatched post (set_publisher pub' self))
          as (s' & -> & Hd & Hq).
        eexists _, _. split; [done|]. split; [|done].
        by apply (dispatched_publisher _ pub').
    - destruct (reschedule_post_dispatched post (set_publisher pub' self))
        as (s' & -> & Hd & Hq).
      eexists _, _. split; [done|]. split; [|done].
      by apply (dispatched_publisher _ pub'). }
  unfold publish_post, try_except. rewrite bind_gets.
  destruct (decide (platform (heap self post) = "facebook")); [apply Hfinish|].
  destruct (decide (platform (heap self post) = "threads")); [apply Hfinish|].
  destruct (decide (platform (heap self post) = "instagram")).
  - destruct (negb (truthy (image_path (heap self post)))); [|apply Hfinish].
    eexists _, _. split; [done|]. split; [apply dispatched_refl|done].
  - eexists _, _. split; [done|]. split; [apply dispatched_refl|done].
Qed.

End smart_scheduler.

(** ** The scheduler on [SocialMediaPublisher] *)

Section instagram.
Import SmartScheduler.
Context `{!IsoFormat}.

(** One dispatch of an Instagram post: it fails, the post stays queued
    and is still the same Instagram post; without an image path nothing
    at all has changed. *)
Lemma publish_post_instagram post (self : t SocialMediaPublisher.t) :
  platform (heap self post) = "instagram" →
  ∃ self',
    publish_post (Publisher0 := social_media_publisher) post self
    = (Ok false, self')
    ∧ queue self' = queue self
    ∧ same_but_scheduled_time (heap self post) (heap self' post)
    ∧ (∀ other, other ≠ post → heap self' other = heap self other)
    ∧ (truthy (image_path (heap self post)) = false → self' = self)
    ∧ (truthy (image_path (heap self post)) = true →
       ∀ old, fromisoformat (scheduled_time (heap self post)) = Ok old →
         can_add old (hours 1) →
         scheduled_time (heap self' post)
         = isoformat (dt_add old (hours 1))).
Proof.
  intros Hig.
  destruct (truthy (image_path (heap self post))) eqn:Himg.
  - destruct (SocialMediaPublisher.publish_to_instagram
                (content (heap self post)) (image_path (heap self post))
                (template_name (template (heap self post)))
                (publisher self)) as [outcome pub'] eqn:Hcall.
    assert (Hfail : publish_failed outcome).
    { pose proof (publish_to_instagram_fails
                    (content (heap self post)) (image_path (heap self post))
                    (template_name (template (heap self post)))
                    (publisher self)) as Hspec.
      destruct (instagram_failure _ _).
      - destruct Hspec as (r & pub1 & Hrun & Hr & _).
        rewrite Hrun in Hcall. by injection Hcall as <- _.
      - rewrite Hspec in Hcall. by injection Hcall as <- _. }
    rewrite (publish_post_publishable (Publisher0 := social_media_publisher)
               post self outcome pub').
    + destruct (reschedule_post_dispatched post (set_publisher pub' self))
        as (self' & Hrun & Hd & Hq).
      destruct (reschedule_post_frame post (set_publisher pub' self))
        as (self1 & Hrun1 & _ & _ & _ & Htime).
      assert (self1 = self') as -> by congruence.
      destruct Hd as (_ & _ & _ & Hothers & Hsame).
      assert ((let '(_, s) := _reschedule_post post (set_publisher pub' self)
               in (Ok false, s)) = (Ok false, self')) as Hlet
        by (by rewrite Hrun).
      exists self'. split.
      { destruct outcome as [r|e]; simpl in Hfail; [|exact Hlet].
        rewrite Hfail. exact Hlet. }
      split; [done|]. split; [apply Hsame|]. split.
      { intros other Hne. apply Hothers.
        by intros ->%list_elem_of_singleton. }
      split; [done|]. intros _ old Hold Hadd.
      specialize (Htime old Hold). by rewrite decide_True in Htime.
    + right. right. done.
    + unfold publisher_call. rewrite Hig. simpl. exact Hcall.
  - rewrite publish_post_no_image by done.
    exists self. split; [done|]. split; [done|].
    split; [apply same_but_scheduled_time_refl|done].
Qed.

(** A dispatch, of whatever post, takes no Instagram post out of the
    queue. *)
Lemma publish_post_keeps_instagram post (self : t SocialMediaPublisher.t) :
  ∃ ok self',
    publish_post (Publisher0 := social_media_publisher) post self
    = (Ok ok, self')
    ∧ (∀ p, p ∈ queue self → platform (heap self p) = "instagram" →
            p ∈ queue self')
    ∧ (∀ p, platform (heap self' p) = platform (heap self p)).
Proof.
  destruct (publish_post_dispatched
              (Publisher0 := social_media_publisher) post self)
    as (ok & self' & Hrun & Hd & Hfalse & Htrue).
  exists ok, self'. split; [done|]. split.
  - intros p Hp Hig. destruct ok.
    + rewrite Htrue by done. apply list_elem_of_filter. split; [|done].
      intros Heq.
      destruct (publish_post_instagram post self) as (s & Hs & _).
      { by rewrite <- Heq. }
      congruence.
    + by rewrite Hfalse.
  - intros p. destruct Hd as (_ & _ & _ & _ & Hsame).
    destruct (Hsame p) as (_ & -> & _). done.
Qed.

Lemma dispatch_keeps_instagram due : ∀ (self : t SocialMediaPublisher.t),
  ∃ self',
    for_each due
      (λ post, publish_post (Publisher0 := social_media_publisher) post;;
               mret tt) self
    = (Ok tt, self')
    ∧ (∀ p, p ∈ queue self → platform (heap self p) = "instagram" →
            p ∈ queue self')
    ∧ (∀ p, platform (heap self' p) = platform (heap self p)).
Proof.
  induction due as [|post due IH]; intros self.
  { exists self. done. }
  simpl. unfold bind at 1. rewrite bind_unfold.
  destruct (publish_post_keeps_instagram post self)
    as (ok & s1 & -> & Hq1 & Hp1).
  destruct (IH s1) as (s2 & Hrun & Hq2 & Hp2).
  exists s2. split; [exact Hrun|]. split.
  - intros p Hp Hig. apply Hq2; [by apply Hq1|]. by rewrite Hp1.
  - intros p. by rewrite Hp2, Hp1.
Qed.

(** C10: [publish_to_instagram] never reports a success and never makes
    a request: it returns a failure with one of three different reasons
    (no credentials, no image, no image hosting), or raises what looking
    for the image file raises.  So a dispatch of an Instagram post never
    removes it from the queue: the post stays the same Instagram post,
    one hour later when the publisher was called and that time is one
    Python can represent, and exactly as it was when it has no image
    path; and a round of the dispatcher, which looks at the posts due
    within the next minute, leaves every Instagram post queued. *)
Theorem instagram_never_published :
  (∀ content image_path template_name pub,
     let credentials :=
       truthy (SocialMediaPublisher.ig_account_id pub)
       && truthy (SocialMediaPublisher.ig_access_token pub) in
     let found :=
       SocialMediaPublisher.path_exists
         (SocialMediaPublisher.world pub)
         (SocialMediaPublisher.str_opt image_path) in
     let fails msg :=
       ∃ r pub',
         SocialMediaPublisher.publish_to_instagram
           content image_path template_name pub = (Ok r, pub')
         ∧ SocialMediaPublisher.success r = false
         ∧ SocialMediaPublisher.post_id r = None
         ∧ SocialMediaPublisher.error_message r = Some msg
         ∧ SocialMediaPublisher.responses (SocialMediaPublisher.world pub')
           = SocialMediaPublisher.responses (SocialMediaPublisher.world pub) in
     (credentials = false → fails "Missing credentials")
     ∧ (credentials = true → truthy image_path = false →
        fails "Image required for Instagram")
     ∧ (credentials = true → truthy image_path = true →
        found = Ok false → fails "Image required for Instagram")
     ∧ (credentials = true → truthy image_path = true →
        found = Ok true →
        fails "Instagram publishing requires image hosting setup")
     ∧ (credentials = true → truthy image_path = true →
        ∀ e, found = Raise e →
          SocialMediaPublisher.publish_to_instagram
            content image_path template_name pub = (Raise e, pub)))
  ∧ NoDup ["Missing credentials"; "Image required for Instagram";
           "Instagram publishing requires image hosting setup"]
  ∧ (∀ post (self : t SocialMediaPublisher.t),
       platform (heap self post) = "instagram" →
       ∃ self',
         publish_post (Publisher0 := social_media_publisher) post self
         = (Ok false, self')
         ∧ queue self' = queue self
         ∧ same_but_scheduled_time (heap self post) (heap self' post)
         ∧ (∀ other, other ≠ post → heap self' other = heap self other)
         ∧ (truthy (image_path (heap self post)) = false → self' = self)
         ∧ (truthy (image_path (heap self post)) = true →
            ∀ old, fromisoformat (scheduled_time (heap self post)) = Ok old →
              can_add old (hours 1) →
              scheduled_time (heap self' post)
              = isoformat (dt_add old (hours 1))))
  ∧ (∀ self : t SocialMediaPublisher.t,
       can_add {| ticks := clock self; utcoffset := None |} (minutes 1) →
       ∃ self',
         check_and_publish (Publisher0 := social_media_publisher) self
         = (Ok tt, self')
         ∧ ∀ post, post ∈ queue self →
             platform (heap self post) = "instagram" →
             post ∈ queue self' ∧ platform (heap self' post) = "instagram").
Proof.
  split; [|split; [|split]].
  - intros content image_path template_name pub credentials found fails.
    pose proof (publish_to_instagram_fails
                  content image_path template_name pub) as Hspec.
    unfold instagram_failure in Hspec. fold found in Hspec.
    assert (Hcred :
      negb (truthy (SocialMediaPublisher.ig_account_id pub))
      || negb (truthy (SocialMediaPublisher.ig_access_token pub))
      = negb credentials).
    { unfold credentials.
      by destruct (truthy (SocialMediaPublisher.ig_account_id pub)),
                  (truthy (SocialMediaPublisher.ig_access_token pub)). }
    rewrite Hcred in Hspec. unfold fails.
    destruct credentials, (truthy image_path); cbn [negb] in Hspec.
    + split; [done|]. split; [done|].
      destruct found as [[|]|e].
      * split; [done|]. split; [|done]. intros _ _ _.
        destruct Hspec as (r & pub' & ? & ? & ? & ? & ? & ?). eauto 10.
      * split; [|split; [done|done]]. intros _ _ _.
        destruct Hspec as (r & pub' & ? & ? & ? & ? & ? & ?). eauto 10.
      * split; [done|]. split; [done|]. by intros _ _ e' [= <-].
    + split; [done|]. split; [|done]. intros _ _.
      destruct Hspec as (r & pub' & ? & ? & ? & ? & ? & ?). eauto 10.
    + split; [|done]. intros _.
      destruct Hspec as (r & pub' & ? & ? & ? & ? & ? & ?). eauto 10.
    + split; [|done]. intros _.
      destruct Hspec as (r & pub' & ? & ? & ? & ? & ? & ?). eauto 10.
  - by apply (bool_decide_unpack _).
  - apply publish_post_instagram.
  - intros self Hadd. unfold check_and_publish.
    rewrite bind_unfold, get_posts_due_filter by done.
    destruct (dispatch_keeps_instagram
                (filter (λ post, post_due (clock self) 1 (heap self post))
                        (queue self)) self)
      as (self' & Hrun & Hq & Hp).
    exists self'. split; [exact Hrun|].
    intros post Hin Hig. split; [by apply Hq|]. by rewrite Hp.
Qed.
End instagram.

(** ** The definitions at work *)

Lemma get_due_content_window_witness :
  (@UnifiedQueueManager.get_due_content Iso8601.codec
     {| UnifiedQueueManager.queue :=
          [ Demo.content "x" "soon" "2025-01-01T09:04:00" 5;
            Demo.content "y" "garbled" "tomorrow" 5;
            Demo.content "z" "later" "2025-01-01T09:06:00" 5 ];
        UnifiedQueueManager.posting_history := [] |}
     5
     {| UnifiedQueueManager.clock := ticks Demo.nine_o_clock;
        UnifiedQueueManager.log := [] |}).1
  = Ok [Demo.content "x" "soon" "2025-01-01T09:04:00" 5].
Proof.
  rewrite (proj1 (get_due_content_window (H := Iso8601.codec) _ _ _)).
  - vm_compute. reflexivity.
  - apply (@bool_decide_eq_true_1 _ (can_add_dec _ _)).
    vm_compute. reflexivity.
Defined.

Lemma rate_limit_window_witness :
  ∃ self',
    check_all "instagram" (seconds 1 :: replicate 51 (seconds 3601))
              Demo.new_publisher
    = (Ok (replicate 50 true ++ [false; false]), self')
    ∧ SocialMediaPublisher.rate_limits self' !! "instagram"
      = Some {| SocialMediaPublisher.remaining := 0;
                SocialMediaPublisher.reset_time := seconds 3601 |}.
Proof.
  destruct (rate_limit_window "instagram" Demo.new_publisher
              {| SocialMediaPublisher.remaining := 50;
                 SocialMediaPublisher.reset_time := 0 |}
              (seconds 1) (replicate 51 (seconds 3601)))
    as (self' & Hrun & Hlimits).
  - reflexivity.
  - reflexivity.
  - apply Forall_replicate. vm_compute. discriminate.
  - exists self'. split; [exact Hrun|].
    rewrite Hlimits. apply lookup_insert_eq.
Defined.

Lemma exhausted_budget_delays_publish_witness :
  @SocialMediaPublisher.publish_to_facebook Iso8601.codec
    "text" "https://cocalc.com" None "demo" None Demo.spent_publisher
  = @SocialMediaPublisher.facebook_attempt Iso8601.codec
      "text" "https://cocalc.com" None "demo" (Some "698630966948910")
      (delayed Demo.spent_publisher)
  ∧ repeat_call 4
      (@SocialMediaPublisher.publish_to_facebook Iso8601.codec
         "text" "https://cocalc.com" None "demo" None)
      Demo.publisher
    = attempts_on_allowance 3 4
        (@SocialMediaPublisher.facebook_attempt Iso8601.codec
           "text" "https://cocalc.com" None "demo" (Some "698630966948910"))
        Demo.publisher.
Proof.
  split.
  - refine (proj2 (proj1 (exhausted_budget_delays_publish (H := Iso8601.codec)
                     Demo.spent_publisher "text" "https://cocalc.com" None
                     "demo" None _) _ _)).
    + reflexivity.
    + exists {| SocialMediaPublisher.remaining := 0;
                SocialMediaPublisher.reset_time := seconds 3600 |}.
      split; [reflexivity|]. split; vm_compute; discriminate.
    + reflexivity.
  - refine (proj2 (proj2 (exhausted_budget_delays_publish (H := Iso8601.codec)
                     Demo.publisher "text" "https://cocalc.com" None
                     "demo" None _))
              {| SocialMediaPublisher.remaining := 3;
                 SocialMediaPublisher.reset_time := seconds 3600 |}
              4%nat _ _ _ _).
    + reflexivity.
    + reflexivity.
    + reflexivity.
    + vm_compute. discriminate.
    + vm_compute. discriminate.
Defined.


Lemma publish_post_reschedules_or_removes_witness :
  ∃ self',
    SmartScheduler.publish_post
      (Publisher0 := @SmartScheduler.social_media_publisher Iso8601.codec)
      (H := Iso8601.codec) 0%nat Demo.scheduler
    = (Ok false, self')
    ∧ SmartScheduler.queue self' = [0; 1]%nat
    ∧ SmartScheduler.scheduled_time (SmartScheduler.heap self' 0%nat)
      = "2025-01-01T11:00:00".
Proof.
  destruct (publisher_call
              (H := @SmartScheduler.social_media_publisher Iso8601.codec)
              (SmartScheduler.heap Demo.scheduler 0%nat)
              (SmartScheduler.publisher Demo.scheduler))
    as [outcome pub'] eqn:Hcall.
  destruct (proj1 (publish_post_reschedules_or_removes
                     (Publisher0 :=
                        @SmartScheduler.social_media_publisher Iso8601.codec)
                     (H := Iso8601.codec)
                     0%nat Demo.scheduler outcome pub'
                     (or_introl eq_refl) Hcall))
    with (old := dt_add Demo.nine_o_clock (hours 1))
    as [Hmoved _].
  - vm_compute in Hcall. injection Hcall as <- _. reflexivity.
  - vm_compute. reflexivity.
  - destruct Hmoved as (self' & Hrun & Hq & Htime & _).
    { apply (@bool_decide_eq_true_1 _ (can_add_dec _ _)).
      vm_compute. reflexivity. }
    exists self'. split; [exact Hrun|]. split; [exact Hq|].
    rewrite Htime. vm_compute. reflexivity.
Defined.

(** C6 as stated fails: a post due at 9999-12-31T23:30:00 whose publish
    fails stays queued with the scheduled time it had, one hour later
    being past the last time a [datetime] holds. *)
Lemma failed_post_keeps_time :
  let self := Demo.last_hour_scheduler in
  let '(r, self') :=
    SmartScheduler.publish_post
      (Publisher0 := @SmartScheduler.social_media_publisher Iso8601.codec)
      (H := Iso8601.codec) 0%nat self in
  SmartScheduler.get_posts_due
    (P := SocialMediaPublisher.t) (H := Iso8601.codec) 1 self
  = (Ok [0%nat], self)
  ∧ r = Ok false
  ∧ SmartScheduler.queue self' = [0%nat]
  ∧ SmartScheduler.scheduled_time (SmartScheduler.heap self' 0%nat)
    = "9999-12-31T23:30:00".
Proof. vm_compute. repeat split. Qed.

Lemma instagram_never_published_witness :
  ∃ self',
    SmartScheduler.check_and_publish
      (Publisher0 := @SmartScheduler.social_media_publisher Iso8601.codec)
      (H := Iso8601.codec)
      (scheduler_at (ticks Demo.new_years_eve) Demo.scheduler)
    = (Ok tt, self')
    ∧ 1%nat ∈ SmartScheduler.queue self'.
Proof.
  destruct (proj2 (proj2 (proj2 (instagram_never_published
                                   (H := Iso8601.codec))))
              (scheduler_at (ticks Demo.new_years_eve) Demo.scheduler))
    as (self' & Hrun & Hkept).
  { apply (@bool_decide_eq_true_1 _ (can_add_dec _ _)).
    vm_compute. reflexivity. }
  exists self'. split; [exact Hrun|].
  apply (Hkept 1%nat); [|reflexivity].
  vm_compute. apply list_elem_of_In. right. left. reflexivity.
Defined.

(** C10 as stated fails on both counts.  An Instagram post without an
    image path that is due is dispatched and left exactly as it is, so
    that it is not due at the next round a minute later, nor an hour
    later: it stays queued without being tried again.  And
    [publish_to_instagram] returns no result at all when looking for the
    image file raises. *)
Lemma instagram_post_not_retried :
  let get_posts_due :=
    SmartScheduler.get_posts_due
      (P := SocialMediaPublisher.t) (H := Iso8601.codec) in
  let check_and_publish :=
    SmartScheduler.check_and_publish
      (Publisher0 := @SmartScheduler.social_media_publisher Iso8601.codec)
      (H := Iso8601.codec) in
  let self := Demo.instagram_scheduler in
  let now := SmartScheduler.clock self in
  get_posts_due 1 self = (Ok [0%nat], self)
  ∧ check_and_publish self = (Ok tt, self)
  ∧ get_posts_due 1 (scheduler_at (now + minutes 1) self)
    = (Ok [], scheduler_at (now + minutes 1) self)
  ∧ get_posts_due 1 (scheduler_at (now + hours 1) self)
    = (Ok [], scheduler_at (now + hours 1) self)
  ∧ @SocialMediaPublisher.publish_to_instagram Iso8601.codec
      "text" (Some "plot.png") "demo" Demo.denied_publisher
    = (Raise (OSError "[Errno 13] Permission denied: 'plot.png'"),
       Demo.denied_publisher).
Proof. vm_compute. repeat split. Qed.

(** Three failed dispatches move the Instagram post three hours on, across
    the end of the year; a dispatch that succeeds takes the post out. *)
Example instagram_post_three_hours_later :
  let self' := (repeat_call 3
                  (SmartScheduler.publish_post
                     (Publisher0 :=
                        @SmartScheduler.social_media_publisher Iso8601.codec)
                     (H := Iso8601.codec) 1%nat)
                  Demo.scheduler).2 in
  SmartScheduler.scheduled_time (SmartScheduler.heap self' 1%nat)
  = "2026-01-01T02:30:00".
Proof. vm_compute. reflexivity. Qed.

Example facebook_post_published :
  let '(r, self') :=
    SmartScheduler.publish_post
      (Publisher0 := @SmartScheduler.social_media_publisher Iso8601.codec)
      (H := Iso8601.codec) 0%nat (Demo.scheduler_on Demo.publisher) in
  r = Ok true ∧ SmartScheduler.queue self' = [1%nat].
Proof. vm_compute. split; reflexivity. Qed.

(* ===================================================================== *)
(** * Further properties of the code *)
(* ===================================================================== *)

(** ** Library helpers *)


Lemma dt_add_zero d : dt_add d (days 0) = d.
Proof. destruct d. unfold dt_add, days, seconds. simpl. f_equal. lia. Qed.

Lemma filter_ext_in {A} (P Q : A → Prop) `{∀ x, Decision (P x)}
    `{∀ x, Decision (Q x)} (l : list A) :
  (∀ x, x ∈ l → P x ↔ Q x) → filter P l = filter Q l.
Proof.
  induction l as [|x l IH]; intros HPQ; [done|].
  rewrite !filter_cons, IH by (intros y Hy; apply HPQ; by right).
  destruct (decide (P x)) as [HP|HP], (decide (Q x)) as [HQ|HQ]; try done.
  - destruct HQ. apply HPQ; [by left|done].
  - destruct HP. apply HPQ; [by left|done].
Qed.

Lemma filter_all {A} (P : A → Prop) `{∀ x, Decision (P x)} (l : list A) :
  Forall P l → filter P l = l.
Proof.
  induction 1 as [|x l HP Hl IH]; [done|].
  by rewrite filter_cons, decide_True, IH.
Qed.

(** ** duplicate_content_handler.py, the rest of the class *)

Section duplicate_content_handler_more.
Import PageRouter DuplicateContentHandler.

(** The multi-page path, as one equation for each way it can go. *)
Lemma schedule_duplicate_content_many self routes base_time e :
  (1 < length routes)%nat →
  staggering_fits self base_time (length routes) →
  schedule_duplicate_content self routes base_time e
  = (Ok {| original_time := base_time;
           schedules := imap (staggered_entry self base_time)
                             (sorted_reverse priority routes);
           duplicate_group_id := uuid_stream e (uuid_drawn e);
           ds_min_day_gap := min_day_gap self |},
     {| uuid_stream := uuid_stream e; uuid_drawn := S (uuid_drawn e) |}).
Proof.
  intros Hlen Hfits. set (sorted_routes := sorted_reverse priority routes).
  assert (Hl : length routes = length sorted_routes).
  { subst sorted_routes. by rewrite (proj1 (sorted_reverse_priority routes)). }
  destruct (fold_stagger_enumerate self base_time sorted_routes) as [Hok _].
  unfold schedule_duplicate_content.
  destruct (Z.leb_spec (Z.of_nat (length routes)) 1) as [|_]; [lia|].
  fold sorted_routes. rewrite Hl in Hfits. rewrite bind_unfold.
  unfold lift_result. by destruct (Hok Hfits) as [ct' ->].
Qed.

Lemma schedule_duplicate_content_raises self routes base_time e :
  (1 < length routes)%nat →
  ¬ staggering_fits self base_time (length routes) →
  ∃ msg, schedule_duplicate_content self routes base_time e
         = (Raise (OverflowError msg), e).
Proof.
  intros Hlen Hfits. set (sorted_routes := sorted_reverse priority routes).
  assert (Hl : length routes = length sorted_routes).
  { subst sorted_routes. by rewrite (proj1 (sorted_reverse_priority routes)). }
  destruct (fold_stagger_enumerate self base_time sorted_routes) as [_ Hno].
  unfold schedule_duplicate_content.
  destruct (Z.leb_spec (Z.of_nat (length routes)) 1) as [|_]; [lia|].
  fold sorted_routes. rewrite Hl in Hfits. rewrite bind_unfold.
  unfold lift_result. destruct (Hno Hfits) as [msg ->]. by exists msg.
Qed.

Lemma staggering_fits_few self base_time n :
  (n ≤ 1)%nat → staggering_fits self base_time n.
Proof.
  intros Hn. unfold staggering_fits.
  replace (n - 1)%nat with 0%nat by lia. constructor.
Qed.

(** The path for at most one route, as one equation. *)
Lemma schedule_duplicate_content_few self routes base_time e :
  (length routes ≤ 1)%nat →
  schedule_duplicate_content self routes base_time e
  = (Ok {| original_time := base_time;
           schedules := (λ r, {| entry_page_id := page_id r;
                                 entry_page_name := page_name r;
                                 scheduled_time := base_time;
                                 is_original := None |}) <$> routes;
           duplicate_group_id := uuid_stream e (uuid_drawn e);
           ds_min_day_gap := 0 |},
     {| uuid_stream := uuid_stream e; uuid_drawn := S (uuid_drawn e) |}).
Proof.
  intros Hlen. unfold schedule_duplicate_content.
  destruct (Z.leb_spec (Z.of_nat (length routes)) 1) as [_|]; [|lia].
  destruct routes as [|r [|r' routes]]; [done..|simpl in Hlen; lia].
Qed.

Lemma imap_staggered_pages self base_time routes :
  entry_page_id <$> imap (staggered_entry self base_time) routes
  = page_id <$> routes.
Proof.
  rewrite fmap_imap. unfold compose. simpl.
  induction routes as [|r routes IH] using rev_ind; [done|].
  rewrite imap_app, fmap_app, IH. done.
Qed.

(** A call either returns, having drawn exactly one identifier, or raises
    [OverflowError], having drawn none; it raises only for more than one
    route, when a staggered time is not one Python can represent.  When it
    returns there is one entry per route, for the same pages; the original
    time is the base time; with at most one route the entry, if any, is at
    the base time, has no [is_original] key, and the gap recorded is 0
    whatever the handler was configured with. *)
Theorem schedule_one_entry_per_route (self : DuplicateContentHandler.t)
    (routes : list PageRoute) (base_time : datetime) (e : Entropy) :
  ((length routes ≤ 1)%nat → staggering_fits self base_time (length routes))
  ∧ (staggering_fits self base_time (length routes) →
     ∃ ds,
       schedule_duplicate_content self routes base_time e
       = (Ok ds, {| uuid_stream := uuid_stream e;
                    uuid_drawn := S (uuid_drawn e) |})
       ∧ entry_page_id <$> schedules ds ≡ₚ page_id <$> routes
       ∧ length (schedules ds) = length routes
       ∧ original_time ds = base_time
       ∧ duplicate_group_id ds = uuid_stream e (uuid_drawn e)
       ∧ ((length routes ≤ 1)%nat →
            Forall (λ en, scheduled_time en = base_time ∧ is_original en = None)
                   (schedules ds)
            ∧ ds_min_day_gap ds = 0))
  ∧ (¬ staggering_fits self base_time (length routes) →
     ∃ msg, schedule_duplicate_content self routes base_time e
            = (Raise (OverflowError msg), e)).
Proof.
  split; [apply staggering_fits_few|]. split.
  - intros Hfits.
    destruct (decide (length routes ≤ 1)%nat) as [Hfew|Hmany].
    + rewrite schedule_duplicate_content_few by done.
      eexists. split; [reflexivity|]. simpl.
      rewrite <- list_fmap_compose, length_fmap.
      repeat split; try done.
      apply Forall_fmap, Forall_true. done.
    + rewrite schedule_duplicate_content_many by (done || lia).
      eexists. split; [reflexivity|]. simpl.
      rewrite imap_staggered_pages, length_imap.
      pose proof (sorted_reverse_priority routes) as [Hperm _].
      split; [by rewrite Hperm|]. split; [by rewrite Hperm|].
      do 2 (split; [done|]). lia.
  - intros Hno. apply schedule_duplicate_content_raises; [|done].
    destruct (decide (1 < length routes)%nat); [done|].
    destruct Hno. apply staggering_fits_few. lia.
Qed.

Lemma imap_staggered_times self base_time routes :
  scheduled_time <$> imap (staggered_entry self base_time) routes
  = (λ i, dt_add base_time (days (i * min_day_gap self)))
      <$> seqZ 0 (Z.of_nat (length routes)).
Proof.
  induction routes as [|r routes IH] using rev_ind; [done|].
  rewrite imap_app, fmap_app, IH, length_app.
  rewrite Nat2Z.inj_add, seqZ_app by lia. rewrite fmap_app. f_equal.
  simpl. rewrite Nat.add_0_r. done.
Qed.

Lemma fold_spread_step self start_date (idx : list Z) : ∀ times,
  let fits :=
    Forall (λ i, can_add start_date (days (i * min_day_gap self))) idx in
  let run := fold_result idx times (spread_step self start_date) in
  (fits →
   run = Ok (times ++ ((λ i, dt_add start_date (days (i * min_day_gap self)))
                         <$> idx)))
  ∧ (¬ fits → overflows run).
Proof.
  induction idx as [|i idx IH]; intros times fits run.
  { split.
    - intros _. subst run. simpl. by rewrite app_nil_r.
    - intros []. constructor. }
  assert (Hrun : run
    = (td ← timedelta_of (days (i * min_day_gap self));
       sum ← dt_plus start_date td;
       fold_result idx (times ++ [sum]) (spread_step self start_date))).
  { subst run. cbn [fold_result]. unfold spread_step at 1.
    destruct (timedelta_of _) as [td|]; [|done]. cbn [mbind result_bind].
    destruct (dt_plus start_date td); done. }
  subst fits. rewrite Forall_cons, Hrun.
  destruct (decide (can_add start_date (days (i * min_day_gap self))))
    as [Hadd|Hadd].
  - rewrite checked_add_can_add by done.
    destruct (IH (times ++ [dt_add start_date (days (i * min_day_gap self))]))
      as [IHok IHno].
    split.
    + intros [_ Hfits]. rewrite (IHok Hfits), <- app_assoc. done.
    + intros Hno. apply IHno. tauto.
  - split; [tauto|]. intros _. by apply checked_add_overflows.
Qed.

Lemma days_div (n : Z) : days n / 86400000000 = n.
Proof.
  unfold days, seconds.
  replace (n * 86400 * 1000000) with (n * 86400000000) by lia.
  apply Z.div_mul. lia.
Qed.

(** For two pages or more, the loop of [schedule_duplicate_content] and
    the loop of [get_optimal_spread_pattern] stay in range together. *)
Lemma staggering_fits_spread self base_time (n : nat) :
  (1 < n)%nat →
  staggering_fits self base_time n
  ↔ Forall (λ i, can_add base_time (days (i * min_day_gap self)))
           (seqZ 1 (Z.of_nat n - 1)).
Proof.
  intros Hn. unfold staggering_fits. rewrite !Forall_forall.
  unfold can_add. setoid_rewrite days_div.
  setoid_rewrite elem_of_seq. setoid_rewrite elem_of_seqZ.
  unfold dt_add. cbn [ticks]. unfold max_ticks, days, seconds.
  split.
  - intros Hfits i Hi.
    pose proof (Hfits 0%nat ltac:(lia)) as [Hg H1].
    pose proof (Hfits (Z.to_nat (i - 1)) ltac:(lia)) as [_ Hi1].
    rewrite Z2Nat.id in Hi1 by lia.
    assert (Hx : ∃ x, x = (i - 1) * min_day_gap self) by (by eexists).
    destruct Hx as [x Hx].
    assert (Hig : i * min_day_gap self = x + min_day_gap self) by lia.
    rewrite Hig. rewrite <- Hx in Hi1.
    change (Z.of_nat 0) with 0 in H1.
    assert (-3652059 < x < 3652059) by lia.
    assert (x ≠ 0 → -3652059 < min_day_gap self < 3652059) by nia.
    split; [|lia].
    destruct (decide (x = 0)); [lia|lia].
  - intros Hfits k Hk.
    pose proof (Hfits 1 ltac:(lia)) as [Hg _].
    pose proof (Hfits (Z.of_nat k + 1) ltac:(lia)) as [_ Hsum].
    split; [lia|lia].
Qed.

(** [get_optimal_spread_pattern], when it returns, has the start date
    first, so at least one time even for no page at all; for at most one
    page it always returns; and for more than one route it returns exactly
    when [schedule_duplicate_content] does, with exactly the times that
    gives the entries. *)
Theorem spread_pattern_matches_schedule (self : DuplicateContentHandler.t)
    (routes : list PageRoute) (base_time : datetime) (e : Entropy)
    (num_pages : Z) :
  (∀ times,
     get_optimal_spread_pattern self num_pages base_time = Ok times →
     length times = Z.to_nat (Z.max 1 num_pages)
     ∧ head times = Some base_time)
  ∧ (num_pages ≤ 1 →
     get_optimal_spread_pattern self num_pages base_time = Ok [base_time])
  ∧ ((1 < length routes)%nat →
     (∀ ds e',
        schedule_duplicate_content self routes base_time e = (Ok ds, e') →
        get_optimal_spread_pattern self (Z.of_nat (length routes)) base_time
        = Ok (scheduled_time <$> schedules ds))
     ∧ (∀ times,
          get_optimal_spread_pattern self (Z.of_nat (length routes)) base_time
          = Ok times →
          ∃ ds e',
            schedule_duplicate_content self routes base_time e = (Ok ds, e')
            ∧ scheduled_time <$> schedules ds = times)).
Proof.
  split; [|split].
  - intros times. unfold get_optimal_spread_pattern.
    destruct (fold_spread_step self base_time (seqZ 1 (num_pages - 1))
                [base_time]) as [Hok Hno].
    destruct (decide (Forall (λ i, can_add base_time
                                     (days (i * min_day_gap self)))
                             (seqZ 1 (num_pages - 1)))) as [Hfits|Hfits].
    + rewrite (Hok Hfits). intros [= <-]. simpl.
      rewrite length_fmap, length_seqZ. split; [lia|done].
    + destruct (Hno Hfits) as [msg ->]. done.
  - intros Hn. unfold get_optimal_spread_pattern.
    rewrite seqZ_nil by lia. done.
  - intros Hlen.
    assert (Htimes :
      [base_time] ++ ((λ i, dt_add base_time (days (i * min_day_gap self)))
                        <$> seqZ 1 (Z.of_nat (length routes) - 1))
      = scheduled_time <$> imap (staggered_entry self base_time)
                                (sorted_reverse priority routes)).
    { rewrite imap_staggered_times.
      rewrite (proj1 (sorted_reverse_priority routes)).
      replace (Z.of_nat (length routes))
        with (1 + (Z.of_nat (length routes) - 1)) at 2 by lia.
      rewrite seqZ_app by lia. rewrite fmap_app. simpl.
      by rewrite dt_add_zero. }
    unfold get_optimal_spread_pattern.
    destruct (fold_spread_step self base_time
                (seqZ 1 (Z.of_nat (length routes) - 1)) [base_time])
      as [Hok Hno].
    rewrite <- (staggering_fits_spread self base_time (length routes))
      in Hok, Hno by done.
    destruct (decide (staggering_fits self base_time (length routes)))
      as [Hfits|Hfits].
    + rewrite schedule_duplicate_content_many by done.
      rewrite (Hok Hfits), Htimes. split.
      * by intros ds e' [= <- <-].
      * intros times [= <-]. by do 2 eexists.
    + destruct (schedule_duplicate_content_raises self routes base_time e)
        as [msg ->]; [done..|].
      destruct (Hno Hfits) as [msg' ->]. split; [done|done].
Qed.

(** *** Hashtags *)

Lemma insert_missing_spec tags : ∀ hashtags,
  NoDup tags →
  insert_missing tags hashtags
  = reverse (filter (λ tag, tag ∉ hashtags) tags) ++ hashtags.
Proof.
  induction tags as [|t tags IH]; intros hashtags Hnd; [done|].
  apply NoDup_cons in Hnd as [Ht Hnd].
  unfold insert_missing in *. simpl. rewrite filter_cons.
  case_bool_decide as Hin.
  - rewrite decide_False by tauto. by apply IH.
  - rewrite decide_True by done. rewrite IH by done.
    rewrite reverse_cons, <- app_assoc. simpl. do 2 f_equal.
    apply filter_ext_in. intros tag Htag.
    rewrite not_elem_of_cons. split; [tauto|]. intros Hn. split; [|done].
    by intros ->.
Qed.

(** [adjust_hashtags_for_page] puts the page's own tags that the post
    does not have yet in front, the last of them first, then the post's
    tags (without the off-topic ones on a SageMath page), and cuts the
    list at 10.  So the result has at most 10 tags, every page tag the
    post lacked is in it, and on a SageMath page none of the off-topic
    tags is. *)
Theorem adjust_hashtags_front (base_hashtags : list string)
    (page_name : string) :
  let page_tags :=
    if str_in "SageMath" page_name
    then ["SageMath"; "SymbolicMath"; "PureMath"; "MathematicalComputing"]
    else ["CoCalc"; "ComputationalScience"; "ReproducibleResearch"] in
  let off_topic :=
    if str_in "SageMath" page_name
    then ["Engineering"; "Physics"; "DataScience"] else [] in
  let added := reverse (filter (λ tag, tag ∉ base_hashtags) page_tags) in
  let adjusted := adjust_hashtags_for_page base_hashtags page_name in
  adjusted
  = added ++ take (10 - length added)
                  (filter (λ tag, tag ∉ off_topic) base_hashtags)
  ∧ (length adjusted ≤ 10)%nat
  ∧ (∀ tag, tag ∈ page_tags → tag ∉ base_hashtags → tag ∈ adjusted)
  ∧ (∀ tag, tag ∈ adjusted → tag ∉ off_topic)
  ∧ (∀ tag, tag ∈ adjusted → tag ∈ page_tags ∨ tag ∈ base_hashtags).
Proof.
  intros page_tags off_topic added adjusted.
  assert (Hlen : (length added ≤ 4)%nat).
  { subst added page_tags. rewrite length_reverse.
    etrans; [apply length_filter|]. destruct (str_in _ _); simpl; lia. }
  assert (Hkeep : Forall (λ tag, tag ∉ off_topic) added).
  { subst added page_tags off_topic. apply Forall_forall. intros tag.
    rewrite elem_of_reverse. intros [_ Hin]%list_elem_of_filter.
    destruct (str_in _ _); [|apply not_elem_of_nil].
    intros Hoff. revert Hin.
    repeat (apply elem_of_cons in Hoff as [->|Hoff]);
      [by apply (bool_decide_unpack (¬ _))..|by apply elem_of_nil in Hoff]. }
  assert (Hshape : adjusted
    = added ++ take (10 - length added)
                    (filter (λ tag, tag ∉ off_topic) base_hashtags)).
  { subst adjusted added page_tags off_topic.
    unfold adjust_hashtags_for_page.
    destruct (str_in "SageMath" page_name).
    - rewrite insert_missing_spec by (by apply (bool_decide_unpack _)).
      rewrite filter_app, (filter_all _ _ Hkeep).
      rewrite take_app, take_ge by lia. done.
    - rewrite insert_missing_spec by (by apply (bool_decide_unpack _)).
      rewrite take_app, take_ge by lia.
      rewrite (filter_all (λ tag, tag ∉ [])); [done|].
      apply Forall_forall. intros. apply not_elem_of_nil. }
  split; [done|]. rewrite Hshape. split; [|split; [|split]].
  - rewrite length_app, length_take. lia.
  - intros tag Hpage Hnew. apply elem_of_app. left.
    subst added. rewrite elem_of_reverse. by apply list_elem_of_filter.
  - intros tag [Hin|Hin]%elem_of_app.
    + by eapply Forall_forall in Hkeep.
    + apply elem_of_take in Hin as (i & Hin%list_elem_of_lookup_2 & _).
      by apply list_elem_of_filter in Hin as [? _].
  - intros tag [Hin|Hin]%elem_of_app.
    + left. subst added. rewrite elem_of_reverse in Hin.
      by apply list_elem_of_filter in Hin as [_ ?].
    + right. apply elem_of_take in Hin as (i & Hin%list_elem_of_lookup_2 & _).
      by apply list_elem_of_filter in Hin as [_ ?].
Qed.

(** *** Message texts *)



(** [create_variation_text] returns for every variation number from -3
    on and raises [IndexError] below; what it returns always ends with the
    base content, and is the base content itself for 0 and for every
    number above 4. *)
Theorem create_variation_text_cases (base_content : string)
    (variation_number : Z) :
  (variation_number < -3 →
     create_variation_text base_content variation_number = None)
  ∧ (-3 ≤ variation_number →
     ∃ lead, create_variation_text base_content variation_number
             = Some (lead +:+ base_content))
  ∧ (variation_number = 0 ∨ 4 < variation_number →
     create_variation_text base_content variation_number = Some base_content).
Proof.
  unfold create_variation_text, getitem. simpl length.
  change (Z.of_nat 4) with 4.
  split; [|split].
  - intros Hn. destruct (Z.eqb_spec variation_number 0); [lia|].
    destruct (Z.leb_spec variation_number 4); [|lia].
    destruct (Z.leb_spec 0 (variation_number - 1)); [lia|].
    match goal with
    | |- context [ ?a <=? variation_number - 1 ] =>
        destruct (Z.leb_spec a (variation_number - 1)); [lia|done]
    end.
  - intros Hn. destruct (Z.eqb_spec variation_number 0); [by exists ""|].
    destruct (Z.leb_spec variation_number 4); [|by exists ""].
    assert (variation_number = -3 ∨ variation_number = -2
            ∨ variation_number = -1 ∨ variation_number = 1
            ∨ variation_number = 2 ∨ variation_number = 3
            ∨ variation_number = 4) as Hcases by lia.
    destruct Hcases as [->|[->|[->|[->|[->|[->| ->]]]]]];
      eexists; reflexivity.
  - intros [->|Hn]; [done|].
    destruct (Z.eqb_spec variation_number 0); [done|].
    destruct (Z.leb_spec variation_number 4); [lia|done].
Qed.
End duplicate_content_handler_more.

(** ** Dicts of lists *)

Section groups_facts.
Context {K A B : Type} `{EqDecision K} (key : B → K) (val : B → A).
Implicit Types (g : list (K * list A)) (l : list B).

Lemma group_insert_keys k x g :
  (group_insert k x g).*1 = if decide (k ∈ g.*1) then g.*1 else g.*1 ++ [k].
Proof.
  induction g as [|[k' xs] g IH]; [done|].
  cbn [group_insert]. rewrite fmap_cons. cbn [fst].
  destruct (decide (k = k')) as [->|Hne]; rewrite fmap_cons; cbn [fst].
  - clear IH. case_decide as Hin; [done|]. destruct Hin. left.
  - rewrite IH. clear IH. destruct (decide (k ∈ g.*1)) as [Hin|Hin].
    + case_decide as Hin'; [done|]. destruct Hin'. by right.
    + case_decide as Hin'; [|done].
      apply elem_of_cons in Hin' as [?|?]; done.
Qed.

Lemma group_insert_NoDup k x g : NoDup g.*1 → NoDup (group_insert k x g).*1.
Proof.
  intros Hg. rewrite group_insert_keys. case_decide; [done|].
  apply NoDup_app. split; [done|]. split; [|apply NoDup_singleton].
  intros y Hy ->%list_elem_of_singleton. done.
Qed.

Lemma assoc_group_insert k k' x g :
  assoc k (group_insert k' x g)
  = if decide (k = k') then Some (default [] (assoc k g) ++ [x])
    else assoc k g.
Proof.
  induction g as [|[k0 xs] g IH]; simpl.
  - by destruct (decide (k = k')).
  - destruct (decide (k' = k0)) as [->|Hne]; simpl.
    + by destruct (decide (k = k0)).
    + destruct (decide (k = k0)) as [->|Hne'].
      * by rewrite decide_False by done.
      * exact IH.
Qed.

Lemma assoc_elem_of k xs g : NoDup g.*1 → (k, xs) ∈ g ↔ assoc k g = Some xs.
Proof.
  induction g as [|[k0 ys] g IH]; simpl; intros Hg.
  - split; [by intros ?%elem_of_nil|done].
  - apply NoDup_cons in Hg as [Hk0 Hg]. rewrite elem_of_cons.
    destruct (decide (k = k0)) as [->|Hne].
    + split.
      * intros [[= ->]|Hin]; [done|]. destruct Hk0.
        apply list_elem_of_fmap. by exists (k0, xs).
      * intros [= ->]. by left.
    + rewrite <- (IH Hg). split; [|tauto]. intros [[=]|?]; done.
Qed.

Lemma group_fold_NoDup l : ∀ g,
  NoDup g.*1 →
  NoDup (foldl (λ g x, group_insert (key x) (val x) g) g l).*1.
Proof.
  induction l as [|x l IH]; intros g Hg; simpl; [done|].
  by apply IH, group_insert_NoDup.
Qed.

Lemma group_fold_assoc k l : ∀ g,
  assoc k (foldl (λ g x, group_insert (key x) (val x) g) g l)
  = match assoc k g, val <$> filter (λ x, key x = k) l with
    | None, [] => None
    | o, f => Some (default [] o ++ f)
    end.
Proof.
  induction l as [|x l IH]; intros g; simpl.
  - destruct (assoc k g); [|done]. by rewrite app_nil_r.
  - rewrite IH, assoc_group_insert, filter_cons.
    destruct (decide (k = key x)) as [->|Hne].
    + rewrite decide_True by done. simpl.
      destruct (assoc (key x) g); simpl; by rewrite <- ?app_assoc.
    + rewrite decide_False by done. done.
Qed.

(** The dict a loop [d[key x].append(val x)] builds from an empty one:
    each key met, with the values filed under it, in order. *)
Lemma group_fold_elem k xs l :
  (k, xs) ∈ foldl (λ g x, group_insert (key x) (val x) g) [] l
  ↔ xs = val <$> filter (λ x, key x = k) l ∧ xs ≠ [].
Proof.
  rewrite assoc_elem_of by (apply group_fold_NoDup; constructor).
  rewrite group_fold_assoc. simpl.
  destruct (val <$> filter (λ x, key x = k) l) as [|y f].
  - split; [done|]. by intros [-> ?].
  - split; [by intros [= <-]|]. by intros [-> _].
Qed.
End groups_facts.

Lemma foldl_app_concat {A B} (f : A → list B) (l : list A) : ∀ acc,
  foldl (λ acc x, acc ++ f x) acc l = acc ++ concat (f <$> l).
Proof.
  induction l as [|x l IH]; intros acc; simpl; [by rewrite app_nil_r|].
  by rewrite IH, app_assoc.
Qed.

Lemma foldl_filter_bool {A B} (p : A → bool) (f : B → A → B) (l : list A) :
  ∀ b, foldl (λ b x, if p x then f b x else b) b l
       = foldl f b (filter (λ x, p x = true) l).
Proof.
  induction l as [|x l IH]; intros b; simpl; [done|].
  rewrite filter_cons. destruct (decide (p x = true)) as [Hp|Hp].
  - rewrite Hp. apply IH.
  - apply not_true_is_false in Hp. rewrite Hp. apply IH.
Qed.

Lemma concat_nil {A} (ls : list (list A)) :
  concat ls = [] ↔ Forall (λ l, l = []) ls.
Proof.
  induction ls as [|l ls IH]; simpl; [by split; [constructor|]|].
  rewrite Forall_cons, <- IH. split.
  - by intros [-> ->]%app_eq_nil.
  - by intros [-> ->].
Qed.


Lemma length_filter_lt_iff {A} (P : A → Prop) `{∀ x, Decision (P x)}
    (l : list A) :
  (length (filter P l) < length l)%nat ↔ ∃ x, x ∈ l ∧ ¬ P x.
Proof.
  split.
  - intros Hlt. destruct (decide (Forall P l)) as [Hall|Hnot].
    + rewrite filter_all in Hlt by done. lia.
    + apply not_Forall_Exists in Hnot; [|apply _].
      apply Exists_exists in Hnot as (x & Hx & HP). eauto.
  - intros (x & Hx & HP). by eapply length_filter_lt.
Qed.


Lemma same_day_ticks (t s : Z) :
  s / days 1 * days 1 ≤ t ≤ s / days 1 * days 1 + days 1 - 1
  ↔ t / days 1 = s / days 1.
Proof.
  change (days 1) with 86400000000. split.
  - intros Ht. symmetry.
    apply (Z.div_unique t 86400000000 _ (t - 86400000000 * (s / 86400000000)));
      lia.
  - intros <-. pose proof (Z.mod_pos_bound t 86400000000 eq_refl).
    pose proof (Z.div_mod t 86400000000). lia.
Qed.

(** ** unified_queue_manager.py, the queries and the return values *)

Section unified_queue_manager_more.
Import UnifiedQueueManager.
Context `{!IsoFormat}.

Lemma scheduled_between_true start end_ c :
  scheduled_between start end_ c = Ok true
  ↔ ∃ d, fromisoformat (scheduled_time c) = Ok d
         ∧ dt_le start d = Ok true ∧ dt_le d end_ = Ok true.
Proof.
  unfold scheduled_between, dt_between, mbind, result_bind.
  destruct (fromisoformat _) as [d|e]; simpl.
  - destruct (dt_le start d) as [[|]|e] eqn:Hlo; simpl.
    + split; [eauto|]. by intros (? & [= <-] & _ & ?).
    + split; [done|]. intros (? & [= <-] & ? & _). congruence.
    + split; [done|]. intros (? & [= <-] & ? & _). congruence.
  - split; [done|]. by intros (? & ? & _).
Qed.

Lemma date_range_filter start end_ self :
  get_content_by_date_range start end_ self
  = filter (λ c, scheduled_between start end_ c = Ok true) (queue self).
Proof.
  unfold get_content_by_date_range.
  enough (∀ acc,
    foldl (λ in_range content,
             match scheduled_between start end_ content with
             | Ok true => in_range ++ [content]
             | Ok false => in_range
             | Raise _ => in_range
             end) acc (queue self)
    = acc ++ filter (λ c, scheduled_between start end_ c = Ok true)
                    (queue self)) as Hgen by apply Hgen.
  induction (queue self) as [|c q IH]; intros acc; simpl;
    [by rewrite app_nil_r|].
  rewrite filter_cons, IH.
  destruct (scheduled_between start end_ c) as [[|]|e] eqn:Hc.
  - rewrite decide_True by done. by rewrite <- app_assoc.
  - by rewrite decide_False by done.
  - by rewrite decide_False by done.
Qed.

(** [get_content_by_date_range] returns, in queue order, exactly the
    queued items whose scheduled time parses and compares as
    [start <= scheduled <= end]; an item whose time does not parse, or
    does not compare with the bounds, is left out without an error. *)
Theorem date_range_members (start end_ : datetime) (self : t) :
  let in_range := get_content_by_date_range start end_ self in
  in_range `sublist_of` queue self
  ∧ (∀ c, c ∈ in_range ↔
       c ∈ queue self ∧
       ∃ d, fromisoformat (scheduled_time c) = Ok d
            ∧ dt_le start d = Ok true ∧ dt_le d end_ = Ok true)
  ∧ (∀ c e, fromisoformat (scheduled_time c) = Raise e → c ∉ in_range)
  ∧ (queue_sorted (queue self) → queue_sorted in_range).
Proof.
  intros in_range. unfold in_range. rewrite date_range_filter.
  split; [apply sublist_filter|]. split; [|split].
  - intros c. rewrite list_elem_of_filter, scheduled_between_true. tauto.
  - intros c e He. rewrite list_elem_of_filter, scheduled_between_true.
    intros [(d & Hd & _) _]. congruence.
  - apply queue_sorted_filter.
Qed.

Lemma is_due_between (clk w : Z) c :
  let now := {| ticks := clk; utcoffset := None |} in
  is_due clk w c
  ↔ scheduled_between now (dt_add now (minutes w)) c = Ok true.
Proof.
  simpl. unfold is_due, scheduled_between, dt_between, dt_le, dt_add,
    mbind, result_bind.
  destruct (fromisoformat _) as [[tk [o|]]|e]; simpl; [done| |done].
  destruct (Z.leb_spec clk tk); simpl.
  - destruct (Z.leb_spec tk (clk + minutes w)); split; try done; lia.
  - split; [lia|done].
Qed.

(** [get_due_content(w)] returns what
    [get_content_by_date_range(now, now + timedelta(minutes=w))] returns,
    [now] being the reading of the clock at the call, and raises what
    computing [now + timedelta(minutes=w)] raises. *)
Theorem get_due_content_is_date_range (self : t) (w : Z) (world : World) :
  let now := {| ticks := clock world; utcoffset := None |} in
  (get_due_content self w world).1
  = (cutoff ← (delta ← timedelta_of (minutes w); dt_plus now delta);
     Ok (get_content_by_date_range now cutoff self)).
Proof.
  intros now. unfold get_due_content, datetime_now. rewrite bind_gets.
  fold now. rewrite bind_unfold. unfold lift_result.
  destruct (timedelta_of (minutes w) ≫= _) as [cutoff|e] eqn:Hsum; [|done].
  assert (cutoff = dt_add now (minutes w)) as ->.
  { destruct (decide (can_add now (minutes w))) as [Hadd|Hadd].
    - rewrite (checked_sum_can_add _ _ Hadd) in Hsum. congruence.
    - destruct (checked_sum_overflows _ _ Hadd) as [msg Hmsg]. congruence. }
  rewrite bind_unfold.
  pose proof (due_loop_spec w (queue self) [] world) as Hloop.
  simpl in Hloop. fold now in Hloop. rewrite Hloop.
  unfold logger, modify.
  unfold mbind, M_bind, bind, mret, M_ret, ret. simpl.
  rewrite date_range_filter. f_equal.
  apply list_filter_iff. intros c. apply is_due_between.
Qed.

(** [get_daily_schedule(date)] files each item of the day under its page
    id: every page id is listed once, with exactly the day's items for
    that page, in queue order, and no page is listed with an empty list.
    For a naive [date], the day's items are the queued ones whose
    scheduled time parses to a naive datetime on the calendar day of
    [date]. *)
Theorem daily_schedule_by_page (date : datetime) (self : t) :
  let schedule := get_daily_schedule date self in
  let day_content :=
    get_content_by_date_range (day_start date) (day_end date) self in
  NoDup schedule.*1
  ∧ (∀ pid cs, (pid, cs) ∈ schedule ↔
       cs = filter (λ c, page_id c = pid) day_content ∧ cs ≠ [])
  ∧ (utcoffset date = None →
     ∀ c, c ∈ day_content ↔
       c ∈ queue self ∧
       ∃ d, fromisoformat (scheduled_time c) = Ok d
            ∧ utcoffset d = None ∧ toordinal d = toordinal date).
Proof.
  intros schedule day_content. split; [|split].
  - apply (group_fold_NoDup page_id id). constructor.
  - intros pid cs. unfold schedule, get_daily_schedule. fold day_content.
    pose proof (group_fold_elem page_id id pid cs day_content) as Helem.
    rewrite list_fmap_id in Helem. exact Helem.
  - intros Hnaive c. unfold day_content.
    rewrite date_range_filter, list_elem_of_filter, scheduled_between_true.
    unfold dt_le, day_start, day_end, toordinal. simpl. rewrite Hnaive.
    split.
    + intros [(d & Hd & Hlo & Hhi) Hin]. split; [done|].
      exists d. split; [done|].
      destruct (utcoffset d); [done|]. split; [done|].
      injection Hlo as Hlo. injection Hhi as Hhi.
      apply Z.leb_le in Hlo, Hhi. f_equal. apply same_day_ticks. lia.
    + intros [Hin (d & Hd & Hoff & Hday)]. split; [|done].
      exists d. split; [done|]. rewrite Hoff.
      assert (ticks d / days 1 = ticks date / days 1) as Hq by lia.
      apply same_day_ticks in Hq.
      split; f_equal; apply Z.leb_le; lia.
Qed.

(** *** Same-day duplicates *)

Section same_day.
Context `{!DateFormat}.

Lemma group_dates_omap cs :
  group_dates cs = omap (λ c, (λ day, (day, c)) <$> scheduled_day c) cs.
Proof.
  unfold group_dates.
  enough (∀ acc,
    foldl (λ dates content,
             match fromisoformat (scheduled_time content) with
             | Ok scheduled => dates ++ [(strftime_ymd scheduled, content)]
             | Raise _ => dates
             end) acc cs
    = acc ++ omap (λ c, (λ day, (day, c)) <$> scheduled_day c) cs)
    as Hgen by apply Hgen.
  induction cs as [|c cs IH]; intros acc; simpl; [by rewrite app_nil_r|].
  rewrite IH. unfold scheduled_day at 2.
  destruct (fromisoformat (scheduled_time c)); simpl; [|done].
  by rewrite <- app_assoc.
Qed.

Lemma group_dates_day day cs :
  (filter (λ dc, dc.1 = day) (group_dates cs)).*2
  = filter (λ c, scheduled_day c = Some day) cs.
Proof.
  rewrite group_dates_omap.
  induction cs as [|c cs IH]; simpl; [done|].
  rewrite (filter_cons _ c).
  destruct (scheduled_day c) as [d|]; simpl.
  - rewrite filter_cons. simpl. destruct (decide (d = day)) as [->|Hne].
    + rewrite decide_True by done. simpl. f_equal. exact IH.
    + rewrite decide_False by congruence. exact IH.
  - exact IH.
Qed.

Lemma day_warnings_nil counts :
  day_warnings counts = [] ↔ Forall (λ dcs, (length dcs.2 ≤ 1)%nat) counts.
Proof.
  unfold day_warnings.
  assert (∀ acc,
    foldl (λ warnings (dcs : string * list QueuedContent),
             match dcs.2 with
             | c0 :: _ :: _ =>
                 warnings ++ [ "WARNING: Duplicate content '" +:+ source_name c0
                               +:+ "' scheduled multiple times on " +:+ dcs.1 ]
             | _ => warnings
             end) acc counts = []
    ↔ acc = [] ∧ Forall (λ dcs, (length dcs.2 ≤ 1)%nat) counts) as Hgen.
  { induction counts as [|[day cs] counts IH]; intros acc; simpl.
    - split; [by intros ->|by intros [-> _]].
    - rewrite IH, Forall_cons. simpl. destruct cs as [|c0 [|c1 cs]]; simpl.
      + split; [intros [-> ?]|intros [-> [_ ?]]]; repeat split; auto.
      + split; [intros [-> ?]|intros [-> [_ ?]]]; repeat split; auto.
      + split.
        * intros [Hacc _]. by apply app_eq_nil in Hacc as [_ ?].
        * intros [_ [? _]]. lia. }
  rewrite Hgen. tauto.
Qed.

Lemma same_day_members_groups g day self :
  same_day_members g day self
  = filter (λ c, scheduled_day c = Some day)
      (filter (λ c, default "" (duplicate_group_id c) = g)
         (filter (λ c, is_duplicate c && truthy (duplicate_group_id c) = true)
                 (queue self))).
Proof.
  unfold same_day_members. rewrite !list_filter_filter.
  apply list_filter_iff. intros c. unfold truthy.
  destruct (is_duplicate c), (duplicate_group_id c) as [s|]; simpl;
    try (split; intros; destruct_and?; done).
  split.
  - intros (_ & [= ->] & Hne & Hday). repeat split; [done|].
    apply negb_true_iff, String.eqb_neq. done.
  - intros [[Hday <-] Hne]. repeat split; [|done].
    by apply negb_true_iff, String.eqb_neq in Hne.
Qed.

(** [validate_no_same_day_duplicates] returns no warning exactly when no
    duplicate group has two queued items filed under one day: the items
    flagged as duplicates with one non-empty group id whose scheduled
    times parse and render to one ['%Y-%m-%d'] string.  Items whose time
    does not parse are not counted. *)
Theorem same_day_duplicates_flagged (self : t) :
  validate_no_same_day_duplicates self = []
  ↔ ∀ g day, (length (same_day_members g day self) ≤ 1)%nat.
Proof.
  unfold validate_no_same_day_duplicates.
  rewrite (foldl_filter_bool
             (λ c, is_duplicate c && truthy (duplicate_group_id c))
             (λ groups c, group_insert (default "" (duplicate_group_id c))
                                       c groups)).
  rewrite foldl_app_concat. simpl. rewrite concat_nil, Forall_fmap.
  rewrite Forall_forall. split.
  - intros Hall g day. rewrite same_day_members_groups.
    set (cs := filter (λ c, default "" (duplicate_group_id c) = g) _).
    destruct (filter (λ c, scheduled_day c = Some day) cs) as [|c0 ds] eqn:Hds;
      [simpl; lia|].
    rewrite <- Hds.
    assert (cs ≠ []) as Hcs by (intros Hnil; by rewrite Hnil in Hds).
    specialize (Hall (g, cs)). simpl in Hall.
    apply day_warnings_nil in Hall.
    + rewrite Forall_forall in Hall.
      specialize (Hall (day, filter (λ c, scheduled_day c = Some day) cs)).
      simpl in Hall. apply Hall.
      apply (group_fold_elem fst snd). rewrite group_dates_day.
      split; [done|]. by rewrite Hds.
    + apply (group_fold_elem (λ c, default "" (duplicate_group_id c)) id).
      rewrite list_fmap_id. done.
  - intros Hall [g cs] Hin. simpl.
    apply (group_fold_elem (λ c, default "" (duplicate_group_id c)) id)
      in Hin as [-> _].
    rewrite list_fmap_id. apply day_warnings_nil, Forall_forall.
    intros [day ds] Hin. simpl.
    apply (group_fold_elem fst snd) in Hin as [-> _].
    rewrite group_dates_day, <- same_day_members_groups. apply Hall.
Qed.
End same_day.

(** *** Statistics *)






(** *** What the operations return *)

Lemma reschedule_first_None cid s shared q :
  reschedule_first cid s shared q = None ↔ cid ∉ content_id <$> q.
Proof.
  induction q as [|c q IH]; simpl.
  - split; [intros _; apply not_elem_of_nil|done].
  - rewrite not_elem_of_cons. destruct (decide (content_id c = cid)).
    + split; [done|]. intros [? _]. by destruct H.
    + destruct (reschedule_first cid s shared q); simpl.
      * split; [done|]. intros [_ Hq]. by apply IH in Hq.
      * split; [|done]. intros _. split; [done|]. by apply IH.
Qed.

Lemma reschedule_first_Some cid s shared q q' :
  reschedule_first cid s shared q = Some q' →
  ∃ q1 c q2, q = q1 ++ c :: q2 ∧ content_id c = cid
             ∧ (cid ∉ content_id <$> q1)
             ∧ q' = q1 ++ set_scheduled_time s c :: assign_shared s shared c q2.
Proof.
  revert q'. induction q as [|c q IH]; intros q'; simpl; [done|].
  destruct (decide (content_id c = cid)) as [Heq|Hne].
  - intros [= <-]. exists [], c, q. repeat split; [done|].
    apply not_elem_of_nil.
  - destruct (reschedule_first cid s shared q) as [q0|]; simpl; [|done].
    intros [= <-]. destruct (IH q0 eq_refl) as (q1 & c' & q2 & -> & ? & ? & ->).
    exists (c :: q1), c', q2. repeat split; [done|].
    rewrite fmap_cons, not_elem_of_cons. done.
Qed.

Lemma assign_shared_none s shared c q :
  (∀ j c', q !! j = Some c' → c' = c → shared j = false) →
  assign_shared s shared c q = q.
Proof.
  unfold assign_shared. revert shared.
  induction q as [|c' q IH]; intros shared Hno; [done|].
  cbn [imap]. f_equal.
  - destruct (shared 0%nat) eqn:Hs; [|done].
    case_bool_decide as Hc; [|done].
    by rewrite (Hno 0%nat c' eq_refl Hc) in Hs.
  - apply IH. intros j c'' Hj. apply (Hno (S j) c''). exact Hj.
Qed.

(** [remove_content] returns [True] exactly when the id is queued; on
    [False] nothing has changed; a second call with the same id returns
    [False] and changes nothing; the remaining queue is the old one
    without the entries carrying the id, and the history is untouched. *)
Theorem remove_content_outcome (cid : string) (self : t) :
  let removed := (remove_content cid self).1 in
  let self' := (remove_content cid self).2 in
  (removed = true ↔ cid ∈ queue_ids self)
  ∧ (removed = false → self' = self)
  ∧ remove_content cid self' = (false, self')
  ∧ queue self' `sublist_of` queue self
  ∧ (∀ c, c ∈ queue self' ↔ c ∈ queue self ∧ content_id c ≠ cid)
  ∧ posting_history self' = posting_history self.
Proof.
  intros removed self'. unfold removed, self', remove_content. simpl.
  assert (bool_decide
            (length (filter (λ c, content_id c ≠ cid) (queue self))
             < length (queue self))%nat = true
          ↔ cid ∈ queue_ids self) as Hret.
  { rewrite bool_decide_eq_true, length_filter_lt_iff. unfold queue_ids.
    rewrite list_elem_of_fmap. split.
    - intros (c & Hc & Hid). exists c. split; [|done].
      by destruct (decide (content_id c = cid)).
    - intros (c & -> & Hc). exists c. split; [done|]. by intros []. }
  split; [exact Hret|]. split; [|split; [|split; [|split]]].
  - intros Hfalse. destruct self as [q h]. simpl in *. f_equal.
    apply filter_all, Forall_forall. intros c Hc Heq.
    apply not_true_iff_false in Hfalse. apply Hfalse, Hret.
    unfold queue_ids. simpl. apply list_elem_of_fmap. by exists c.
  - f_equal.
    + apply bool_decide_eq_false. rewrite length_filter_lt_iff.
      intros (c & [Hne _]%list_elem_of_filter & Hc). done.
    + f_equal. apply filter_all, Forall_forall.
      by intros c [Hne _]%list_elem_of_filter.
  - apply sublist_filter.
  - intros c. rewrite list_elem_of_filter. tauto.
  - done.
Qed.

(** [reschedule_content] returns [True] exactly when the id is queued;
    on [False] nothing has changed; on [True] the first queued entry with
    the id has the new time, and so has every later entry that is a
    reference to the same object, every other entry being as it was; the
    queue is sorted again; the history is untouched.  When no other entry
    refers to the object found, that entry is the only one to change. *)
Theorem reschedule_content_outcome (cid : string) (new_time : datetime)
    (shared : nat → bool) (self : t) :
  let found := (reschedule_content cid new_time shared self).1 in
  let self' := (reschedule_content cid new_time shared self).2 in
  let assigned c := set_scheduled_time (isoformat new_time) c in
  (found = true ↔ cid ∈ queue_ids self)
  ∧ (found = false → self' = self)
  ∧ (found = true →
     ∃ q1 c q2,
       queue self = q1 ++ c :: q2 ∧ content_id c = cid
       ∧ (cid ∉ content_id <$> q1)
       ∧ queue self'
         ≡ₚ q1 ++ assigned c
                  :: imap (λ j c', if shared j && bool_decide (c' = c)
                                   then assigned c' else c') q2
       ∧ ((∀ j c', q2 !! j = Some c' → c' = c → shared j = false) →
          queue self' ≡ₚ q1 ++ assigned c :: q2)
       ∧ queue_sorted (queue self'))
  ∧ posting_history self' = posting_history self.
Proof.
  intros found self' assigned.
  unfold found, self', reschedule_content, queue_ids.
  destruct (reschedule_first cid (isoformat new_time) shared (queue self))
    as [q|] eqn:Hq; simpl.
  - split; [|split; [done|split; [|done]]].
    + split; [intros _|done].
      destruct (decide (cid ∈ content_id <$> queue self)) as [|Hn]; [done|].
      apply (reschedule_first_None cid (isoformat new_time) shared) in Hn.
      congruence.
    + intros _.
      destruct (reschedule_first_Some _ _ _ _ _ Hq)
        as (q1 & c & q2 & Hself & Hc & Hq1 & ->).
      exists q1, c, q2.
      split; [done|]. split; [done|]. split; [done|].
      split; [apply sort_queue_perm|].
      split; [|apply sort_queue_sorted].
      intros Hno. rewrite sort_queue_perm.
      by rewrite assign_shared_none.
  - split; [|split; [done|split; [done|done]]].
    split; [done|]. intros Hin. by apply reschedule_first_None in Hq.
Qed.

(** [add_batch] leaves the queue with the old entries and the new ones,
    each as often as before, in sorted order, and the history untouched;
    [add_content] is [add_batch] of one item; adding nothing to a sorted
    queue changes nothing. *)
Theorem add_batch_merges (contents : list QueuedContent) (self : t) :
  let self' := add_batch contents self in
  queue self' ≡ₚ queue self ++ contents
  ∧ queue_sorted (queue self')
  ∧ posting_history self' = posting_history self
  ∧ (∀ c, add_content c self = add_batch [c] self)
  ∧ (queue_sorted (queue self) → add_batch [] self = self).
Proof.
  intros self'. split; [apply sort_queue_perm|].
  split; [apply sort_queue_sorted|]. split; [done|]. split; [done|].
  intros Hsorted. unfold add_batch, _sort_queue. simpl.
  rewrite app_nil_r. destruct self as [q h]. simpl in *. f_equal.
  unfold sort_queue. apply stable_sort_id.
  eapply StronglySorted_weaken; [|exact Hsorted].
  intros x y [Hle Hp]. unfold may_precede. apply tuple_ltb_false_intro.
  - exact Hle.
  - simpl. intros Heq. specialize (Hp Heq). lia.
Qed.
End unified_queue_manager_more.

(** ** social_publisher.py, results and bookkeeping *)

Section preserves_facts.
Context {S : Type} (R : S → S → Prop).
Hypothesis R_refl : ∀ s, R s s.
Hypothesis R_trans : ∀ s1 s2 s3, R s1 s2 → R s2 s3 → R s1 s3.

Lemma preserves_ret {A} (a : A) : preserves R (ret a).
Proof using R_refl. intros s. apply R_refl. Qed.

Lemma preserves_raise {A} e : preserves R (raise (A := A) e).
Proof using R_refl. intros s. apply R_refl. Qed.

Lemma preserves_get : preserves R get.
Proof using R_refl. intros s. apply R_refl. Qed.

Lemma preserves_gets {A} (f : S → A) : preserves R (gets f).
Proof using R_refl. intros s. apply R_refl. Qed.

Lemma preserves_bind {A B} (m : M S A) (k : A → M S B) :
  preserves R m → (∀ a, preserves R (k a)) → preserves R (bind m k).
Proof using R_trans.
  intros Hm Hk s. specialize (Hm s). unfold bind.
  destruct (m s) as [[a|e] s1]; simpl in *; [|done].
  eapply R_trans; [exact Hm|apply Hk].
Qed.

Lemma preserves_try_except {A} (m : M S A) (h : exn → M S A) :
  preserves R m → (∀ e, preserves R (h e)) → preserves R (try_except m h).
Proof using R_trans.
  intros Hm Hh s. specialize (Hm s). unfold try_except.
  destruct (m s) as [[a|e] s1]; simpl in *; [done|].
  eapply R_trans; [exact Hm|apply Hh].
Qed.
End preserves_facts.

Section social_media_publisher_more.
Import SocialMediaPublisher.

Lemma same_history_refl self : same_history self self.
Proof. split; [done|apply same_budget_refl]. Qed.

Lemma same_history_trans s1 s2 s3 :
  same_history s1 s2 → same_history s2 s3 → same_history s1 s3.
Proof.
  intros [H1 B1] [H2 B2]. split; [congruence|].
  by eapply same_budget_trans.
Qed.

Lemma same_history_http r : preserves same_history (http r).
Proof.
  intros self. unfold http.
  destruct (responses (world self)) as [|[data|e] rs]; by repeat split.
Qed.

Lemma same_history_tokens f :
  preserves same_history (modify (set_page_access_tokens f)).
Proof. intros self. by repeat split. Qed.

(** Takes a goal [preserves same_history m] apart along the structure of
    [m]. *)
Ltac same_history :=
  repeat first
    [ apply (preserves_ret same_history same_history_refl)
    | apply (preserves_raise same_history same_history_refl)
    | apply (preserves_get same_history same_history_refl)
    | apply (preserves_gets same_history same_history_refl)
    | apply same_history_http | apply same_history_tokens
    | apply (preserves_bind same_history same_history_trans); [|intros ?]
    | apply (preserves_try_except same_history same_history_trans); [|intros ?]
    | match goal with
      | |- preserves _ (if ?b then _ else _) => destruct b
      | |- preserves _ (match ?x with _ => _ end) => destruct x
      end ].

Lemma same_history_get_page_access_token page_id :
  preserves same_history (_get_page_access_token page_id).
Proof. unfold _get_page_access_token. same_history. Qed.

Lemma same_history_post_facebook_text message link page_id :
  preserves same_history (_post_facebook_text message link page_id).
Proof. unfold _post_facebook_text. same_history. Qed.

Lemma same_history_post_facebook_photo message image_path page_id :
  preserves same_history (_post_facebook_photo message image_path page_id).
Proof. unfold _post_facebook_photo. same_history. Qed.

(** [_get_page_access_token] asks the Graph API at most once per page: a
    cached token is returned without a request and without a change; a
    token the API hands out is cached, so that the next call returns it
    from the cache; a failed lookup returns [None], caches nothing, and
    the call never raises.  Tokens of other pages are not touched. *)
Theorem page_token_fetched_once (page_id : string) (self : t) :
  ∃ token self',
    _get_page_access_token page_id self = (Ok token, self')
    ∧ (∀ tok, page_access_tokens self !! page_id = Some tok →
         token = Some tok ∧ self' = self)
    ∧ (∀ tok, token = Some tok →
         page_access_tokens self' !! page_id = Some tok
         ∧ _get_page_access_token page_id self' = (Ok (Some tok), self'))
    ∧ (token = None → page_access_tokens self' = page_access_tokens self)
    ∧ (∀ other, other ≠ page_id →
         page_access_tokens self' !! other = page_access_tokens self !! other)
    ∧ (page_access_tokens self !! page_id = None →
         trace (world self')
         = trace (world self)
           ++ [Http (GetPageToken page_id (fb_page_token self))]).
Proof.
  assert (∀ s tok, page_access_tokens s !! page_id = Some tok →
            _get_page_access_token page_id s = (Ok (Some tok), s)) as Hcached.
  { intros s tok Hs. unfold _get_page_access_token.
    rewrite bind_get, Hs. done. }
  destruct (page_access_tokens self !! page_id) as [tok0|] eqn:Hc.
  { exists (Some tok0), self. rewrite (Hcached self tok0 Hc).
    split; [done|]. split; [by intros ? [= <-]|].
    split; [intros tok [= <-]; auto|]. done. }
  unfold _get_page_access_token at 1. rewrite bind_get, Hc.
  unfold try_except at 1. rewrite bind_unfold. unfold http at 1.
  destruct (responses (world self)) as [|[data|e] rs]; simpl.
  - eexists None, _. split; [done|]. repeat split; try done.
  - destruct (json_access_token data) as [tok|] eqn:Htok; simpl.
    + eexists (Some tok), _. split; [done|].
      split; [done|]. split.
      { intros ? [= <-]. simpl. split; [apply lookup_insert_eq|].
        apply Hcached. simpl. apply lookup_insert_eq. }
      split; [done|]. split; [|done].
      intros other Hne. simpl. by rewrite lookup_insert_ne.
    + eexists None, _. split; [done|]. repeat split; try done.
  - eexists None, _. split; [done|]. repeat split; try done.
Qed.

(** [throttle] returns, and changes neither history nor credentials nor
    cached tokens. *)
Lemma throttle_frame platform self :
  ∃ self', throttle platform self = (Ok tt, self')
           ∧ publishing_history self' = publishing_history self
           ∧ fb_page_id self' = fb_page_id self
           ∧ fb_page_token self' = fb_page_token self
           ∧ path_exists (world self') = path_exists (world self)
           ∧ (rate_limits self' = rate_limits self
              ∨ ∃ b, rate_limits self !! platform = Some b
                     ∧ rate_limits self'
                       = <[platform := consumed (refreshed platform
                                         (clock (world self)) b)]>
                           (rate_limits self)).
Proof.
  unfold throttle, mbind, M_bind, bind.
  destruct (rate_limits self !! platform) as [b|] eqn:Hb.
  - rewrite (check_rate_limit_spec platform self b Hb).
    destruct (0 <? remaining _); simpl; eexists; (split; [done|]);
      repeat split; eauto.
  - rewrite check_rate_limit_unlimited by done. simpl.
    eexists; (split; [done|]); repeat split; eauto.
Qed.

Lemma consumed_refreshed_ok platform now b :
  0 ≤ remaining b ≤ capacity platform →
  0 ≤ remaining (consumed (refreshed platform now b)) ≤ capacity platform.
Proof.
  intros Hb. pose proof (capacity_pos platform).
  unfold consumed, refreshed.
  destruct (reset_time b <? now); simpl.
  - destruct (Z.ltb_spec 0 (capacity platform)); simpl; lia.
  - destruct (Z.ltb_spec 0 (remaining b)); simpl; lia.
Qed.

Lemma budget_ok_insert platform self self' b :
  budget_ok self →
  rate_limits self !! platform = Some b →
  rate_limits self'
  = <[platform := consumed (refreshed platform (clock (world self)) b)]>
      (rate_limits self) →
  budget_ok self'.
Proof.
  intros Hok Hb Hlimits p b'. rewrite Hlimits.
  destruct (decide (p = platform)) as [->|Hne].
  - rewrite lookup_insert_eq. intros [= <-].
    apply consumed_refreshed_ok. by apply Hok.
  - rewrite lookup_insert_ne by done. apply Hok.
Qed.

Lemma budget_ok_same self self' :
  rate_limits self' = rate_limits self → budget_ok self → budget_ok self'.
Proof. intros Heq Hok p b. rewrite Heq. apply Hok. Qed.

Lemma budget_ok_throttle platform self :
  budget_ok self → budget_ok (throttle platform self).2.
Proof.
  intros Hok.
  destruct (throttle_frame platform self)
    as (self' & -> & _ & _ & _ & _ & [Heq|(b & Hb & Heq)]); simpl.
  - by eapply budget_ok_same.
  - by eapply budget_ok_insert.
Qed.

Context `{!IsoFormat}.

Lemma keeps_budget_threads_attempt content link image_path template_name :
  keeps_budget (threads_attempt content link image_path template_name).
Proof.
  unfold threads_attempt, _record_publish, succeeded, failure, datetime_now,
    image_present.
  repeat first
    [ apply keeps_budget_ret | apply keeps_budget_get
    | apply keeps_budget_gets | apply keeps_budget_http
    | apply keeps_budget_lift_result
    | apply keeps_budget_history
    | apply keeps_budget_bind; [|intros ?]
    | apply keeps_budget_try_except; [|intros ?]
    | match goal with
      | |- keeps_budget (if ?b then _ else _) => destruct b
      | |- keeps_budget (match ?x with _ => _ end) => destruct x
      end ].
Qed.

Lemma failure_outcome platform msg template_name page self :
  consistent_outcome platform template_name page self self
    {| success := false; platform := platform; post_id := None;
       error_message := Some msg;
       timestamp := isoformat {| ticks := clock (world self);
                                 utcoffset := None |};
       template_name := template_name |}.
Proof. repeat split; eauto. Qed.

Lemma facebook_attempt_outcome content link image_path template_name
    target self :
  truthy target = true →
  ∃ r self',
    facebook_attempt content link image_path template_name target self
    = (Ok r, self')
    ∧ consistent_outcome "facebook" template_name target self self' r.
Proof.
  intros Htarget. unfold facebook_attempt, try_except.
  rewrite bind_unfold.
  destruct (image_present_state image_path self) as [[with_photo|e] ->].
  2:{ unfold failure, datetime_now. rewrite bind_gets.
      eexists _, _. split; [done|]. unfold consistent_outcome. simpl.
      repeat split; eauto. }
  rewrite bind_unfold.
  match goal with
  | |- context [ match ?m self with _ => _ end ] =>
      assert (preserves same_history m) as Hm;
        [destruct with_photo;
         [apply same_history_post_facebook_photo
         |apply same_history_post_facebook_text]|];
      specialize (Hm self);
      destruct (m self) as [[[pid|err]|e] s1]
  end; simpl in Hm; destruct Hm as (Hh & _ & Hclock & Hpage & _).
  - unfold _record_publish, succeeded, datetime_now, get, gets, modify,
      mbind, M_bind, bind, mret, M_ret, ret. simpl.
    eexists _, _. split; [done|]. unfold consistent_outcome. simpl.
    do 5 (split; [done|]). eexists. rewrite Hh. split; [done|]. simpl.
    do 3 (split; [done|]). unfold py_or. by rewrite Htarget.
  - unfold failure, datetime_now. rewrite bind_gets.
    eexists _, _. split; [done|]. unfold consistent_outcome. simpl.
    repeat split; eauto.
  - unfold failure, datetime_now. rewrite bind_gets.
    eexists _, _. split; [done|]. unfold consistent_outcome. simpl.
    repeat split; eauto.
Qed.

(** [publish_to_facebook] never raises.  Its result names the platform
    and the template; a result with a post id is a success, and exactly
    then one record, for that id and the page posted to, has been appended
    to the publishing history; every other result is a failure with a
    message and leaves the history as it was.  With the page id or the
    token missing nothing at all happens but the report. *)
Theorem publish_to_facebook_outcome (content link : string)
    (image_path : option string) (template_name : string)
    (page_id : option string) (self : t) :
  ∃ r self',
    publish_to_facebook content link image_path template_name page_id self
    = (Ok r, self')
    ∧ consistent_outcome "facebook" template_name
        (py_or page_id (fb_page_id self)) self self' r
    ∧ (truthy (py_or page_id (fb_page_id self)) = false
       ∨ truthy (fb_page_token self) = false →
       self' = self ∧ error_message r = Some "Missing credentials").
Proof.
  unfold publish_to_facebook. rewrite bind_get.
  destruct (truthy (py_or page_id (fb_page_id self))) eqn:Hpage; simpl.
  - destruct (truthy (fb_page_token self)) eqn:Htoken; simpl.
    + rewrite bind_unfold.
      destruct (throttle_frame "facebook" self)
        as (s1 & -> & Hh & Hid & _).
      destruct (facebook_attempt_outcome content link image_path
                  template_name (py_or page_id (fb_page_id self)) s1 Hpage)
        as (r & self' & -> & Hout).
      exists r, self'. split; [done|]. split; [|by intros [|]].
      unfold consistent_outcome in *. rewrite Hh in Hout. exact Hout.
    + unfold failure, datetime_now. rewrite bind_gets.
      eexists _, _. split; [done|]. split; [apply failure_outcome|done].
  - unfold failure, datetime_now. rewrite bind_gets.
    eexists _, _. split; [done|]. split; [apply failure_outcome|done].
Qed.

Lemma threads_attempt_outcome content link image_path template_name self :
  ∃ r self',
    threads_attempt content link image_path template_name self = (Ok r, self')
    ∧ consistent_outcome "threads" template_name (fb_page_id self) self self' r.
Proof.
  unfold threads_attempt, try_except. rewrite bind_get, bind_unfold.
  destruct (image_present_state image_path self) as [[with_image|e] ->].
  2:{ unfold failure, datetime_now. rewrite bind_gets.
      eexists _, _. split; [done|]. unfold consistent_outcome. simpl.
      repeat split; eauto. }
  unfold _record_publish, succeeded, failure,
    datetime_now, http, get, gets, modify, mbind, M_bind, bind, mret, M_ret,
    ret.
  simpl.
  destruct (responses (world self)) as [|[d1|e1] rs]; simpl;
    [eexists _, _; split; [done|]; repeat split; eauto| |
     eexists _, _; split; [done|]; repeat split; eauto].
  destruct (json_id d1) as [container|]; simpl;
    [|eexists _, _; split; [done|]; repeat split; eauto].
  destruct rs as [|[d2|e2] rs]; simpl;
    [eexists _, _; split; [done|]; repeat split; eauto| |
     eexists _, _; split; [done|]; repeat split; eauto].
  destruct (json_id d2) as [pid|] eqn:Hpid; simpl;
    eexists _, _; (split; [done|]); unfold consistent_outcome; simpl.
  - do 5 (split; [done|]). eexists. split; [done|]. done.
  - repeat split; eauto.
Qed.

(** [publish_to_threads] never raises, and reports the same way: a post
    id exactly on success, with exactly one history record appended for
    it, under the default page id; a failure leaves the history as it was.
    Without a token nothing at all happens but the report. *)
Theorem publish_to_threads_outcome (content link : string)
    (image_path : option string) (template_name : string) (self : t) :
  ∃ r self',
    publish_to_threads content link image_path template_name self
    = (Ok r, self')
    ∧ consistent_outcome "threads" template_name (fb_page_id self)
        self self' r
    ∧ (truthy (fb_page_token self) = false →
       self' = self ∧ error_message r = Some "Missing credentials").
Proof.
  unfold publish_to_threads. rewrite bind_get.
  destruct (truthy (fb_page_token self)) eqn:Htoken; simpl.
  - rewrite bind_unfold.
    destruct (throttle_frame "threads" self) as (s1 & -> & Hh & Hid & _).
    destruct (threads_attempt_outcome content link image_path
                template_name s1) as (r & self' & -> & Hout).
    exists r, self'. split; [done|]. split; [|done].
    unfold consistent_outcome in *. rewrite Hh, Hid in Hout. exact Hout.
  - unfold failure, datetime_now. rewrite bind_gets.
    eexists _, _. split; [done|]. split; [apply failure_outcome|done].
Qed.

(** A budget between zero and the platform's allowance stays there: no
    check and no publish call, on any platform and whatever the Graph API
    answers, takes a count below zero or above the allowance. *)
Theorem budget_within_capacity (self : t) :
  budget_ok self →
  (∀ platform, budget_ok (_check_rate_limit platform self).2)
  ∧ (∀ content link image_path template_name page_id,
       budget_ok (publish_to_facebook content link image_path template_name
                                      page_id self).2)
  ∧ (∀ content link image_path template_name,
       budget_ok (publish_to_threads content link image_path template_name
                                     self).2)
  ∧ (∀ content image_path template_name,
       budget_ok (publish_to_instagram content image_path template_name
                                       self).2).
Proof.
  intros Hok. split; [|split; [|split]].
  - intros platform.
    destruct (rate_limits self !! platform) as [b|] eqn:Hb.
    + rewrite (check_rate_limit_spec platform self b Hb). simpl.
      by eapply budget_ok_insert.
    + by rewrite check_rate_limit_unlimited.
  - intros content link image_path template_name page_id.
    unfold publish_to_facebook. rewrite bind_get.
    destruct (_ || _); [done|]. rewrite bind_unfold.
    pose proof (budget_ok_throttle "facebook" self Hok) as Hthr.
    destruct (throttle "facebook" self) as [[[]|e] s1]; simpl in *; [|done].
    eapply budget_ok_same; [|exact Hthr].
    apply keeps_budget_facebook_attempt.
  - intros content link image_path template_name.
    unfold publish_to_threads. rewrite bind_get.
    destruct (negb _); [done|]. rewrite bind_unfold.
    pose proof (budget_ok_throttle "threads" self Hok) as Hthr.
    destruct (throttle "threads" self) as [[[]|e] s1]; simpl in *; [|done].
    eapply budget_ok_same; [|exact Hthr].
    apply keeps_budget_threads_attempt.
  - intros content image_path template_name.
    unfold publish_to_instagram. rewrite bind_get.
    destruct (_ || _); [done|]. rewrite bind_unfold.
    destruct (image_present_state image_path self) as [[with_image|e] ->];
      [|done].
    destruct (negb _); [done|].
    rewrite bind_unfold.
    pose proof (budget_ok_throttle "instagram" self Hok) as Hthr.
    destruct (throttle "instagram" self) as [[[]|e] s1]; simpl in *; [|done].
    done.
Qed.

Lemma checked_diff_can_sub d delta :
  can_sub d delta →
  (td ← timedelta_of delta; dt_plus d (- td)) = Ok (dt_add d (- delta)).
Proof.
  intros [Htd Hdiff].
  rewrite (timedelta_of_in_range _ Htd). cbn [mbind result_bind].
  apply dt_plus_in_range. lia.
Qed.

Lemma checked_diff_overflows d delta :
  ¬ can_sub d delta → overflows (td ← timedelta_of delta; dt_plus d (- td)).
Proof.
  intros Hno.
  destruct (decide (-999999999 ≤ delta / 86400000000 ≤ 999999999))
    as [Htd|Htd].
  - rewrite (timedelta_of_in_range _ Htd). cbn [mbind result_bind].
    apply dt_plus_out_of_range. unfold can_sub in Hno. lia.
  - destruct (timedelta_of_out_of_range _ Htd) as [msg ->]. by exists msg.
Qed.

Lemma recently_published_filter platform n_days self :
  can_sub {| ticks := clock (world self); utcoffset := None |} (days n_days) →
  get_recently_published platform n_days self
  = (Ok (filter (λ record, is_recent (clock (world self)) n_days record
                           ∧ (platform = None
                              ∨ platform = Some (r_platform record)))
                (publishing_history self)),
     self).
Proof.
  intros Hsub. unfold get_recently_published, datetime_now.
  rewrite bind_gets, bind_unfold. unfold lift_result.
  rewrite (checked_diff_can_sub _ _ Hsub).
  rewrite bind_get. unfold mret, M_ret, ret. f_equal. f_equal.
  enough (∀ acc,
    foldl (λ recent record,
             match (record_time ← fromisoformat (r_timestamp record);
                    dt_lt (dt_add {| ticks := clock (world self);
                                     utcoffset := None |} (- days n_days))
                          record_time) with
             | Ok true =>
                 if match platform with
                    | None => true
                    | Some p => bool_decide (r_platform record = p)
                    end
                 then recent ++ [record] else recent
             | Ok false => recent
             | Raise _ => recent
             end) acc (publishing_history self)
    = acc ++ filter (λ record, is_recent (clock (world self)) n_days record
                               ∧ (platform = None
                                  ∨ platform = Some (r_platform record)))
                    (publishing_history self)) as Hgen by apply Hgen.
  clear Hsub.
  induction (publishing_history self) as [|record h IH]; intros acc; simpl;
    [by rewrite app_nil_r|].
  rewrite IH, filter_cons. clear IH.
  assert (is_recent (clock (world self)) n_days record
          ↔ ∃ tk, fromisoformat (r_timestamp record)
                  = Ok {| ticks := tk; utcoffset := None |}
                  ∧ clock (world self) - days n_days < tk) as Hrec.
  { unfold is_recent. destruct (fromisoformat _) as [[tk [o|]]|e].
    - split; [done|]. by intros (? & [=] & _).
    - split; [eauto|]. by intros (? & [= <-] & ?).
    - split; [done|]. by intros (? & [=] & _). }
  unfold dt_lt, dt_add, mbind, result_bind. simpl.
  destruct (decide (_ ∧ _)) as [[Hr Hp]|Hn].
  - apply Hrec in Hr as (tk & -> & Htk). simpl.
    destruct (Z.ltb_spec (clock (world self) + - days n_days) tk); [|lia].
    destruct platform as [p|]; [|by rewrite <- app_assoc].
    destruct Hp as [[=]|[= <-]]. rewrite bool_decide_eq_true_2 by done.
    by rewrite <- app_assoc.
  - destruct (fromisoformat (r_timestamp record)) as [[tk [o|]]|e]
      eqn:Hparse; simpl; try done.
    destruct (Z.ltb_spec (clock (world self) + - days n_days) tk); [|done].
    assert (is_recent (clock (world self)) n_days record) as Hr.
    { apply Hrec. exists tk. split; [done|lia]. }
    destruct platform as [p|].
    + destruct (bool_decide_reflect (r_platform record = p)) as [<-|];
        [|done].
      destruct Hn. split; [done|by right].
    + destruct Hn. split; [done|by left].
Qed.

Lemma recently_published_overflows platform n_days self :
  ¬ can_sub {| ticks := clock (world self); utcoffset := None |}
            (days n_days) →
  ∃ msg, get_recently_published platform n_days self
         = (Raise (OverflowError msg), self).
Proof.
  intros Hsub. unfold get_recently_published, datetime_now.
  rewrite bind_gets, bind_unfold. unfold lift_result.
  destruct (checked_diff_overflows _ _ Hsub) as [msg ->]. by exists msg.
Qed.

(** [get_recently_published] changes nothing.  When [now - days] is a
    time Python can represent it returns, in the order of the history,
    exactly the records of the platform asked for (of any platform when
    none is named) whose timestamp parses to a time later than
    [now - days]; records with an unreadable timestamp are left out.
    When [now - days] cannot be represented it raises [OverflowError]. *)
Theorem recently_published_members (platform : option string) (n_days : Z)
    (self : t) :
  let now := {| ticks := clock (world self); utcoffset := None |} in
  (can_sub now (days n_days) →
   ∃ recent,
     get_recently_published platform n_days self = (Ok recent, self)
     ∧ recent `sublist_of` publishing_history self
     ∧ (∀ record, record ∈ recent ↔
          record ∈ publishing_history self
          ∧ (∃ tk, fromisoformat (r_timestamp record)
                   = Ok {| ticks := tk; utcoffset := None |}
                   ∧ clock (world self) - days n_days < tk)
          ∧ (platform = None ∨ platform = Some (r_platform record))))
  ∧ (¬ can_sub now (days n_days) →
     ∃ msg, get_recently_published platform n_days self
            = (Raise (OverflowError msg), self)).
Proof.
  intros now. split; [|apply recently_published_overflows].
  intros Hsub.
  eexists. split; [by apply recently_published_filter|].
  split; [apply sublist_filter|].
  intros record. rewrite list_elem_of_filter. unfold is_recent.
  destruct (fromisoformat (r_timestamp record)) as [[tk [o|]]|e].
  - split; [tauto|]. by intros (_ & (? & [=] & _) & _).
  - split.
    + intros [[Htk Hp] Hin]. eauto.
    + intros (Hin & (? & [= <-] & Htk) & Hp). done.
  - split; [tauto|]. by intros (_ & (? & [=] & _) & _).
Qed.

(** What [_record_publish] writes down is found again: when the
    timestamp it writes reads back as the time it was written at, the new
    record is the last one [get_recently_published] returns for that
    platform, at every clock reading less than [days] later from which
    [days] can be subtracted. *)
Theorem recorded_publish_is_recent (platform template_name post_id : string)
    (page_id : option string) (n_days later : Z) (self : t) :
  let now := {| ticks := clock (world self); utcoffset := None |} in
  fromisoformat (isoformat now) = Ok now →
  later - days n_days < clock (world self) →
  can_sub {| ticks := later; utcoffset := None |} (days n_days) →
  ∃ self' recent record,
    _record_publish platform template_name post_id page_id self
    = (Ok tt, self')
    ∧ get_recently_published (Some platform) n_days (set_clock later self')
      = (Ok recent, set_clock later self')
    ∧ last recent = Some record
    ∧ r_post_id record = post_id
    ∧ r_template_name record = template_name
    ∧ r_page_id record = py_or page_id (fb_page_id self).
Proof.
  intros now Hround Hlater Hsub.
  unfold _record_publish, datetime_now.
  rewrite bind_get, bind_gets. unfold modify. fold now.
  eexists _, _, _. split; [done|].
  rewrite recently_published_filter by done. simpl. split; [done|].
  rewrite filter_app, filter_cons. simpl.
  rewrite decide_True.
  - rewrite filter_nil, last_snoc. done.
  - split; [|by right]. unfold is_recent. simpl. fold now. rewrite Hround.
    done.
Qed.
End social_media_publisher_more.

(** ** smart_scheduler.py, the queue and the dispatch loop *)

Lemma for_each_modify {S A} (c : A → bool) (f : A → S → S) (l : list A) :
  ∀ s, for_each l (λ x, if c x then modify (f x) else mret tt) s
       = (Ok tt, foldl (λ s x, if c x then f x s else s) s l).
Proof.
  induction l as [|x l IH]; intros s; simpl; [done|].
  unfold bind. destruct (c x); simpl; apply IH.
Qed.

Section smart_scheduler_more.
Import SmartScheduler.

(** [_calculate_priority] lies between 5 and 10, so that the cap at 10
    never cuts anything off; it reaches 10 only for an Instagram post of a
    template of complexity 4 or more with plots and computed content, stays
    below 10 on the other platforms, and below 9 without plots. *)
Theorem calculate_priority_range (template : TemplateMetadata)
    (platform : string) :
  let priority := _calculate_priority template platform in
  5 ≤ priority ≤ 10
  ∧ (platform ≠ "instagram" → priority ≤ 9)
  ∧ (plot_files template = [] → priority ≤ 8)
  ∧ (priority = 10 ↔
       platform = "instagram" ∧ 4 ≤ complexity_score template
       ∧ plot_files template ≠ []
       ∧ has_pythontex template || has_sagetex template = true).
Proof.
  unfold _calculate_priority.
  destruct (Z.leb_spec 4 (complexity_score template)),
           (Z.leb_spec 3 (complexity_score template)),
           (plot_files template) as [|f fs],
           (has_pythontex template || has_sagetex template),
           (bool_decide_reflect (platform = "instagram"));
    simpl; repeat split; try done; try lia; try tauto;
    try (intros; destruct_and?; done || lia).
Qed.

Context {P : Type} `{!Publisher P} `{!IsoFormat}.

(** [add_to_queue] leaves in the queue the posts that were there and the
    new ones, each as often as before, by non-decreasing scheduled time
    (as strings) and, for one scheduled time, by non-increasing priority;
    nothing else of the scheduler changes. *)
Theorem add_to_queue_sorts (posts : list loc) (self : t P) :
  ∃ self',
    add_to_queue posts self = (Ok tt, self')
    ∧ queue self' ≡ₚ queue self ++ posts
    ∧ StronglySorted (λ x y, post_order (heap self x) (heap self y))
                     (queue self')
    ∧ heap self' = heap self
    ∧ recent_templates self' = recent_templates self
    ∧ publisher self' = publisher self.
Proof.
  unfold add_to_queue. rewrite bind_modify, bind_get. unfold modify.
  eexists. split; [done|]. simpl. split; [|split; [|done]].
  - apply stable_sort_perm.
  - eapply StronglySorted_weaken; [|apply stable_sort_sorted].
    + intros x y [H1 H2]%tuple_ltb_false. simpl in *. split; [done|].
      intros Heq. specialize (H2 Heq). lia.
    + intros x y. apply tuple_ltb_asym.
    + intros x y z. apply tuple_may_precede_trans.
Qed.

(** [get_posts_due(w)] changes nothing.  When [now + w] is a time Python
    can represent it returns, in queue order, exactly the queued posts
    whose scheduled time parses to a naive datetime in [[now, now + w]]; a
    post whose time does not parse is left out silently.  When [now + w]
    cannot be represented it raises [OverflowError]. *)
Theorem get_posts_due_window (w : Z) (self : t P) :
  let now := {| ticks := clock self; utcoffset := None |} in
  (can_add now (minutes w) →
   ∃ due,
     get_posts_due w self = (Ok due, self)
     ∧ due `sublist_of` queue self
     ∧ (∀ post, post ∈ due ↔
          post ∈ queue self
          ∧ ∃ tk, fromisoformat (scheduled_time (heap self post))
                  = Ok {| ticks := tk; utcoffset := None |}
                  ∧ clock self ≤ tk ≤ clock self + minutes w)
     ∧ (∀ post e, fromisoformat (scheduled_time (heap self post)) = Raise e →
          post ∉ due))
  ∧ (¬ can_add now (minutes w) →
     ∃ msg, get_posts_due w self = (Raise (OverflowError msg), self)).
Proof.
  intros now. split; [|apply get_posts_due_overflows].
  intros Hadd.
  eexists. split; [by apply get_posts_due_filter|].
  split; [apply sublist_filter|]. split.
  - intros post. rewrite list_elem_of_filter. unfold post_due.
    destruct (fromisoformat (scheduled_time (heap self post)))
      as [[tk [o|]]|e].
    + split; [tauto|]. by intros (_ & ? & [=] & _).
    + split; [intros [? ?]; eauto|]. by intros (? & ? & [= <-] & ?).
    + split; [tauto|]. by intros (_ & ? & [=] & _).
  - intros post e He. rewrite list_elem_of_filter. unfold post_due.
    rewrite He. tauto.
Qed.

(** [publish_post] never raises, whatever its publisher does, and it
    returns [False] unless a publish succeeded.  It takes posts out of the
    queue or leaves the queue as it is (always so when it returns
    [False]), adds none, changes no other post, and of the post itself at
    most the scheduled time. *)
Theorem publish_post_contained (post : loc) (self : t P) :
  ∃ ok self',
    publish_post post self = (Ok ok, self')
    ∧ dispatched [post] self self'
    ∧ (ok = false → queue self' = queue self)
    ∧ (ok = true →
       ∃ r pub', publisher_call (heap self post) (publisher self)
                 = (Ok r, pub')
                 ∧ SocialMediaPublisher.success r = true).
Proof.
  destruct (publish_post_dispatched post self)
    as (ok & self' & Hrun & Hd & Hq & _).
  exists ok, self'. split; [done|]. split; [done|]. split; [done|].
  intros ->.
  destruct (decide (publishable (heap self post))) as [Hp|Hp].
  - destruct (publisher_call (heap self post) (publisher self))
      as [outcome pub'] eqn:Hcall.
    rewrite (publish_post_publishable post self outcome pub' Hp Hcall) in Hrun.
    destruct outcome as [r|e].
    + destruct (SocialMediaPublisher.success r) eqn:Hr; [eauto|].
      by destruct (_reschedule_post post _).
    + by destruct (_reschedule_post post _).
  - exfalso. unfold publishable in Hp.
    unfold publish_post, try_except in Hrun. rewrite bind_gets in Hrun.
    destruct (decide (platform (heap self post) = "facebook")); [tauto|].
    destruct (decide (platform (heap self post) = "threads")); [tauto|].
    destruct (decide (platform (heap self post) = "instagram")); [|done].
    destruct (truthy (image_path (heap self post))) eqn:Himg; [tauto|].
    done.
Qed.

(** [check_and_publish] dispatches the posts due within the next minute
    and, as long as the clock is not in the last minute a [datetime]
    holds, never raises: afterwards the queue holds a part of what it
    held, in the same order; a post that was not due is as it was, and a
    due post has changed at most its scheduled time.  In that last minute
    it raises [OverflowError] and changes nothing. *)
Theorem check_and_publish_contained (self : t P) :
  let now := {| ticks := clock self; utcoffset := None |} in
  (can_add now (minutes 1) →
   ∃ self',
     check_and_publish self = (Ok tt, self')
     ∧ dispatched
         (filter (λ post, post_due (clock self) 1 (heap self post))
                 (queue self))
         self self')
  ∧ (¬ can_add now (minutes 1) →
     ∃ msg, check_and_publish self = (Raise (OverflowError msg), self)).
Proof.
  intros now. split.
  - intros Hadd.
    unfold check_and_publish. rewrite bind_unfold, get_posts_due_filter by done.
    generalize (filter (λ post, post_due (clock self) 1 (heap self post))
                       (queue self)).
    clear Hadd now.
    intros due. revert self. induction due as [|post due IH]; intros self.
    { exists self. split; [done|apply dispatched_refl]. }
    simpl. unfold bind at 1. rewrite bind_unfold.
    destruct (publish_post_dispatched post self) as (ok & s1 & -> & Hd1 & _).
    destruct (IH s1) as (s2 & Hrun & Hd2).
    exists s2. split; [exact Hrun|]. by eapply dispatched_cons.
  - intros Hadd. unfold check_and_publish. rewrite bind_unfold.
    destruct (get_posts_due_overflows 1 self Hadd) as [msg ->].
    by exists msg.
Qed.
End smart_scheduler_more.

Section load_recent_templates.
Import SmartScheduler.
Context `{!IsoFormat}.

Lemma remember_template_elem platform name recent p n :
  n ∈ default [] (remember_template platform name recent !! p)
  ↔ n ∈ default [] (recent !! p) ∨ (p = platform ∧ n = name).
Proof.
  unfold remember_template.
  destruct (recent !! platform) as [names|] eqn:Hnames.
  - rewrite Hnames. simpl. case_bool_decide as Hin.
    + split; [by left|]. intros [?|[-> ->]]; [done|]. by rewrite Hnames.
    + destruct (decide (p = platform)) as [->|Hne].
      * rewrite lookup_insert_eq, Hnames. simpl.
        rewrite elem_of_app, list_elem_of_singleton. tauto.
      * rewrite lookup_insert_ne by done. tauto.
  - rewrite lookup_insert_eq. simpl.
    destruct (decide (p = platform)) as [->|Hne].
    + rewrite lookup_insert_eq, Hnames. simpl.
      rewrite list_elem_of_singleton. split; [auto|].
      intros [Hin|[_ ->]]; [by apply elem_of_nil in Hin|done].
    + rewrite !lookup_insert_ne by done. tauto.
Qed.

Lemma remember_template_NoDup platform name recent :
  (∀ p l, recent !! p = Some l → NoDup l) →
  ∀ p l, remember_template platform name recent !! p = Some l → NoDup l.
Proof.
  intros Hnd p l. unfold remember_template.
  destruct (recent !! platform) as [names|] eqn:Hnames.
  - rewrite Hnames. simpl. case_bool_decide as Hin; [apply Hnd|].
    destruct (decide (p = platform)) as [->|Hne].
    + rewrite lookup_insert_eq. intros [= <-].
      apply NoDup_app. split; [by eapply Hnd|].
      split; [|apply NoDup_singleton].
      by intros x Hx ->%list_elem_of_singleton.
    + rewrite lookup_insert_ne by done. apply Hnd.
  - rewrite lookup_insert_eq. simpl.
    destruct (decide (p = platform)) as [->|Hne].
    + rewrite lookup_insert_eq. intros [= <-]. apply NoDup_singleton.
    + rewrite !lookup_insert_ne by done. apply Hnd.
Qed.

Lemma remember_template_prefix platform name recent p :
  default [] (recent !! p)
  `prefix_of` default [] (remember_template platform name recent !! p).
Proof.
  unfold remember_template.
  destruct (recent !! platform) as [names|] eqn:Hnames.
  - rewrite Hnames. simpl. case_bool_decide as Hin; [done|].
    destruct (decide (p = platform)) as [->|Hne].
    + rewrite lookup_insert_eq, Hnames. simpl. by apply prefix_app_r.
    + by rewrite lookup_insert_ne.
  - rewrite lookup_insert_eq. simpl.
    destruct (decide (p = platform)) as [->|Hne].
    + rewrite lookup_insert_eq, Hnames. simpl. apply prefix_nil.
    + by rewrite !lookup_insert_ne.
Qed.

(** [_load_recent_templates], as long as the publisher's clock is 60 days
    past the first day a [datetime] holds, never raises and changes only
    [recent_templates]: afterwards the list of a platform starts with what
    it held and holds besides exactly the template names of the records
    of that platform the publisher reports for the last 60 days (records
    with an empty platform or name apart); no name is entered twice.  In
    those first 60 days it raises [OverflowError] and changes nothing. *)
Theorem load_recent_templates_merges (self : t SocialMediaPublisher.t) :
  let now :=
    {| ticks := SocialMediaPublisher.clock
                  (SocialMediaPublisher.world (publisher self));
       utcoffset := None |} in
  (can_sub now (days 60) →
   ∃ self' history,
     _load_recent_templates self = (Ok tt, self')
     ∧ SocialMediaPublisher.get_recently_published None 60 (publisher self)
       = (Ok history, publisher self)
     ∧ queue self' = queue self ∧ heap self' = heap self
     ∧ publisher self' = publisher self
     ∧ (∀ p, default [] (recent_templates self !! p)
             `prefix_of` default [] (recent_templates self' !! p))
     ∧ (∀ p n, n ∈ default [] (recent_templates self' !! p) ↔
          n ∈ default [] (recent_templates self !! p)
          ∨ (p ≠ "" ∧ n ≠ ""
             ∧ ∃ record, record ∈ history
                 ∧ SocialMediaPublisher.r_platform record = p
                 ∧ SocialMediaPublisher.r_template_name record = n))
     ∧ ((∀ p l, recent_templates self !! p = Some l → NoDup l) →
        ∀ p l, recent_templates self' !! p = Some l → NoDup l))
  ∧ (¬ can_sub now (days 60) →
     ∃ msg, _load_recent_templates self = (Raise (OverflowError msg), self)).
Proof.
  intros now.
  assert (Hself : set_publisher (publisher self) self = self)
    by by destruct self.
  split.
  2:{ intros Hsub. unfold _load_recent_templates. rewrite bind_unfold.
      unfold on_publisher, zoom.
      destruct (recently_published_overflows None 60 (publisher self) Hsub)
        as [msg ->].
      rewrite Hself. by exists msg. }
  intros Hsub.
  unfold _load_recent_templates. rewrite bind_unfold.
  unfold on_publisher, zoom.
  rewrite recently_published_filter by done.
  set (history := filter _ _). clearbody now. clear Hsub now.
  rewrite Hself. clear Hself.
  rewrite (for_each_modify
             (λ record, negb (SocialMediaPublisher.r_platform record =? "")%string
                        && negb (SocialMediaPublisher.r_template_name record
                                 =? "")%string)
             (λ record, set_recent_templates
                          (remember_template
                             (SocialMediaPublisher.r_platform record)
                             (SocialMediaPublisher.r_template_name record)))).
  eexists _, history. split; [done|]. split; [done|].
  generalize history. clear history. intros history. revert self.
  induction history as [|record history IH]; intros self; simpl.
  { do 4 (split; [done|]). split; [|done]. intros p n.
    split; [by left|]. intros [?|(_ & _ & ? & Hin & _)]; [done|].
    by apply elem_of_nil in Hin. }
  set (self1 :=
         if negb (SocialMediaPublisher.r_platform record =? "")%string
            && negb (SocialMediaPublisher.r_template_name record =? "")%string
         then set_recent_templates
                (remember_template (SocialMediaPublisher.r_platform record)
                   (SocialMediaPublisher.r_template_name record))
                self
         else self).
  assert (queue self1 = queue self ∧ heap self1 = heap self
          ∧ publisher self1 = publisher self) as (Hq & Hh & Hp).
  { unfold self1. by destruct (_ && _). }
  assert (∀ p n, n ∈ default [] (recent_templates self1 !! p) ↔
            n ∈ default [] (recent_templates self !! p)
            ∨ (p ≠ "" ∧ n ≠ ""
               ∧ SocialMediaPublisher.r_platform record = p
               ∧ SocialMediaPublisher.r_template_name record = n)) as Helem.
  { intros p n. unfold self1.
    destruct (String.eqb_spec (SocialMediaPublisher.r_platform record) "")
      as [Hp0|Hp0]; simpl.
    { split; [auto|]. intros [?|(? & _ & <- & _)]; done. }
    destruct (String.eqb_spec (SocialMediaPublisher.r_template_name record) "")
      as [Hn0|Hn0]; simpl.
    { split; [auto|]. intros [?|(_ & ? & _ & <-)]; done. }
    rewrite remember_template_elem. split.
    - intros [?|[-> ->]]; [by left|]. right. done.
    - intros [?|(_ & _ & <- & <-)]; [by left|]. by right. }
  assert (∀ p, default [] (recent_templates self !! p)
               `prefix_of` default [] (recent_templates self1 !! p)) as Hpre.
  { intros p. unfold self1. destruct (_ && _); [|done]. simpl.
    apply remember_template_prefix. }
  assert ((∀ p l, recent_templates self !! p = Some l → NoDup l) →
          ∀ p l, recent_templates self1 !! p = Some l → NoDup l) as Hnd.
  { intros Hall. unfold self1. destruct (_ && _); [|done]. simpl.
    by apply remember_template_NoDup. }
  destruct (IH self1) as (Hq' & Hh' & Hp' & Hpre' & Helem' & Hnd').
  split; [congruence|]. split; [congruence|]. split; [congruence|].
  split; [intros p; etrans; [apply Hpre|apply Hpre']|].
  split; [|intros Hall; by apply Hnd', Hnd].
  intros p n. rewrite Helem', Helem. split.
  - intros [[?|(? & ? & ? & ?)]|(? & ? & r & Hr & ? & ?)]; [by left|right..].
    + split; [done|]. split; [done|]. exists record. split; [by left|done].
    + split; [done|]. split; [done|]. exists r. split; [by right|done].
  - intros [?|(? & ? & r & [->|Hr]%elem_of_cons & ? & ?)]; [by left; left|..].
    + left. right. done.
    + right. split; [done|]. split; [done|]. by exists r.
Qed.
End load_recent_templates.

(** ** page_router.py *)

Section page_router.
Import PageRouter DuplicateContentHandler.
Context `{!StrLower}.

Lemma existsb_elem_of {A} (f : A → bool) (l : list A) x :
  x ∈ l → f x = true → existsb f l = true.
Proof.
  intros Hx Hf. apply existsb_exists. exists x.
  split; [by apply list_elem_of_In|done].
Qed.

Lemma existsb_true_iff {A} (f : A → bool) (l : list A) :
  existsb f l = true ↔ ∃ x, x ∈ l ∧ f x = true.
Proof.
  rewrite existsb_exists. by setoid_rewrite list_elem_of_In.
Qed.

(** [route_template] routes to the CoCalc page (id 698630966948910), first
    and with priority 10, and to the SageMath page (id 26593144945), with
    priority 8, besides exactly when the template is relevant to it: it
    has SageTeX, or its lower-cased category contains one of the eight
    SageMath categories, or its name, description and lower-cased category,
    joined by spaces and lower-cased, contain one of the twelve SageMath
    keywords.  The routes are already in the order the duplicate handler
    sorts them into, content is to be spread exactly when there are two
    routes, and every route names a configured page by id and name. *)
Theorem route_template_pages (template_metadata : Metadata) :
  let category := lower (default "" (category template_metadata)) in
  let searchable_text :=
    lower (str_join " " [ default "" (template_name template_metadata);
                          default "" (description template_metadata);
                          category ]) in
  let relevant : Prop :=
    has_sagetex template_metadata = Some true
    ∨ (∃ cat, cat ∈ [ "mathematics"; "pure-mathematics"; "algebra";
                      "number-theory"; "topology"; "combinatorics";
                      "graph-theory"; "symbolic-computation" ]
              ∧ str_in cat category = true)
    ∨ (∃ keyword, keyword ∈ [ "sage"; "sagetex"; "sagemath"; "symbolic";
                              "algebra"; "number theory"; "combinatorics";
                              "topology"; "pure math"; "abstract algebra";
                              "group theory"; "ring theory" ]
                  ∧ str_in keyword searchable_text = true) in
  let cocalc :=
    {| page_id := "698630966948910"; page_name := "CoCalc";
       reason := "CoCalc page receives all template content";
       priority := 10 |} in
  let sagemath :=
    {| page_id := "26593144945"; page_name := "SageMath";
       reason := "Template uses SageTeX or is math-focused";
       priority := 8 |} in
  let routes := route_template template_metadata in
  (relevant ↔ _is_sagemath_relevant template_metadata = true)
  ∧ (relevant → routes = [cocalc; sagemath])
  ∧ (¬ relevant → routes = [cocalc])
  ∧ (should_spread_across_days routes = true ↔ relevant)
  ∧ (should_spread_duplicates routes = true ↔ relevant)
  ∧ sorted_reverse priority routes = routes
  ∧ (∀ r, r ∈ routes →
       ∃ page, get_page_info (page_id r) = Some page
               ∧ page_data_name page = page_name r).
Proof.
  intros category searchable_text relevant cocalc sagemath routes.
  assert (Hrel : relevant ↔ _is_sagemath_relevant template_metadata = true).
  { unfold relevant, _is_sagemath_relevant.
    rewrite <- !existsb_true_iff.
    change (lower (default "" (PageRouter.category template_metadata)))
      with category.
    change (lower (str_join " " [ default "" (template_name template_metadata);
                                  default "" (description template_metadata);
                                  category ]))
      with searchable_text.
    change [ "mathematics"; "pure-mathematics"; "algebra";
             "number-theory"; "topology"; "combinatorics";
             "graph-theory"; "symbolic-computation" ]
      with SAGEMATH_CATEGORIES.
    change [ "sage"; "sagetex"; "sagemath"; "symbolic";
             "algebra"; "number theory"; "combinatorics";
             "topology"; "pure math"; "abstract algebra";
             "group theory"; "ring theory" ]
      with SAGEMATH_KEYWORDS.
    destruct (has_sagetex template_metadata) as [[|]|];
      cbn [default];
      destruct (existsb _ SAGEMATH_CATEGORIES);
      destruct (existsb _ SAGEMATH_KEYWORDS); intuition congruence. }
  assert (Hroutes :
    routes = if _is_sagemath_relevant template_metadata
             then [cocalc; sagemath] else [cocalc]) by done.
  clearbody routes relevant.
  destruct (_is_sagemath_relevant template_metadata); subst routes.
  - split; [done|]. split; [done|]. split; [intros []; by apply Hrel|].
    split; [done|]. split; [done|]. split; [done|].
    intros r [->|[->|[]%elem_of_nil]%elem_of_cons]%elem_of_cons;
      eexists; (split; [reflexivity|done]).
  - assert (¬ relevant) as Hno by (rewrite Hrel; done).
    split; [done|]. split; [done|]. split; [done|].
    split; [done|]. split; [done|]. split; [done|].
    intros r [->|[]%elem_of_nil]%elem_of_cons.
    eexists; (split; [reflexivity|done]).
Qed.

(** [route_notebook] routes the same way: CoCalc always, first and with
    priority 10, and the SageMath page, with priority 8, exactly when the
    notebook is relevant to it: its lower-cased base name contains "sage",
    "symbolic", "algebra" or "math", or it has tags that, joined by spaces
    and lower-cased, contain one of the twelve SageMath keywords, or its
    lower-cased description does. *)
Theorem route_notebook_pages (notebook_metadata : Metadata) :
  let keywords :=
    [ "sage"; "sagetex"; "sagemath"; "symbolic"; "algebra"; "number theory";
      "combinatorics"; "topology"; "pure math"; "abstract algebra";
      "group theory"; "ring theory" ] in
  let relevant : Prop :=
    (∃ keyword, keyword ∈ ["sage"; "symbolic"; "algebra"; "math"]
                ∧ str_in keyword
                    (lower (default "" (basename notebook_metadata))) = true)
    ∨ (∃ ts keyword, tags notebook_metadata = Some ts ∧ ts ≠ []
                     ∧ keyword ∈ keywords
                     ∧ str_in keyword (lower (str_join " " ts)) = true)
    ∨ (∃ keyword, keyword ∈ keywords
                  ∧ str_in keyword
                      (lower (default "" (description notebook_metadata)))
                    = true) in
  let cocalc :=
    {| page_id := "698630966948910"; page_name := "CoCalc";
       reason := "CoCalc page receives all notebook content";
       priority := 10 |} in
  let sagemath :=
    {| page_id := "26593144945"; page_name := "SageMath";
       reason := "Notebook contains SageMath/mathematical content";
       priority := 8 |} in
  let routes := route_notebook notebook_metadata in
  (relevant ↔ _is_notebook_sagemath_relevant notebook_metadata = true)
  ∧ (relevant → routes = [cocalc; sagemath])
  ∧ (¬ relevant → routes = [cocalc])
  ∧ (should_spread_across_days routes = true ↔ relevant)
  ∧ sorted_reverse priority routes = routes
  ∧ (∀ r, r ∈ routes →
       ∃ page, get_page_info (page_id r) = Some page
               ∧ page_data_name page = page_name r).
Proof.
  intros keywords relevant cocalc sagemath routes.
  assert (Hrel :
    relevant ↔ _is_notebook_sagemath_relevant notebook_metadata = true).
  { unfold relevant, _is_notebook_sagemath_relevant.
    change keywords with SAGEMATH_KEYWORDS.
    assert (Htags :
      (∃ ts keyword, tags notebook_metadata = Some ts ∧ ts ≠ []
                     ∧ keyword ∈ SAGEMATH_KEYWORDS
                     ∧ str_in keyword (lower (str_join " " ts)) = true)
      ↔ match default [] (tags notebook_metadata) with
        | [] => false
        | _ => existsb (λ keyword,
                          str_in keyword
                            (lower (str_join " "
                                      (default [] (tags notebook_metadata)))))
                       SAGEMATH_KEYWORDS
        end = true).
    { destruct (tags notebook_metadata) as [[|t ts]|].
      - split; [intros (ts & kw & [= <-] & Hne & _); done|done].
      - change (default [] (Some (t :: ts))) with (t :: ts). cbv beta iota.
        rewrite existsb_true_iff. split.
        + intros (ts' & kw & [= <-] & _ & Hkw & Hin). by exists kw.
        + intros (kw & Hkw & Hin). by exists (t :: ts), kw.
      - split; [intros (ts & kw & [=] & _)|done]. }
    rewrite Htags, <- !existsb_true_iff.
    destruct (existsb _ ["sage"; "symbolic"; "algebra"; "math"]);
      [intuition congruence|].
    destruct (match default [] _ with [] => false | _ => _ end);
      [intuition congruence|].
    destruct (existsb _ SAGEMATH_KEYWORDS); intuition congruence. }
  assert (Hroutes :
    routes = if _is_notebook_sagemath_relevant notebook_metadata
             then [cocalc; sagemath] else [cocalc]) by done.
  clearbody routes relevant.
  destruct (_is_notebook_sagemath_relevant notebook_metadata); subst routes.
  - split; [done|]. split; [done|]. split; [intros []; by apply Hrel|].
    split; [done|]. split; [done|].
    intros r [->|[->|[]%elem_of_nil]%elem_of_cons]%elem_of_cons;
      eexists; (split; [reflexivity|done]).
  - assert (¬ relevant) as Hno by (rewrite Hrel; done).
    split; [done|]. split; [done|]. split; [done|].
    split; [done|]. split; [done|].
    intros r [->|[]%elem_of_nil]%elem_of_cons.
    eexists; (split; [reflexivity|done]).
Qed.

Lemma staggering_fits_two self base_time :
  staggering_fits self base_time 2
  ↔ can_add base_time (days (min_day_gap self)).
Proof.
  unfold staggering_fits. cbn [Nat.sub seq].
  rewrite Forall_singleton. change (Z.of_nat 0) with 0.
  by rewrite Z.mul_0_l, dt_add_zero.
Qed.

(** Routing and scheduling together: content routed to CoCalc alone gets
    one entry, at the base time and without an original flag; content that
    also goes to SageMath gets the CoCalc entry at the base time, flagged
    as the original, and the SageMath entry [min_day_gap] days later when
    that time is one Python can represent, and otherwise the call raises
    [OverflowError]. *)
Theorem routed_content_schedule (self : DuplicateContentHandler.t)
    (metadata : Metadata) (base_time : datetime) (e : Entropy) :
  let one :=
    Ok {| original_time := base_time;
          schedules :=
            [ {| entry_page_id := "698630966948910";
                 entry_page_name := "CoCalc";
                 scheduled_time := base_time;
                 is_original := None |} ];
          duplicate_group_id := uuid_stream e (uuid_drawn e);
          ds_min_day_gap := 0 |} in
  let two :=
    Ok {| original_time := base_time;
          schedules :=
            [ {| entry_page_id := "698630966948910";
                 entry_page_name := "CoCalc";
                 scheduled_time := base_time;
                 is_original := Some true |};
              {| entry_page_id := "26593144945";
                 entry_page_name := "SageMath";
                 scheduled_time := dt_add base_time (days (min_day_gap self));
                 is_original := Some false |} ];
          duplicate_group_id := uuid_stream e (uuid_drawn e);
          ds_min_day_gap := min_day_gap self |} in
  let plan (relevant : bool) (r : result DuplicateSchedule) :=
    if relevant then
      (can_add base_time (days (min_day_gap self)) → r = two)
      ∧ (¬ can_add base_time (days (min_day_gap self)) → overflows r)
    else r = one in
  plan (_is_sagemath_relevant metadata)
       (schedule_duplicate_content self (route_template metadata) base_time e).1
  ∧ plan (_is_notebook_sagemath_relevant metadata)
         (schedule_duplicate_content self (route_notebook metadata) base_time e).1.
Proof.
  intros one two plan.
  assert (Htwo : ∀ r1 r2,
    r1 = page_data_id cocalc_page → r2 = page_data_id sagemath_page →
    ∀ reason1 reason2,
    plan true
      (schedule_duplicate_content self
         [ {| page_id := r1; page_name := page_data_name cocalc_page;
              reason := reason1; priority := 10 |};
           {| page_id := r2; page_name := page_data_name sagemath_page;
              reason := reason2; priority := 8 |} ] base_time e).1).
  { intros r1 r2 -> -> reason1 reason2. unfold plan. split.
    - intros Hadd%staggering_fits_two.
      rewrite schedule_duplicate_content_many by (done || (simpl; lia)).
      unfold two. cbn [fst]. do 2 f_equal.
      cbn -[Z.mul days Z.of_nat staggered_entry]. unfold staggered_entry.
      change (Z.of_nat 1) with 1. change (Z.of_nat 0) with 0.
      by rewrite Z.mul_0_l, Z.mul_1_l, dt_add_zero.
    - intros Hadd. rewrite <- staggering_fits_two in Hadd.
      destruct (schedule_duplicate_content_raises self
                  [ {| page_id := page_data_id cocalc_page;
                       page_name := page_data_name cocalc_page;
                       reason := reason1; priority := 10 |};
                    {| page_id := page_data_id sagemath_page;
                       page_name := page_data_name sagemath_page;
                       reason := reason2; priority := 8 |} ] base_time e)
        as [msg ->]; [simpl; lia|done|].
      by exists msg. }
  unfold route_template, route_notebook. split.
  - destruct (_is_sagemath_relevant metadata); [by apply Htwo|done].
  - destruct (_is_notebook_sagemath_relevant metadata); [by apply Htwo|done].
Qed.
End page_router.

(** ** The further properties on concrete data *)

Lemma budget_within_capacity_witness :
  budget_ok Demo.new_publisher
  ∧ budget_ok
      (@SocialMediaPublisher.publish_to_facebook Iso8601.codec
         "text" "https://cocalc.com" None "demo" None Demo.new_publisher).2.
Proof.
  assert (budget_ok Demo.new_publisher) as Hok.
  { intros platform b Hb.
    unfold Demo.new_publisher, SocialMediaPublisher.initial_rate_limits in Hb.
    simpl in Hb.
    apply lookup_insert_Some in Hb as [[<- <-]|[_ Hb]];
      [vm_compute; split; discriminate|].
    apply lookup_insert_Some in Hb as [[<- <-]|[_ Hb]];
      [vm_compute; split; discriminate|].
    apply lookup_singleton_Some in Hb as [<- <-].
    vm_compute; split; discriminate. }
  split; [exact Hok|].
  apply (proj1 (proj2 (budget_within_capacity (H := Iso8601.codec)
                         Demo.new_publisher Hok))).
Defined.

Lemma recorded_publish_is_recent_witness :
  let pub := set_clock (ticks Demo.nine_o_clock) Demo.publisher in
  let later := ticks Demo.nine_o_clock + days 29 in
  ∃ self' recent record,
    @SocialMediaPublisher._record_publish Iso8601.codec
      "facebook" "demo" "post-1" None pub
    = (Ok tt, self')
    ∧ @SocialMediaPublisher.get_recently_published Iso8601.codec
        (Some "facebook") 30 (set_clock later self')
      = (Ok recent, set_clock later self')
    ∧ last recent = Some record
    ∧ SocialMediaPublisher.r_post_id record = "post-1"
    ∧ SocialMediaPublisher.r_template_name record = "demo"
    ∧ SocialMediaPublisher.r_page_id record = Some "698630966948910".
Proof.
  apply (recorded_publish_is_recent (H := Iso8601.codec)
           "facebook" "demo" "post-1" None 30
           (ticks Demo.nine_o_clock + days 29)
           (set_clock (ticks Demo.nine_o_clock) Demo.publisher)).
  - vm_compute. reflexivity.
  - reflexivity.
  - apply (@bool_decide_eq_true_1 _ (can_sub_dec _ _)).
    vm_compute. reflexivity.
Defined.

(** One object queued twice: rescheduling it under its id shows in both
    entries.  Two equal objects: only the first one found changes. *)
Example reschedule_shared_object :
  let self := {| UnifiedQueueManager.queue := [Demo.item_a; Demo.item_a];
                 UnifiedQueueManager.posting_history := [] |} in
  let moved :=
    UnifiedQueueManager.set_scheduled_time "2025-01-01T09:00:00" Demo.item_a in
  UnifiedQueueManager.queue
    (@UnifiedQueueManager.reschedule_content Iso8601.codec
       "a" Demo.nine_o_clock (λ _, true) self).2
  = [moved; moved]
  ∧ UnifiedQueueManager.queue
      (@UnifiedQueueManager.reschedule_content Iso8601.codec
         "a" Demo.nine_o_clock (λ _, false) self).2
    = [moved; Demo.item_a].
Proof. vm_compute. split; reflexivity. Qed.

(** ** enhanced_scheduler.py, spreading duplicates *)


Lemma mapM_result_Raise {A B} (f : A → result B) (l : list A) a e :
  a ∈ l → f a = Raise e → ∃ e', mapM f l = Raise e'.
Proof.
  intros Hin Ha. induction l as [|a0 l IH]; [by apply elem_of_nil in Hin|].
  simpl. destruct (f a0) as [b|e0] eqn:Ha0; [|simpl; eauto].
  apply elem_of_cons in Hin as [->|Hin]; [congruence|].
  destruct (IH Hin) as [e' ->]. simpl. eauto.
Qed.



Lemma length_filter_two {A} (P : A → Prop) `{∀ x, Decision (P x)}
    (l : list A) :
  (2 ≤ length (filter P l))%nat →
  ∀ before, before ≡ₚ filter P l → ∃ x y rest, before = x :: y :: rest.
Proof.
  intros Hlen before Hperm. apply Permutation_length in Hperm.
  destruct before as [|x [|y rest]]; simpl in *; [lia..|eauto].
Qed.

Section enhanced_scheduler.
Import UnifiedQueueManager EnhancedScheduler.
Context `{!IsoFormat}.

Lemma split_duplicates_spec content_items :
  split_duplicates content_items
  = (foldl (λ g x, group_insert (default "" (duplicate_group_id x)) x g) []
           (filter in_duplicate_group content_items),
     filter (λ c, ¬ in_duplicate_group c) content_items).
Proof.
  unfold split_duplicates.
  enough (∀ g0 n0,
    foldl (λ acc item,
             let '(duplicate_groups, non_duplicates) := acc in
             if is_duplicate item && truthy (duplicate_group_id item)
             then (group_insert (default "" (duplicate_group_id item)) item
                                duplicate_groups,
                   non_duplicates)
             else (duplicate_groups, non_duplicates ++ [item]))
          (g0, n0) content_items
    = (foldl (λ g x, group_insert (default "" (duplicate_group_id x)) x g) g0
             (filter in_duplicate_group content_items),
       n0 ++ filter (λ c, ¬ in_duplicate_group c) content_items))
    as Hgen by apply Hgen.
  induction content_items as [|item items IH]; intros g0 n0; simpl.
  { by rewrite app_nil_r. }
  rewrite !filter_cons.
  destruct (decide (in_duplicate_group item)) as [Hd|Hd].
  - rewrite decide_False by auto. unfold in_duplicate_group in Hd.
    by rewrite Hd, IH.
  - rewrite decide_True by done. unfold in_duplicate_group in Hd.
    apply not_true_is_false in Hd. rewrite Hd, IH.
    by rewrite <- app_assoc.
Qed.




Lemma spread_from_raises min_gap rest : ∀ prev c e,
  rest ≠ [] → c ∈ prev :: rest →
  fromisoformat (scheduled_time c) = Raise e →
  ∃ e', spread_from min_gap prev rest = Raise e'.
Proof.
  induction rest as [|curr rest IH]; intros prev c e Hne Hin Hc; [done|].
  simpl. unfold mbind, result_bind.
  destruct (fromisoformat (scheduled_time prev)) as [prev_time|e1] eqn:Hprev;
    [|eauto].
  destruct (fromisoformat (scheduled_time curr)) as [curr_time|e2] eqn:Hcurr;
    [|eauto].
  destruct (dt_sub curr_time prev_time) as [delta|e3]; [|eauto].
  apply elem_of_cons in Hin as [->|Hin]; [congruence|].
  apply elem_of_cons in Hin as [->|Hin]; [congruence|].
  assert (Hrest : ∀ curr', ∃ e', spread_from min_gap curr' rest = Raise e').
  { intros curr'. apply (IH curr' c e); [|by right|done].
    intros ->. by apply elem_of_nil in Hin. }
  destruct (delta <? min_gap).
  - destruct (dt_plus prev_time min_gap) as [new_time|e4]; [|eauto].
    destruct (Hrest (set_scheduled_time (isoformat new_time) curr))
      as [e' ->]. eauto.
  - destruct (Hrest curr) as [e' ->]. eauto.
Qed.






(** Nothing in [_handle_duplicate_spreading] catches a parse error: as
    soon as a duplicate group of two or more items holds one whose
    scheduled time [fromisoformat] rejects, the call raises. *)
Theorem duplicate_spreading_raises (self : EnhancedScheduler.t)
    (content_items : list QueuedContent) (g : string) (c : QueuedContent)
    (e : exn) :
  (2 ≤ length (filter (λ c, in_duplicate_group c
                            ∧ duplicate_group_id c = Some g)
                      content_items))%nat →
  c ∈ content_items →
  in_duplicate_group c →
  duplicate_group_id c = Some g →
  fromisoformat (scheduled_time c) = Raise e →
  ∃ e', _handle_duplicate_spreading self content_items = Raise e'.
Proof.
  intros Hlen Hin Hdup Hg Hc.
  unfold _handle_duplicate_spreading. rewrite split_duplicates_spec.
  set (duplicate_groups := foldl _ [] _).
  set (members := filter (λ c, default "" (duplicate_group_id c) = g)
                         (filter in_duplicate_group content_items)).
  assert (members = filter (λ c, in_duplicate_group c
                                 ∧ duplicate_group_id c = Some g)
                           content_items) as Hmembers.
  { unfold members. rewrite list_filter_filter. apply list_filter_iff.
    intros x. unfold in_duplicate_group, truthy.
    destruct (is_duplicate x), (duplicate_group_id x) as [s|]; simpl;
      try (split; intros; destruct_and?; done).
    split; [intros [<- ?]; done|intros [? [= <-]]; done]. }
  assert (c ∈ members) as Hcm.
  { rewrite Hmembers. apply list_elem_of_filter. done. }
  assert ((g, members) ∈ duplicate_groups) as Hgroup.
  { apply (group_fold_elem (λ c, default "" (duplicate_group_id c)) id).
    rewrite list_fmap_id. split; [done|]. intros Hnil.
    rewrite Hnil in Hcm. by apply elem_of_nil in Hcm. }
  assert (∃ e', spread_group self members = Raise e') as [e' He'].
  { unfold spread_group.
    destruct (timedelta_of _) as [min_gap|e0]; [|simpl; eauto].
    cbn [mbind result_bind].
    pose proof (stable_sort_perm
                  (λ x y, String.ltb (scheduled_time x) (scheduled_time y))
                  members) as Hperm.
    rewrite Hmembers in Hperm, Hcm |- *.
    destruct (length_filter_two _ _ Hlen _ Hperm) as (x & y & rest & Hsorted).
    rewrite Hsorted in *. cbv beta iota zeta.
    destruct (spread_from_raises min_gap (y :: rest) x c e)
      as [e' ->]; [done| |done|simpl; eauto].
    by rewrite Hperm. }
  destruct (mapM_result_Raise (λ group, spread_group self group.2)
              duplicate_groups (g, members) e' Hgroup He') as [e'' Hraise].
  rewrite Hraise. simpl. eauto.
Qed.
End enhanced_scheduler.


Lemma duplicate_spreading_raises_witness :
  ∃ e',
    EnhancedScheduler._handle_duplicate_spreading (H := Iso8601.codec)
      {| EnhancedScheduler.duplicate_handler :=
           {| DuplicateContentHandler.min_day_gap := 2 |} |}
      [ Demo.duplicate "g" Demo.item_a;
        Demo.duplicate "g" (Demo.content "c" "text" "tomorrow" 5) ]
    = Raise e'.
Proof.
  apply (duplicate_spreading_raises (H := Iso8601.codec) _ _ "g"
           (Demo.duplicate "g" (Demo.content "c" "text" "tomorrow" 5))
           (ValueError "Invalid isoformat string: tomorrow")).
  - vm_compute. lia.
  - right. left.
  - reflexivity.
  - reflexivity.
  - reflexivity.
Defined.
